(** * Savant: session bridge and conversation manager

    A shallow embedding of the Python sources

      - [backend/voice_bridge_client.py]   (module [VoiceBridgeClient])
      - [backend/conversation_manager.py]  (module [ConversationManager])
      - [backend/vision_processor.py]      (module [VisionProcessor])
      - [backend/database_manager.py]      (module [DatabaseManager])
      - [backend/audio_bridge.py]          (module [BackendAudioBridge])
      - [rag_preparation/data_pipeline.py] (module [DataPipeline])

    Python objects become records, methods become functions in a small
    state/exception/trace monad, and the outside world (HTTP token
    service, LiveKit room, TTS engine, vision model, TinyDB file, the
    [json] module) is a record of oracles, so every statement below is
    quantified over what those collaborators answer. *)

From Stdlib Require Import List String Ascii Bool NArith Arith Lia.
From Stdlib Require Import DecimalString.
Import ListNotations.
Local Open Scope list_scope.

(* ===================================================================== *)
(** ** Python values *)
(* ===================================================================== *)

Module Py.

(** A Python [str] is a sequence of Unicode code points; [bytes] is a
    sequence of octets. *)
Definition str := list N.
Definition bytes := list N.

(** ASCII literals of the source text. *)
Definition lit (s : string) : str :=
  List.map N_of_ascii (list_ascii_of_string s).

Definition str_eqb (a b : str) : bool :=
  if list_eq_dec N.eq_dec a b then true else false.

(** Truth value of a string, as in [if text:]. *)
Definition truthy (s : str) : bool :=
  match s with [] => false | _ :: _ => true end.

(** [s.startswith(p)] *)
Fixpoint startswith (s p : str) : bool :=
  match p, s with
  | [], _ => true
  | _ :: _, [] => false
  | c :: p', d :: s' => N.eqb c d && startswith s' p'
  end.

(** [p in s] for strings: [p] occurs as a contiguous slice of [s]. *)
Fixpoint contains (p s : str) : bool :=
  startswith s p ||
  match s with
  | [] => false
  | _ :: s' => contains p s'
  end.

(** [s.replace(old, new)] for a non-empty [old]: non-overlapping
    occurrences, left to right.  [skip] counts the characters of a
    just-replaced occurrence that are still to be dropped. *)
Fixpoint replace_from (skip : nat) (old new s : str) : str :=
  match s with
  | [] => []
  | c :: s' =>
      match skip with
      | S k => replace_from k old new s'
      | O =>
          if startswith s old
          then new ++ replace_from (List.length old - 1) old new s'
          else c :: replace_from 0 old new s'
      end
  end.

Definition replace (s old new : str) : str := replace_from 0 old new s.

(** [sep.join(parts)] *)
Fixpoint join (sep : str) (parts : list str) : str :=
  match parts with
  | [] => []
  | [p] => p
  | p :: rest => p ++ sep ++ join sep rest
  end.

(** The characters [str.strip()] removes: CPython's
    [Py_UNICODE_ISSPACE]. *)
Local Open Scope N_scope.

Definition isspace (c : N) : bool :=
  ((0x09 <=? c) && (c <=? 0x0D)) || ((0x1C <=? c) && (c <=? 0x20))
  || (c =? 0x85) || (c =? 0xA0) || (c =? 0x1680)
  || ((0x2000 <=? c) && (c <=? 0x200A))
  || (c =? 0x2028) || (c =? 0x2029) || (c =? 0x202F)
  || (c =? 0x205F) || (c =? 0x3000).

Fixpoint lstrip (s : str) : str :=
  match s with
  | [] => []
  | c :: s' => if isspace c then lstrip s' else s
  end.

Definition rstrip (s : str) : str := rev (lstrip (rev s)).

(** [s.strip()] *)
Definition strip (s : str) : str := rstrip (lstrip s).

(** Empty or made of whitespace only. *)
Definition blank (s : str) : bool := forallb isspace s.

(** [bytes.decode('utf-8')], strict: [None] stands for
    [UnicodeDecodeError]. *)
Definition is_cont (b : N) : bool := (0x80 <=? b) && (b <=? 0xBF).
Definition between (lo b hi : N) : bool := (lo <=? b) && (b <=? hi).

Definition second_ok (b0 b1 : N) : bool :=
  if b0 =? 0xE0 then between 0xA0 b1 0xBF
  else if b0 =? 0xED then between 0x80 b1 0x9F
  else if b0 =? 0xF0 then between 0x90 b1 0xBF
  else if b0 =? 0xF4 then between 0x80 b1 0x8F
  else is_cont b1.

Fixpoint decode_utf8 (bs : bytes) : option str :=
  match bs with
  | [] => Some []
  | b0 :: r0 =>
      if b0 <? 0x80 then option_map (cons b0) (decode_utf8 r0)
      else if between 0xC2 b0 0xDF then
        match r0 with
        | b1 :: r1 =>
            if is_cont b1
            then option_map (cons ((b0 - 0xC0) * 64 + (b1 - 0x80)))
                            (decode_utf8 r1)
            else None
        | _ => None
        end
      else if between 0xE0 b0 0xEF then
        match r0 with
        | b1 :: b2 :: r2 =>
            if second_ok b0 b1 && is_cont b2
            then option_map
                   (cons ((b0 - 0xE0) * 4096 + (b1 - 0x80) * 64
                          + (b2 - 0x80)))
                   (decode_utf8 r2)
            else None
        | _ => None
        end
      else if between 0xF0 b0 0xF4 then
        match r0 with
        | b1 :: b2 :: b3 :: r3 =>
            if second_ok b0 b1 && is_cont b2 && is_cont b3
            then option_map
                   (cons ((b0 - 0xF0) * 262144 + (b1 - 0x80) * 4096
                          + (b2 - 0x80) * 64 + (b3 - 0x80)))
                   (decode_utf8 r3)
            else None
        | _ => None
        end
      else None
  end.

(** Numerals as [%d], [%02x] and [%04x] print them. *)
Definition decimal_of (n : nat) : str :=
  lit (DecimalString.NilZero.string_of_uint (Nat.to_uint n)).

Definition hex_digit (d : N) : N := if d <? 10 then 48 + d else 87 + d.

Definition hex2 (b : N) : str :=
  [ hex_digit (b / 16 mod 16); hex_digit (b mod 16) ].

Definition hex4 (c : N) : str :=
  [ hex_digit (c / 4096 mod 16); hex_digit (c / 256 mod 16);
    hex_digit (c / 16 mod 16); hex_digit (c mod 16) ].

(** [UnicodeDecodeError]: where CPython's decoder gives up, on how
    many bytes, and why.  [bad_byte] is the first of these bytes. *)
Inductive decode_reason :=
| InvalidStart
| InvalidContinuation
| UnexpectedEnd.

Record UnicodeDecodeError := {
  bad_start : nat;
  bad_width : nat;
  bad_byte : N;
  reason : decode_reason
}.

(** The first error of the strict decoder in [bs], which begins at
    position [pos] of the payload. *)
Fixpoint utf8_error (pos : nat) (bs : bytes) : option UnicodeDecodeError :=
  match bs with
  | [] => None
  | b0 :: r0 =>
      let stop width why :=
        Some {| bad_start := pos; bad_width := width; bad_byte := b0;
                reason := why |} in
      if b0 <? 0x80 then utf8_error (S pos) r0
      else if b0 <? 0xC2 then stop 1%nat InvalidStart
      else if b0 <? 0xE0 then
        match r0 with
        | [] => stop 1%nat UnexpectedEnd
        | b1 :: r1 =>
            if is_cont b1 then utf8_error (S (S pos)) r1
            else stop 1%nat InvalidContinuation
        end
      else if b0 <? 0xF0 then
        match r0 with
        | [] => stop 1%nat UnexpectedEnd
        | b1 :: r1 =>
            if negb (second_ok b0 b1) then stop 1%nat InvalidContinuation
            else
              match r1 with
              | [] => stop 2%nat UnexpectedEnd
              | b2 :: r2 =>
                  if is_cont b2 then utf8_error (S (S (S pos))) r2
                  else stop 2%nat InvalidContinuation
              end
        end
      else if b0 <? 0xF5 then
        match r0 with
        | [] => stop 1%nat UnexpectedEnd
        | b1 :: r1 =>
            if negb (second_ok b0 b1) then stop 1%nat InvalidContinuation
            else
              match r1 with
              | [] => stop 2%nat UnexpectedEnd
              | b2 :: r2 =>
                  if negb (is_cont b2) then stop 2%nat InvalidContinuation
                  else
                    match r2 with
                    | [] => stop 3%nat UnexpectedEnd
                    | b3 :: r3 =>
                        if is_cont b3
                        then utf8_error (S (S (S (S pos)))) r3
                        else stop 3%nat InvalidContinuation
                    end
              end
        end
      else stop 1%nat InvalidStart
  end.

Definition reason_text (r : decode_reason) : str :=
  match r with
  | InvalidStart => lit "invalid start byte"
  | InvalidContinuation => lit "invalid continuation byte"
  | UnexpectedEnd => lit "unexpected end of data"
  end.

(** [str(e)] for a [UnicodeDecodeError]. *)
Definition decode_message (e : UnicodeDecodeError) : str :=
  lit "'utf-8' codec can't decode "
    ++ match bad_width e with
       | 1%nat =>
           lit "byte 0x" ++ hex2 (bad_byte e) ++ lit " in position "
             ++ decimal_of (bad_start e)
       | _ =>
           lit "bytes in position " ++ decimal_of (bad_start e) ++ lit "-"
             ++ decimal_of (bad_start e + bad_width e - 1)%nat
       end
    ++ lit ": " ++ reason_text (reason e).

(** The message of the error [bs.decode('utf-8')] raises. *)
Definition decode_error (bs : bytes) : str :=
  match utf8_error 0%nat bs with
  | Some e => decode_message e
  | None => []
  end.

(** [str.encode('utf-8')] fails on surrogate code points, and reports
    the whole run of them: [encode_error] is [str(e)] for the
    [UnicodeEncodeError], [None] when the text can be encoded. *)
Definition is_surrogate (c : N) : bool := between 0xD800 c 0xDFFF.

Fixpoint surrogate_run (s : str) : nat :=
  match s with
  | [] => O
  | c :: s' => if is_surrogate c then S (surrogate_run s') else O
  end.

Definition encode_message (pos : nat) (c : N) (more : nat) : str :=
  lit "'utf-8' codec can't encode "
    ++ match more with
       | O =>
           lit "character '\u" ++ hex4 c ++ lit "' in position "
             ++ decimal_of pos
       | S _ =>
           lit "characters in position " ++ decimal_of pos ++ lit "-"
             ++ decimal_of (pos + more)%nat
       end
    ++ lit ": surrogates not allowed".

Fixpoint encode_error_from (pos : nat) (s : str) : option str :=
  match s with
  | [] => None
  | c :: s' =>
      if is_surrogate c
      then Some (encode_message pos c (surrogate_run s'))
      else encode_error_from (S pos) s'
  end.

Definition encode_error (s : str) : option str := encode_error_from 0%nat s.

Local Close Scope N_scope.

(** A value found inside a JSON object, as far as the code looks at
    it: a [str], or anything else, known by its truth value, by what
    [str()] (an f-string) prints for it, and by the name of its type,
    which is what the interpreter's error messages show of it. *)
Inductive value :=
| VStr (s : str)
| VOther (truth : bool) (shown type_name : str).

Definition value_truthy (v : value) : bool :=
  match v with
  | VStr s => truthy s
  | VOther t _ _ => t
  end.

(** [f"{v}"] *)
Definition format (v : value) : str :=
  match v with
  | VStr s => s
  | VOther _ shown _ => shown
  end.

(** A [dict] keeps insertion order; keys are strings. *)
Definition dict := list (str * value).

Fixpoint lookup (d : dict) (k : str) : option value :=
  match d with
  | [] => None
  | (k', v) :: d' => if str_eqb k' k then Some v else lookup d' k
  end.

(** [d.get(k, default)] *)
Definition dict_get (d : dict) (k : str) (default : value) : value :=
  match lookup d k with
  | Some v => v
  | None => default
  end.

(** What [json.loads] or [response.json()] hands back: a [dict], or
    some other JSON value (list, string, number, [None]), of which
    the callers see the truth value and, in error messages, the name
    of the type. *)
Inductive json :=
| JObject (d : dict)
| JOther (truth : bool) (type_name : str).

Definition json_truthy (j : json) : bool :=
  match j with
  | JObject [] => false
  | JObject (_ :: _) => true
  | JOther t _ => t
  end.

(** Exceptions.  Everything the collaborators raise derives from
    [Exception] and is known by its message; task cancellation
    ([asyncio.CancelledError]) derives from [BaseException] only. *)
Inductive exn :=
| Exception (what : str)
| CancelledError.

End Py.

(* ===================================================================== *)
(** ** Effects: state, exceptions and a trace of outside calls *)
(* ===================================================================== *)

Module Eff.
Import Py.

(** [logging.warning] and [logging.error] are how the code reports a
    failure, so they are part of the trace.  [logging.info] lines
    change neither control flow nor state and are left out. *)
Inductive level := WARNING | ERROR.

(** One record of the patient log: the dict built by
    [DatabaseManager.log_patient_state]. *)
Record entry := {
  timestamp : str;
  heart_rate : value;
  injury_detected : value;
  actions_taken : value
}.

(** Calls that leave the process, in the order they are made. *)
Inductive effect :=
| Log (lv : level) (msg : str)
| HttpPost (url api_key participant_name : str)
    (* requests.post(url, headers={"X-API-Key": api_key, ...},
                     json={"participant_name": ...}, timeout=10) *)
| RoomConnect (url token : value)       (* room.connect(url, token) *)
| RoomDisconnect                        (* room.disconnect() *)
| PublishData (text : str)
    (* local_participant.publish_data(data, reliable=True), where
       data is text.encode('utf-8') *)
| DbInsert (e : entry)                  (* patient_db.insert(entry) *)
| TtsSynthesize (text : str)            (* engine.save_to_file(...) *)
| VisionRequest (image : bytes)         (* chat.completions.create *)
| CreateTask (text : str)
    (* asyncio.create_task(self._safe_callback_run(text)) *)
| CancelTask                            (* task.cancel() *)
| Sleep.                                (* asyncio.sleep(1) *)

Inductive outcome (A : Type) :=
| Return (a : A)
| Raise (e : exn).
Arguments Return {A} a.
Arguments Raise {A} e.

(** A method run on a receiver of type [S]: what it returns or
    raises, the receiver afterwards (mutations made before a raise
    stay), and the outside calls it made. *)
Definition M (S A : Type) : Type := S -> outcome A * S * list effect.

Definition ret {S A} (a : A) : M S A := fun s => (Return a, s, []).

Definition raise {S A} (e : exn) : M S A := fun s => (Raise e, s, []).

Definition bind {S A B} (m : M S A) (k : A -> M S B) : M S B :=
  fun s =>
    match m s with
    | (Return a, s1, t1) =>
        let '(r, s2, t2) := k a s1 in (r, s2, t1 ++ t2)
    | (Raise e, s1, t1) => (Raise e, s1, t1)
    end.

Definition get {S} : M S S := fun s => (Return s, s, []).
Definition modify {S} (f : S -> S) : M S unit :=
  fun s => (Return tt, f s, []).
Definition emit {S} (e : effect) : M S unit :=
  fun s => (Return tt, s, [e]).

(** [try: body  except Exception as e: handler(e)] *)
Definition try_except {S A} (body : M S A) (handler : str -> M S A)
  : M S A :=
  fun s =>
    match body s with
    | (Raise (Exception what), s1, t1) =>
        let '(r, s2, t2) := handler what s1 in (r, s2, t1 ++ t2)
    | other => other
    end.

(** [try: body  except: handler]  (a bare [except] catches
    everything). *)
Definition try_bare {S A} (body : M S A) (handler : M S A) : M S A :=
  fun s =>
    match body s with
    | (Raise _, s1, t1) =>
        let '(r, s2, t2) := handler s1 in (r, s2, t1 ++ t2)
    | other => other
    end.

(** [try: body  except asyncio.CancelledError: pass] *)
Definition try_cancelled {S} (body : M S unit) : M S unit :=
  fun s =>
    match body s with
    | (Raise CancelledError, s1, t1) => (Return tt, s1, t1)
    | other => other
    end.

(** [try: body  finally: cleanup].  An exception in [cleanup]
    replaces the outcome of [body]. *)
Definition try_finally {S A} (body : M S A) (cleanup : M S unit)
  : M S A :=
  fun s =>
    let '(r, s1, t1) := body s in
    match cleanup s1 with
    | (Return _, s2, t2) => (r, s2, t1 ++ t2)
    | (Raise e, s2, t2) => (Raise e, s2, t1 ++ t2)
    end.

(** Run a method of a sub-object stored in a field. *)
Definition zoom {S T A} (proj : S -> T) (upd : T -> S -> S)
    (m : M T A) : M S A :=
  fun s => let '(r, t', tr) := m (proj s) in (r, upd t' s, tr).

(** What an outside collaborator answers: a result, or an exception
    derived from [Exception] with the given message. *)
Inductive reply (A : Type) :=
| Ok (a : A)
| Fails (what : str).
Arguments Ok {A} a.
Arguments Fails {A} what.

(** Make the outside call [e], then hand back the collaborator's
    answer. *)
Definition call {S A} (e : effect) (r : reply A) : M S A :=
  fun s =>
    match r with
    | Ok a => (Return a, s, [e])
    | Fails what => (Raise (Exception what), s, [e])
    end.

Definition result {S A} (x : outcome A * S * list effect) : outcome A :=
  fst (fst x).
Definition after {S A} (x : outcome A * S * list effect) : S :=
  snd (fst x).
Definition trace {S A} (x : outcome A * S * list effect) : list effect :=
  snd x.

End Eff.

Declare Scope eff_scope.
Delimit Scope eff_scope with eff.
Notation "x <- m ;; k" := (Eff.bind m (fun x => k))
  (at level 61, m at next level, right associativity) : eff_scope.
Notation "m ;; k" := (Eff.bind m (fun _ => k))
  (at level 61, right associativity) : eff_scope.

(* A combinator used by the event loop: run [m] and also hand back the
   outside calls it made. *)
Definition listen {S A} (m : Eff.M S A) : Eff.M S (A * list Eff.effect) :=
  fun s =>
    let '(r, s1, t1) := m s in
    (match r with
     | Eff.Return a => Eff.Return (a, t1)
     | Eff.Raise e => Eff.Raise e
     end, s1, t1).

Local Open Scope eff_scope.

(* ===================================================================== *)
(** ** The outside world *)
(* ===================================================================== *)

Module World.
Import Py Eff.

(** Why the keep-alive loop of [connect_and_stream] stops. *)
Inductive loop_exit :=
| ConnectionLost     (* room.connection_state left CONN_CONNECTED *)
| Deactivated        (* somebody set bridge.active = False *)
| TaskCancelled.     (* the task was cancelled during the sleep *)

(** What is on disk after [engine.runAndWait()]. *)
Inductive synthesis :=
| NoFile
| Wav (frames : bytes).

Record t := {
  (** [requests.post(...)], [raise_for_status()], [response.json()] *)
  token_service : reply json;
  (** [room.connect(url, token)]: connected, or an exception derived
      from [Exception] (a task cancelled while it connects is not
      among these answers) *)
  room_connect : value -> value -> reply unit;
  (** the session stays up for this many one-second sleeps, then
      ends during the next one for the reason given *)
  keepalive_quiet : nat;
  keepalive_exit : loop_exit;
  (** [room.disconnect()] *)
  room_disconnect : reply unit;
  (** [local_participant.publish_data], for a text that could be
      encoded *)
  publish_data : str -> reply unit;
  (** [json.loads] *)
  json_loads : str -> reply json;
  (** [client.chat.completions.create(...)] up to
      [response.choices[0].message.content] *)
  chat_completion : bytes -> reply str;
  (** [engine.save_to_file], [runAndWait], reading and removing the
      temporary WAV file *)
  tts_synthesize : str -> reply synthesis;
  (** [TinyDB.insert] *)
  tinydb_insert : entry -> reply unit;
  (** [datetime.now().isoformat()] *)
  now_isoformat : str
}.

End World.

(** A pure library call that may raise. *)
Definition lift_reply {S A} (r : Eff.reply A) : Eff.M S A :=
  match r with
  | Eff.Ok a => Eff.ret a
  | Eff.Fails what => Eff.raise (Py.Exception what)
  end.

(** [obj.get(key, default)] on whatever [json.loads] returned: only a
    [dict] has [get]. *)
Definition json_get {S} (obj : Py.json) (key : Py.str) (default : Py.value)
  : Eff.M S Py.value :=
  match obj with
  | Py.JObject d => Eff.ret (Py.dict_get d key default)
  | Py.JOther _ type_name =>
      Eff.raise
        (Py.Exception
           (Py.lit "'" ++ type_name ++ Py.lit "' object has no attribute 'get'"))
  end.

(** [obj[key]].  In this program a subscript always follows a [get]
    on the same object, so the last branch is never reached. *)
Definition json_getitem {S} (obj : Py.json) (key : Py.str)
  : Eff.M S Py.value :=
  match obj with
  | Py.JObject d =>
      match Py.lookup d key with
      | Some v => Eff.ret v
      | None => Eff.raise (Py.Exception (Py.lit "'" ++ key ++ Py.lit "'"))
      end
  | Py.JOther _ type_name =>
      Eff.raise
        (Py.Exception
           (Py.lit "'" ++ type_name ++ Py.lit "' object is not subscriptable"))
  end.

(* ===================================================================== *)
(** ** backend/vision_processor.py *)
(* ===================================================================== *)

Module VisionProcessor.
Import Py Eff.

Record t := {
  api_key : option str;
  base_url : str;
  model : str
}.

(** The dict of the [except] branch of [analyze_injury]. *)
Definition fallback : dict :=
  [ (lit "injury_type", VStr (lit "Unknown"));
    (lit "severity", VStr (lit "Unknown"));
    (lit "visual_overlay_text",
      VStr (lit "Analysis Failed - Check Connection")) ].

Definition fence_json : str := lit "```json".
Definition fence : str := lit "```".

(** Clean up markdown code blocks if present. *)
Definition clean (content : str) : str :=
  if contains fence_json content
  then replace (replace content fence_json []) fence []
  else content.

Definition analyze_injury {S} (w : World.t) (self : t)
    (image_bytes : bytes) : M S json :=
  try_except
    (content <- call (VisionRequest image_bytes)
                     (World.chat_completion w image_bytes) ;;
     lift_reply (World.json_loads w (clean content)))
    (fun e =>
       emit (Log ERROR (lit "Vision analysis failed: " ++ e)) ;;
       ret (JObject fallback)).

End VisionProcessor.

(* ===================================================================== *)
(** ** backend/database_manager.py *)
(* ===================================================================== *)

Module DatabaseManager.
Import Py Eff.

(** [patient_db]: the records of the TinyDB table, oldest first. *)
Record t := { patient_db : list entry }.

Definition log_patient_state (w : World.t)
    (heart_rate injury_detected actions_taken : value) : M t unit :=
  let entry :=
    {| timestamp := World.now_isoformat w;
       heart_rate := heart_rate;
       injury_detected := injury_detected;
       actions_taken := actions_taken |} in
  call (DbInsert entry) (World.tinydb_insert w entry) ;;
  modify (fun self => {| patient_db := patient_db self ++ [entry] |}).

Definition get_logs : M t (list entry) :=
  self <- get ;; ret (patient_db self).

End DatabaseManager.

(* ===================================================================== *)
(** ** backend/audio_bridge.py *)
(* ===================================================================== *)

Module BackendAudioBridge.
Import Py Eff.

Inductive Engine := Pyttsx3.

(** [engine] is [None] when [pyttsx3.init()] failed in [__init__]. *)
Record t := { engine : option Engine }.

Definition generate_pcm {S} (w : World.t) (self : t) (text : str)
  : M S (option bytes) :=
  match truthy text, engine self with
  | true, Some _ =>
      try_except
        (made <- call (TtsSynthesize text) (World.tts_synthesize w text) ;;
         match made with
         | World.NoFile => ret None
         | World.Wav frames => ret (Some frames)
         end)
        (fun e =>
           emit (Log ERROR (lit "TTS Conversion Error: " ++ e)) ;;
           ret None)
  | _, _ => ret None
  end.

End BackendAudioBridge.

(* ===================================================================== *)
(** ** backend/voice_bridge_client.py *)
(* ===================================================================== *)

Module VoiceBridgeClient.
Import Py Eff.

Inductive ConnectionState :=
| CONN_DISCONNECTED
| CONN_CONNECTED
| CONN_RECONNECTING.

Inductive LocalParticipant := TheLocalParticipant.
Inductive AudioSource := TheAudioSource.
Inductive Track := TheTrack.
Inductive Task := TheTask.

(** [rtc.Room], as far as the client reads it. *)
Record Room := {
  connection_state : ConnectionState;
  local_participant : option LocalParticipant
}.

Record Participant := { identity : str }.

(** [rtc.DataPacket] *)
Record DataPacket := {
  data : bytes;
  topic : option str;
  participant : option Participant
}.

(** A transcription segment; [text] is [None] when the object has no
    [text] attribute. *)
Record Segment := { text : option value }.

(** What a legacy transcription event carries: a list of segments,
    or something else, known by what [str()] prints for it. *)
Inductive Transcription :=
| Segments (segs : list Segment)
| NotAList (shown : str).

Section Client.

(** The type of the registered message callbacks. *)
Variable Callback : Type.

Record t := {
  api_url : str;
  api_key : option str;
  room : option Room;
  source : option AudioSource;
  track : option Track;
  on_message_callback : option Callback;
  _audio_stream_task : option Task;
  _mic_task : option Task;
  active : bool
}.

(** [__init__], with the value of [os.getenv('VOCAL_BRIDGE_KEY')]. *)
Definition init (key : option str) : t :=
  {| api_url := lit "https://vocalbridgeai.com/api/v1/token";
     api_key := key;
     room := None;
     source := None;
     track := None;
     on_message_callback := None;
     _audio_stream_task := None;
     _mic_task := None;
     active := false |}.

Definition set_on_message (callback : Callback) : M t unit :=
  modify (fun self =>
    {| api_url := api_url self; api_key := api_key self;
       room := room self; source := source self; track := track self;
       on_message_callback := Some callback;
       _audio_stream_task := _audio_stream_task self;
       _mic_task := _mic_task self; active := active self |}).

Definition set_room (r : option Room) (self : t) : t :=
  {| api_url := api_url self; api_key := api_key self;
     room := r; source := source self; track := track self;
     on_message_callback := on_message_callback self;
     _audio_stream_task := _audio_stream_task self;
     _mic_task := _mic_task self; active := active self |}.

Definition set_active (b : bool) (self : t) : t :=
  {| api_url := api_url self; api_key := api_key self;
     room := room self; source := source self; track := track self;
     on_message_callback := on_message_callback self;
     _audio_stream_task := _audio_stream_task self;
     _mic_task := _mic_task self; active := b |}.

(** [self.room = None; self.source = None; self.track = None] *)
Definition release (self : t) : t :=
  {| api_url := api_url self; api_key := api_key self;
     room := None; source := None; track := None;
     on_message_callback := on_message_callback self;
     _audio_stream_task := _audio_stream_task self;
     _mic_task := _mic_task self; active := active self |}.

(** Truth value of [self.api_key]: [None] and [""] are falsy. *)
Definition key_present (self : t) : option str :=
  match api_key self with
  | Some (c :: k) => Some (c :: k)
  | _ => None
  end.

(** Fetches a LiveKit token from VocalBridge API. *)
Definition get_token {S} (w : World.t) (self : t) : M S (option json) :=
  match key_present self with
  | None =>
      emit (Log ERROR (lit "VOCAL_BRIDGE_KEY is missing.")) ;;
      ret None
  | Some key =>
      try_except
        (j <- call (HttpPost (api_url self) key (lit "TheSavant"))
                   (World.token_service w) ;;
         ret (Some j))
        (fun e =>
           emit (Log ERROR (lit "Failed to get token: " ++ e)) ;;
           ret None)
  end.

Definition _process_text_message {S} (self : t) (text : value)
    (source : option str) : M S unit :=
  match text with
  | VStr s =>
      if truthy s && truthy (strip s)
      then match on_message_callback self with
           | Some _ => emit (CreateTask s)
           | None => ret tt
           end
      else ret tt
  | VOther false _ _ => ret tt
  | VOther true _ type_name =>
      raise (Exception
               (lit "'" ++ type_name ++ lit "' object has no attribute 'strip'"))
  end.

(** [data.data.decode('utf-8')] *)
Definition decode {S} (payload : bytes) : M S str :=
  match decode_utf8 payload with
  | Some s => ret s
  | None => raise (Exception (decode_error payload))
  end.

Definition lk_transcription : str := lit "lk.transcription".

Definition topic_is (tp : option str) (name : str) : bool :=
  match tp with
  | Some s => str_eqb s name
  | None => false
  end.

(** Has incoming data packets.  The inner block yields [true] when
    it reached its [return]. *)
Definition _on_data_received {S} (w : World.t) (self : t)
    (pkt : DataPacket) : M S unit :=
  try_except
    (returned <-
       (if topic_is (topic pkt) lk_transcription then
          try_bare
            (text <- decode (data pkt) ;;
             text' <-
               (if startswith text (lit "{") && contains (lit "text") text
                then
                  obj <- lift_reply (World.json_loads w text) ;;
                  json_get obj (lit "text") (VStr text)
                else ret (VStr text)) ;;
             _process_text_message self text'
               (Some (lit "transcription_packet")) ;;
             ret true)
            (ret false)
        else ret false) ;;
     if (returned : bool) then ret tt
     else
       text <- decode (data pkt) ;;
       _process_text_message self (VStr text) (topic pkt))
    (fun e => emit (Log WARNING (lit "Failed to decode msg: " ++ e))).

(** [[seg.text for seg in transcription if hasattr(seg, 'text')]]
    followed by [" ".join(...)], which raises [TypeError] on an
    item that is not a [str]. *)
Fixpoint segment_texts (segs : list Segment) : option (list str) :=
  match segs with
  | [] => Some []
  | seg :: rest =>
      match text seg with
      | None => segment_texts rest
      | Some (VStr s) => option_map (cons s) (segment_texts rest)
      | Some (VOther _ _ _) => None
      end
  end.

(** The message of that [TypeError]: the position of the offending
    item in the list of texts, counted from [i], and its type. *)
Fixpoint join_error (i : nat) (segs : list Segment) : str :=
  match segs with
  | [] => []
  | seg :: rest =>
      match text seg with
      | None => join_error i rest
      | Some (VStr _) => join_error (S i) rest
      | Some (VOther _ _ type_name) =>
          lit "sequence item " ++ decimal_of i
            ++ lit ": expected str instance, " ++ type_name ++ lit " found"
      end
  end.

Definition agent_marker : str := lit "agent-".

(** Handles legacy transcription events. *)
Definition _on_transcription_received {S} (self : t)
    (transcription : Transcription) (participant : option Participant)
  : M S unit :=
  try_except
    (let from_agent :=
       match participant with
       | Some p => contains agent_marker (identity p)
       | None => false
       end in
     if from_agent then ret tt
     else
       full_text <-
         match transcription with
         | Segments segs =>
             match segment_texts segs with
             | Some texts => ret (join (lit " ") texts)
             | None => raise (Exception (join_error 0 segs))
             end
         | NotAList shown => ret shown
         end ;;
       if truthy (strip full_text)
       then match on_message_callback self with
            | Some _ => emit (CreateTask full_text)
            | None => ret tt
            end
       else ret tt)
    (fun e =>
       emit (Log WARNING (lit "Failed to process transcription: " ++ e))).

(** Gracefully disconnects and cleans up resources. *)
Definition close (w : World.t) : M t unit :=
  self <- get ;;
  match _mic_task self with
  | Some _ => emit CancelTask
  | None => ret tt
  end ;;
  match _audio_stream_task self with
  | Some _ => emit CancelTask
  | None => ret tt
  end ;;
  match room self with
  | Some _ => call RoomDisconnect (World.room_disconnect w)
  | None => ret tt
  end ;;
  modify release.

(** [rtc.Room()] before and after a successful [connect]. *)
Definition fresh_room : Room :=
  {| connection_state := CONN_DISCONNECTED; local_participant := None |}.
Definition connected_room : Room :=
  {| connection_state := CONN_CONNECTED;
     local_participant := Some TheLocalParticipant |}.
Definition dropped_room : Room :=
  {| connection_state := CONN_DISCONNECTED;
     local_participant := Some TheLocalParticipant |}.

(** [self.active and self.room and
     self.room.connection_state == CONN_CONNECTED] *)
Definition keep_going (self : t) : bool :=
  active self &&
  match room self with
  | Some {| connection_state := CONN_CONNECTED |} => true
  | _ => false
  end.

(** The keep-alive loop of a session that comes to an end: [quiet]
    sleeps during which nothing happens, then one during which the
    session ends; after that the loop condition is false (or the
    sleep raised).  The loop of the source has no bound of its own: a
    session that nobody ends sleeps for ever and has no outcome, so
    it is not among the worlds. *)
Fixpoint keep_alive (w : World.t) (quiet : nat) : M t unit :=
  self <- get ;;
  if keep_going self then
    emit Sleep ;;
    match quiet with
    | S n => keep_alive w n
    | O =>
        match World.keepalive_exit w with
        | World.ConnectionLost => modify (set_room (Some dropped_room))
        | World.Deactivated => modify (set_active false)
        | World.TaskCancelled => raise CancelledError
        end
    end
  else ret tt.

(** Connects and maintains call (Passive/Data Mode). *)
Definition connect_and_stream (w : World.t) : M t unit :=
  try_finally
    (try_except
       (try_cancelled
          (self <- get ;;
           token_data <- get_token w self ;;
           match token_data with
           | None => ret tt
           | Some j =>
               if negb (json_truthy j) then ret tt
               else
                 json_get j (lit "room_name")
                   (VOther false (lit "None") (lit "NoneType")) ;;
                 modify (set_room (Some fresh_room)) ;;
                 url <- json_getitem j (lit "livekit_url") ;;
                 token <- json_getitem j (lit "token") ;;
                 call (RoomConnect url token)
                      (World.room_connect w url token) ;;
                 modify (set_room (Some connected_room)) ;;
                 modify (set_active true) ;;
                 keep_alive w (World.keepalive_quiet w)
           end))
       (fun e => emit (Log ERROR (lit "Connection Error: " ++ e))))
    (close w).

Definition reconnect : M t unit := ret tt.

Definition send_audio (p : bytes) : M t unit := ret tt.

(** Publishes text context to the room as a data packet. *)
Definition publish_context (w : World.t) (text_context : str)
  : M t unit :=
  self <- get ;;
  match room self with
  | Some {| local_participant := Some _ |} =>
      try_except
        (match encode_error text_context with
         | Some what => raise (Exception what)
         | None =>
             call (PublishData text_context)
                  (World.publish_data w text_context)
         end)
        (fun e => emit (Log ERROR (lit "Failed to publish data: " ++ e)))
  | _ =>
      emit (Log WARNING (lit "Room not connected. Cannot publish context."))
  end.

End Client.

Arguments api_url {Callback} _.
Arguments api_key {Callback} _.
Arguments room {Callback} _.
Arguments source {Callback} _.
Arguments track {Callback} _.
Arguments on_message_callback {Callback} _.
Arguments _audio_stream_task {Callback} _.
Arguments _mic_task {Callback} _.
Arguments active {Callback} _.
Arguments init {Callback} key.
Arguments set_on_message {Callback} callback.
Arguments set_room {Callback} r self.
Arguments set_active {Callback} b self.
Arguments release {Callback} self.
Arguments key_present {Callback} self.
Arguments get_token {Callback S} w self.
Arguments _process_text_message {Callback S} self text source.
Arguments _on_data_received {Callback S} w self pkt.
Arguments _on_transcription_received {Callback S}
  self transcription participant.
Arguments close {Callback} w.
Arguments keep_going {Callback} self.
Arguments keep_alive {Callback} w quiet.
Arguments connect_and_stream {Callback} w.
Arguments reconnect {Callback}.
Arguments send_audio {Callback} p.
Arguments publish_context {Callback} w text_context.

(** *** Running the callback, and the loop that feeds it

    The room hands each inbound event to its handler; the handler
    may schedule [_safe_callback_run] as a task, and the asyncio
    loop runs that task before the next event is looked at.  [S] is
    the state the callback works on (the bridge is part of it), and
    [invoke] is what awaiting the callback does. *)
Section Loop.

Variables (Callback S : Type).
Variable invoke : Callback -> str -> M S unit.
Variable bridge : S -> t Callback.

Definition _safe_callback_run (text : str) : M S unit :=
  try_except
    (self <- get ;;
     match on_message_callback (bridge self) with
     | Some cb => invoke cb text
     | None =>
         raise (Exception (lit "'NoneType' object is not callable"))
     end)
    (fun e =>
       emit (Log ERROR (lit "Callback Execution Failed: " ++ e))).

Inductive event :=
| DataReceived (pkt : DataPacket)
| TranscriptionReceived (transcription : Transcription)
    (participant : option Participant).

(** The handlers registered in [connect_and_stream]. *)
Definition dispatch (w : World.t) (ev : event) : M S unit :=
  self <- get ;;
  match ev with
  | DataReceived pkt => _on_data_received w (bridge self) pkt
  | TranscriptionReceived tr p =>
      _on_transcription_received (bridge self) tr p
  end.

(** The texts of the tasks created by a handler. *)
Fixpoint created_tasks (tr : list effect) : list str :=
  match tr with
  | [] => []
  | CreateTask text :: rest => text :: created_tasks rest
  | _ :: rest => created_tasks rest
  end.

Fixpoint run_tasks (texts : list str) : M S unit :=
  match texts with
  | [] => ret tt
  | text :: rest => _safe_callback_run text ;; run_tasks rest
  end.

(** One event: its handler, then the tasks the handler created. *)
Definition deliver (w : World.t) (ev : event) : M S unit :=
  made <- listen (dispatch w ev) ;;
  run_tasks (created_tasks (snd made)).

(** Inbound consumption: an exception that escapes a handler or a
    task ends it. *)
Fixpoint consume (w : World.t) (events : list event) : M S unit :=
  match events with
  | [] => ret tt
  | ev :: rest => deliver w ev ;; consume w rest
  end.

End Loop.

Arguments _safe_callback_run {Callback S} invoke bridge text.
Arguments dispatch {Callback S} bridge w ev.
Arguments run_tasks {Callback S} invoke bridge texts.
Arguments deliver {Callback S} invoke bridge w ev.
Arguments consume {Callback S} invoke bridge w events.

End VoiceBridgeClient.

(* ===================================================================== *)
(** ** rag_preparation/data_pipeline.py *)
(* ===================================================================== *)

Module DataPipeline.
Import Py.

(** One node of a protocol tree; a key the dict does not have is
    [None]. *)
Record Step := {
  voice : str;
  visual_mode : option bool;
  options : option (list (str * str));
  next : option str
}.

Record Protocol := {
  id : str;
  name : str;
  keywords : list str;
  tree : list (str * Step)
}.

Definition step_1 : Step :=
  {| voice := lit "Is blood spurting from the wound?";
     visual_mode := None;
     options := Some [ (lit "yes", lit "step_tourniquet");
                       (lit "no", lit "step_pressure") ];
     next := None |}.

Definition step_tourniquet : Step :=
  {| voice := lit "Place tourniquet 2 to 3 inches above the wound. Tighten until bleeding stops.";
     visual_mode := Some true;
     options := None;
     next := Some (lit "step_check_time") |}.

Definition step_check_time : Step :=
  {| voice := lit "Note the application time on the tourniquet.";
     visual_mode := Some false;
     options := None;
     next := None |}.

Definition step_pressure : Step :=
  {| voice := lit "Apply direct, steady pressure to the bleeding site.";
     visual_mode := Some true;
     options := None;
     next := None |}.

Definition hemorrhage : Protocol :=
  {| id := lit "hemorrhage";
     name := lit "Hemorrhage Control";
     keywords := [ lit "bleeding"; lit "blood"; lit "leg";
                   lit "hemorrhage"; lit "arterial" ];
     tree := [ (lit "step_1", step_1);
               (lit "step_tourniquet", step_tourniquet);
               (lit "step_check_time", step_check_time);
               (lit "step_pressure", step_pressure) ] |}.

(** Fallback data if LLM fails or no key: the value under
    ["protocols"]. *)
Definition get_placeholder_data : list Protocol := [ hemorrhage ].

Fixpoint find_step (tr : list (str * Step)) (k : str) : option Step :=
  match tr with
  | [] => None
  | (k', st) :: rest => if str_eqb k' k then Some st else find_step rest k
  end.

End DataPipeline.

(* ===================================================================== *)
(** ** backend/conversation_manager.py *)
(* ===================================================================== *)

Module ConversationManager.
Import Py Eff.

Inductive Role := user | assistant.

Record Turn := { role : Role; content : str }.

(** The callback wired into the bridge by [__init__]: the bound
    method [self.process_input]. *)
Inductive Callback := bound_process_input.

Record t := {
  db : option DatabaseManager.t;
  vision : option VisionProcessor.t;
  voice_bridge : VoiceBridgeClient.t Callback;
  audio : BackendAudioBridge.t;
  active_protocol : option DataPipeline.Protocol;
  current_step_id : option str;
  conversation_active : bool;
  history : list Turn
}.

Definition set_history (h : list Turn) (self : t) : t :=
  {| db := db self; vision := vision self;
     voice_bridge := voice_bridge self; audio := audio self;
     active_protocol := active_protocol self;
     current_step_id := current_step_id self;
     conversation_active := conversation_active self;
     history := h |}.

Definition set_voice_bridge (b : VoiceBridgeClient.t Callback) (self : t)
  : t :=
  {| db := db self; vision := vision self;
     voice_bridge := b; audio := audio self;
     active_protocol := active_protocol self;
     current_step_id := current_step_id self;
     conversation_active := conversation_active self;
     history := history self |}.

Definition set_db (d : option DatabaseManager.t) (self : t) : t :=
  {| db := d; vision := vision self;
     voice_bridge := voice_bridge self; audio := audio self;
     active_protocol := active_protocol self;
     current_step_id := current_step_id self;
     conversation_active := conversation_active self;
     history := history self |}.

(** [self.history.append({"role": r, "content": c})] *)
Definition append_history (r : Role) (c : str) : M t unit :=
  modify (fun self =>
    set_history (history self ++ [ {| role := r; content := c |} ]) self).

(** [__init__], given the collaborators it constructs. *)
Definition init (database : DatabaseManager.t)
    (processor : VisionProcessor.t) (key : option str)
    (bridge_audio : BackendAudioBridge.t) : t :=
  {| db := Some database;
     vision := Some processor;
     voice_bridge :=
       Eff.after (VoiceBridgeClient.set_on_message bound_process_input
                    (VoiceBridgeClient.init key));
     audio := bridge_audio;
     active_protocol := None;
     current_step_id := None;
     conversation_active := false;
     history := [] |}.

(** Run a method of [self.voice_bridge]. *)
Definition on_bridge {A} (m : M (VoiceBridgeClient.t Callback) A)
  : M t A :=
  zoom voice_bridge set_voice_bridge m.

(** Run a method of [self.db], known to be set. *)
Definition on_db {A} (database : DatabaseManager.t)
    (m : M DatabaseManager.t A) : M t A :=
  zoom (fun _ => database) (fun d => set_db (Some d)) m.

(** Helper to stream audio and return text. *)
Definition _speak_and_return (w : World.t) (text : str) : M t str :=
  append_history assistant text ;;
  self <- get ;;
  match VoiceBridgeClient.source (voice_bridge self) with
  | Some _ =>
      pcm <- BackendAudioBridge.generate_pcm w (audio self) text ;;
      match pcm with
      | Some (b :: frames) =>
          on_bridge (VoiceBridgeClient.send_audio (b :: frames))
      | _ => ret tt
      end
  | None => ret tt
  end ;;
  ret text.

Definition set_conversation (self : t) : t :=
  {| db := db self; vision := vision self;
     voice_bridge := voice_bridge self; audio := audio self;
     active_protocol := None;
     current_step_id := None;
     conversation_active := true;
     history := history self |}.

(** Initializes the conversation state. *)
Definition start_conversation (w : World.t) : M t str :=
  modify set_conversation ;;
  _speak_and_return w
    (lit "Savant System Online. Monitoring vitals. Describe the emergency.").

(** Truth value of an optional string or bytes argument. *)
Definition given (x : option (list N)) : list N :=
  match x with
  | Some s => s
  | None => []
  end.

(** The camera emoji U+1F4F8 and the rest of the placeholder turn. *)
Definition image_turn : str := 0x1F4F8%N :: lit " [Image Analysis]".

Definition visual_info (injury severity : value) : str :=
  lit "[Visual Info: Found " ++ format injury ++ lit ", Severity: "
    ++ format severity ++ lit "]".

(** Step 1 of [process_input]: analyse the image if provided, log
    the finding, and return [visual_context]. *)
Definition analyze_and_log (w : World.t) (image_bytes : option bytes)
  : M t str :=
  self <- get ;;
  match given image_bytes, vision self with
  | b :: image, Some processor =>
      analysis <- VisionProcessor.analyze_injury w processor (b :: image) ;;
      injury <- json_get analysis (lit "injury") (VStr (lit "Unknown")) ;;
      severity <- json_get analysis (lit "severity") (VStr (lit "Unknown")) ;;
      match db self with
      | Some database =>
          on_db database
            (DatabaseManager.log_patient_state w
               (VStr (lit "--")) injury
               (VStr (lit "Visual Analysis: " ++ format severity)))
      | None => ret tt
      end ;;
      ret (visual_info injury severity)
  | _, _ => ret []
  end.

(** Step 2 of [process_input]: combine inputs. *)
Definition combine (user_text : option str) (visual_context : str) : str :=
  given user_text ++
  (if truthy visual_context then lit " " ++ visual_context else []).

Definition echo (final_input : str) : str :=
  lit "I heard you say: " ++ final_input.

(** What [process_input] does once [final_input] is known. *)
Definition respond (w : World.t) (final_input : str) : M t str :=
  if negb (truthy final_input) then
    _speak_and_return w (lit "Awaiting input.")
  else
    self <- get ;;
    match VoiceBridgeClient.room (voice_bridge self) with
    | Some _ =>
        on_bridge (VoiceBridgeClient.publish_context w final_input)
    | None =>
        emit (Log WARNING
          (lit "Voice Bridge not connected. Context not sent to remote agent."))
    end ;;
    _speak_and_return w (echo final_input).

(** The head of [process_input]: append to history. *)
Definition record_user_turn (user_text : option str)
    (image_bytes : option bytes) : M t unit :=
  if truthy (given user_text)
  then append_history user (given user_text)
  else if truthy (given image_bytes)
       then append_history user image_turn
       else ret tt.

(** Main logic loop. *)
Definition process_input (w : World.t) (user_text : option str)
    (image_bytes : option bytes) : M t str :=
  record_user_turn user_text image_bytes ;;
  visual_context <- analyze_and_log w image_bytes ;;
  respond w (combine user_text visual_context).

(** Awaiting the registered callback with a message text. *)
Definition invoke (w : World.t) (cb : Callback) (text : str) : M t unit :=
  match cb with
  | bound_process_input => process_input w (Some text) None ;; ret tt
  end.

End ConversationManager.

(* ===================================================================== *)
(** ** Reading a trace *)
(* ===================================================================== *)

Module Trace.
Import Py Eff.

Definition is_connect (e : effect) : bool :=
  match e with RoomConnect _ _ => true | _ => false end.

Definition is_post (e : effect) : bool :=
  match e with HttpPost _ _ _ => true | _ => false end.

Definition is_task (e : effect) : bool :=
  match e with CreateTask _ => true | _ => false end.

Definition count (p : effect -> bool) (tr : list effect) : nat :=
  List.length (List.filter p tr).

(** The records handed to the log store. *)
Fixpoint inserted (tr : list effect) : list entry :=
  match tr with
  | [] => []
  | DbInsert e :: rest => e :: inserted rest
  | _ :: rest => inserted rest
  end.

(** The error- and warning-level log lines. *)
Fixpoint logged (lv : level) (tr : list effect) : list str :=
  match tr with
  | [] => []
  | Log WARNING msg :: rest =>
      match lv with
      | WARNING => msg :: logged lv rest
      | ERROR => logged lv rest
      end
  | Log ERROR msg :: rest =>
      match lv with
      | ERROR => msg :: logged lv rest
      | WARNING => logged lv rest
      end
  | _ :: rest => logged lv rest
  end.

End Trace.

(* ===================================================================== *)
(** ** Worlds and objects used as examples *)
(* ===================================================================== *)

Module CM := ConversationManager.
Module VB := VoiceBridgeClient.

Module Fixtures.
Import Py Eff.

(** A world in which nothing outside the process answers. *)
Definition offline : World.t :=
  {| World.token_service := Fails (lit "connection refused");
     World.room_connect := fun _ _ => Fails (lit "connection refused");
     World.keepalive_quiet := 0;
     World.keepalive_exit := World.ConnectionLost;
     World.room_disconnect := Ok tt;
     World.publish_data := fun _ => Fails (lit "not connected");
     World.json_loads := fun _ => Fails (lit "Expecting value");
     World.chat_completion := fun _ => Fails (lit "Connection error.");
     World.tts_synthesize := fun _ => Fails (lit "no audio device");
     World.tinydb_insert := fun _ => Ok tt;
     World.now_isoformat := lit "2026-01-01T00:00:00" |}.

Definition credentials : dict :=
  [ (lit "livekit_url", VStr (lit "wss://savant.livekit.cloud"));
    (lit "token", VStr (lit "eyJhbGciOi"));
    (lit "room_name", VStr (lit "savant-room")) ].

(** A world in which the session comes up and the network drops
    after two seconds. *)
Definition dropping : World.t :=
  {| World.token_service := Ok (JObject credentials);
     World.room_connect := fun _ _ => Ok tt;
     World.keepalive_quiet := 2;
     World.keepalive_exit := World.ConnectionLost;
     World.room_disconnect := Ok tt;
     World.publish_data := fun _ => Ok tt;
     World.json_loads := fun _ => Fails (lit "Expecting value");
     World.chat_completion := fun _ => Fails (lit "Connection error.");
     World.tts_synthesize := fun _ => Ok World.NoFile;
     World.tinydb_insert := fun _ => Ok tt;
     World.now_isoformat := lit "2026-01-01T00:00:00" |}.

(** A JSON string literal: the text between double quotes. *)
Definition quoted (s : str) : str := 34%N :: s ++ [34%N].

(** The model's reply, a JSON object with the two fields. *)
Definition laceration_reply : str :=
  lit "{" ++ quoted (lit "injury") ++ lit ": "
    ++ quoted (lit "Laceration") ++ lit ", "
    ++ quoted (lit "severity") ++ lit ": "
    ++ quoted (lit "CRITICAL") ++ lit "}".

Definition laceration : dict :=
  [ (lit "injury", VStr (lit "Laceration"));
    (lit "severity", VStr (lit "CRITICAL")) ].

(** A world in which the vision model sees a critical laceration;
    [json.loads] is given on the one text it is asked about. *)
Definition seeing : World.t :=
  {| World.token_service := Fails (lit "connection refused");
     World.room_connect := fun _ _ => Fails (lit "connection refused");
     World.keepalive_quiet := 0;
     World.keepalive_exit := World.ConnectionLost;
     World.room_disconnect := Ok tt;
     World.publish_data := fun _ => Ok tt;
     World.json_loads :=
       fun text =>
         if str_eqb text laceration_reply
         then Ok (JObject laceration)
         else Fails (lit "Expecting value");
     World.chat_completion := fun _ => Ok laceration_reply;
     World.tts_synthesize := fun _ => Ok World.NoFile;
     World.tinydb_insert := fun _ => Ok tt;
     World.now_isoformat := lit "2026-01-01T00:00:00" |}.

Definition processor : VisionProcessor.t :=
  {| VisionProcessor.api_key := None;
     VisionProcessor.base_url := lit "https://integrate.api.nvidia.com/v1";
     VisionProcessor.model := lit "meta/llama-3.2-90b-vision-instruct" |}.

(** The manager right after [__init__], no API key, no TTS engine. *)
Definition fresh_manager : CM.t :=
  CM.init {| DatabaseManager.patient_db := [] |} processor None
    {| BackendAudioBridge.engine := None |}.

(** A manager whose bridge holds a connected room and an audio
    source, and whose TTS engine came up. *)
Definition live_manager : CM.t :=
  {| CM.db := Some {| DatabaseManager.patient_db := [] |};
     CM.vision := Some processor;
     CM.voice_bridge :=
       {| VB.api_url := lit "https://vocalbridgeai.com/api/v1/token";
          VB.api_key := Some (lit "vb_test_key");
          VB.room := Some VB.connected_room;
          VB.source := Some VB.TheAudioSource;
          VB.track := Some VB.TheTrack;
          VB.on_message_callback := Some CM.bound_process_input;
          VB._audio_stream_task := Some VB.TheTask;
          VB._mic_task := None;
          VB.active := true |};
     CM.audio := {| BackendAudioBridge.engine :=
                      Some BackendAudioBridge.Pyttsx3 |};
     CM.active_protocol := None;
     CM.current_step_id := None;
     CM.conversation_active := true;
     CM.history := [] |}.

(** A manager in the middle of protocol [p]. *)
Definition at_step (p : DataPipeline.Protocol) (step : str) (s : CM.t)
  : CM.t :=
  {| CM.db := CM.db s; CM.vision := CM.vision s;
     CM.voice_bridge := CM.voice_bridge s; CM.audio := CM.audio s;
     CM.active_protocol := Some p;
     CM.current_step_id := Some step;
     CM.conversation_active := true;
     CM.history := CM.history s |}.

Definition hemorrhage_at_step_1 : CM.t :=
  at_step DataPipeline.hemorrhage (lit "step_1") fresh_manager.

(** The first bytes of a JPEG file. *)
Definition jpeg : bytes := [0xFF; 0xD8]%N.

Definition keyed_bridge : VB.t unit := VB.init (Some (lit "vb_test_key")).

Definition wired_bridge : VB.t unit :=
  after (VB.set_on_message tt (VB.init None)).

(** A callback that always fails. *)
Definition failing_callback : unit -> str -> M (VB.t unit) unit :=
  fun _ _ => raise (Exception (lit "handler crashed")).

Definition hello_packet : VB.DataPacket :=
  {| VB.data := lit "hello"; VB.topic := Some (lit "chat");
     VB.participant := None |}.

Definition blank_packet : VB.DataPacket :=
  {| VB.data := lit "  "; VB.topic := Some VB.lk_transcription;
     VB.participant := None |}.

Definition help_segments : list VB.Segment :=
  [ {| VB.text := Some (VStr (lit "send")) |};
    {| VB.text := Some (VStr (lit "help")) |} ].

(** A transcription packet sent by the agent itself. *)
Definition agent_packet : VB.DataPacket :=
  {| VB.data := lit "Apply pressure";
     VB.topic := Some VB.lk_transcription;
     VB.participant := Some {| VB.identity := lit "agent-savant" |} |}.

End Fixtures.

(* ===================================================================== *)
(** ** Notions used in the statements *)
(* ===================================================================== *)

Module Notions.
Import Py Eff.

(** "yes" in any letter case. *)
Definition is_yes (reply : str) : bool :=
  match reply with
  | [y; e; s] =>
      (((y =? 121) || (y =? 89)) && ((e =? 101) || (e =? 69))
       && ((s =? 115) || (s =? 83)))%N
  | _ => false
  end.

(** The manager after one more turn in its history. *)
Definition said (r : CM.Role) (c : str) (s : CM.t) : CM.t :=
  CM.set_history
    (CM.history s ++ [ {| CM.role := r; CM.content := c |} ]) s.

(** The vision call fails: the request raises, or the reply is not
    JSON. *)
Definition vision_call_fails (w : World.t) (img : bytes) : bool :=
  match World.chat_completion w img with
  | Fails _ => true
  | Ok content =>
      match World.json_loads w (VisionProcessor.clean content) with
      | Fails _ => true
      | Ok _ => false
      end
  end.

(** What [analyze_injury] returns, as a function of the
    collaborators' answers. *)
Definition analysis (w : World.t) (img : bytes) : json :=
  match World.chat_completion w img with
  | Ok content =>
      match World.json_loads w (VisionProcessor.clean content) with
      | Ok j => j
      | Fails _ => JObject VisionProcessor.fallback
      end
  | Fails _ => JObject VisionProcessor.fallback
  end.

(** The [text] attributes of the segments that have one, in the
    order of the segments. *)
Definition text_fields (segs : list VB.Segment) : list value :=
  flat_map (fun seg => match VB.text seg with
                       | Some v => [ v ]
                       | None => []
                       end) segs.

(** Modelled from the spec: texts "concatenated in order with
    single-space separators into one string", that is the first text,
    then every further text with one space before it. *)
Definition spaced (texts : list str) : str :=
  match texts with
  | [] => []
  | first :: more => first ++ List.concat (List.map (cons 32%N) more)
  end.

(** The record [process_input] builds for a finding. *)
Definition finding_entry (w : World.t) (injury severity : value) : entry :=
  {| timestamp := World.now_isoformat w;
     heart_rate := VStr (lit "--");
     injury_detected := injury;
     actions_taken := VStr (lit "Visual Analysis: " ++ format severity) |}.

End Notions.

(* ===================================================================== *)
(** ** rag_preparation/data_pipeline.py: the extraction pipeline *)
(* ===================================================================== *)

Module ProtocolPipeline.
Import Py Eff.

Definition PROTOCOL_URLS : list (str * str) :=
  [ (lit "TCCC_2024",
     lit "https://learning-media.allogy.com/api/v1/pdf/f4cf1d4e-3191-443a-befc-415838fb04f2/contents");
    (lit "AHA_CPR_2025",
     lit "https://cpr.heart.org/-/media/CPR-Files/2025-documents-for-cpr-heart-edits-posting/Resuscitation-Science/252500_Hghlghts_2025ECCGuidelines.pdf?sc_lang=en");
    (lit "WMS_ALTITUDE",
     lit "http://www.wildmedcenter.com/uploads/5/9/8/2/5982510/wms_altitude.pdf") ].

Definition CHUNK_SIZE : nat := N.to_nat 15000.
Definition overlap : nat := N.to_nat 500.

(** [range(0, stop, step)] for a positive [step] (with [step = 0]
    Python raises; the step of the source is 14500). *)
Definition range_step (stop step : nat) : list nat :=
  List.map (fun k => k * step) (seq 0 ((stop + step - 1) / step)).

(** [text[i:j]] for [i <= j] *)
Definition slice (text : str) (i j : nat) : str :=
  firstn (j - i) (skipn i text).

(** [[raw_text[i:i+size] for i in range(0, len(raw_text), size - over)]] *)
Definition split_chunks (size over : nat) (raw_text : str) : list str :=
  List.map (fun i => slice raw_text i (i + size))
    (range_step (List.length raw_text) (size - over)).

(** [s.split(sep)] for a non-empty [sep].  [skip] counts the characters
    of a separator just found that are still to be dropped, [cur] is
    the piece being read. *)
Fixpoint split_from (skip : nat) (sep s cur : str) : list str :=
  match s with
  | [] => [cur]
  | c :: s' =>
      match skip with
      | S k => split_from k sep s' cur
      | O =>
          if startswith s sep
          then cur :: split_from (List.length sep - 1) sep s' []
          else split_from 0 sep s' (cur ++ [c])
      end
  end.

Definition split (s sep : str) : list str := split_from 0 sep s [].

(** [parts[n]]; the source indexes only where the item exists. *)
Definition item (parts : list str) (n : nat) : str := nth n parts [].

Definition fence_json : str := lit "```json".
Definition fence : str := lit "```".

(** Clean up markdown code blocks if present. *)
Definition unfence (content : str) : str :=
  if contains fence_json content
  then strip (item (split (item (split content fence_json) 1) fence) 0)
  else if contains fence content
       then strip (item (split (item (split content fence) 1) fence) 0)
       else content.

(** [f"{n}"] for a natural number. *)
Definition decimal (n : nat) : str :=
  lit (DecimalString.NilZero.string_of_uint (Nat.to_uint n)).

Section Pipeline.

(** A protocol object as the model returned it, and the keys such
    objects are filed under. *)
Variables (Key Proto : Type).

(** [==] on keys, as the dict decides it. *)
Variable key_eqb : Key -> Key -> bool.

(** What ["id" in p] and [p["id"]] give for an item of the list. *)
Inductive id_of :=
| NoId                 (* "id" in p is false *)
| HasId (k : Key)      (* p["id"] is the hashable value k *)
| BadItem.             (* the test, the subscript or the hashing raises *)

Variable ident : Proto -> id_of.

(** [unique_protocols[k] = p] on a dict that keeps insertion order: a
    key already there keeps its place. *)
Fixpoint dict_set (d : list (Key * Proto)) (k : Key) (p : Proto)
  : list (Key * Proto) :=
  match d with
  | [] => [ (k, p) ]
  | (k', p') :: rest =>
      if key_eqb k' k then (k', p) :: rest
      else (k', p') :: dict_set rest k p
  end.

(** The loop [for p in all_protocols: if "id" in p: ...]; [None] when
    an item makes it raise. *)
Fixpoint collect (d : list (Key * Proto)) (ps : list Proto)
  : option (list (Key * Proto)) :=
  match ps with
  | [] => Some d
  | p :: rest =>
      match ident p with
      | NoId => collect d rest
      | HasId k => collect (dict_set d k p) rest
      | BadItem => None
      end
  end.

(** Deduplicate protocols by ID: [list(unique_protocols.values())]. *)
Definition deduplicate (ps : list Proto) : option (list Proto) :=
  option_map (List.map snd) (collect [] ps).

(** What the pipeline returns and writes: the placeholder data, or
    [{"protocols": [...]}] with what the model gave. *)
Inductive Document :=
| Placeholder (ps : list DataPipeline.Protocol)
| Extracted (ps : list Proto).

Inductive event :=
| HttpGet (url : str)              (* requests.get(url, timeout=10) *)
| ReadPdf (stream : bytes)         (* PdfReader(pdf_stream) *)
| ChatCompletion (chunk : str)     (* client.chat.completions.create *)
| Logged (lv : level) (msg : str)  (* logging.warning / logging.error *)
| JsonDump (doc : Document).       (* json.dump(savant_protocols, f) *)

Record Env := {
  (** [os.getenv('NIM_API_KEY')] *)
  nim_api_key : option str;
  (** [requests.get], [raise_for_status()], [response.content] *)
  fetch : str -> reply bytes;
  (** [PdfReader(stream).pages], and for each page what
      [page.extract_text()] gives *)
  read_pages : bytes -> reply (list (reply str));
  (** the completion for a chunk, up to
      [response.choices[0].message.content] *)
  complete : str -> reply str;
  (** [json.loads(content)] and the test on it: [Some ps] when
      ["protocols"] is in the result and is a list, [None] when it is
      not; a failure when either raises *)
  loads_protocols : str -> reply (option (list Proto));
  (** opening the output file and [json.dump] *)
  dump : Document -> reply unit
}.

(** Downloads a PDF from a URL into memory. *)
Definition download_pdf (env : Env) (url : str)
  : option bytes * list event :=
  match fetch env url with
  | Ok content => (Some content, [ HttpGet url ])
  | Fails e =>
      (None,
       [ HttpGet url;
         Logged ERROR (lit "Failed to download " ++ url ++ lit ": " ++ e) ])
  end.

(** The loop [for page in reader.pages: text += page.extract_text() +
    "\n"]. *)
Fixpoint read_all (pages : list (reply str)) (text : str) : reply str :=
  match pages with
  | [] => Ok text
  | Ok t :: rest => read_all rest (text ++ t ++ [10%N])
  | Fails e :: _ => Fails e
  end.

(** Extracts raw text from a PDF stream. *)
Definition extract_text_from_pdf (env : Env) (pdf_stream : option bytes)
  : str * list event :=
  match pdf_stream with
  | None => ([], [])
  | Some stream =>
      match read_pages env stream with
      | Ok pages =>
          match read_all pages [] with
          | Ok text => (text, [ ReadPdf stream ])
          | Fails e =>
              ([], [ ReadPdf stream;
                     Logged ERROR (lit "Failed to extract text: " ++ e) ])
          end
      | Fails e =>
          ([], [ ReadPdf stream;
                 Logged ERROR (lit "Failed to extract text: " ++ e) ])
      end
  end.

Definition extraction_failed (i : nat) (e : str) : event :=
  Logged ERROR
    (lit "LLM Extraction failed for chunk " ++ decimal (i + 1) ++ lit ": "
       ++ e).

(** The body of the loop over chunks, for chunk number [i] (from 0):
    what it adds to [all_protocols]. *)
Definition extract_chunk (env : Env) (i : nat) (chunk : str)
  : list Proto * list event :=
  match complete env chunk with
  | Ok content =>
      match loads_protocols env (unfence content) with
      | Ok (Some ps) => (ps, [ ChatCompletion chunk ])
      | Ok None => ([], [ ChatCompletion chunk ])
      | Fails e => ([], [ ChatCompletion chunk; extraction_failed i e ])
      end
  | Fails e => ([], [ ChatCompletion chunk; extraction_failed i e ])
  end.

Fixpoint extract_chunks (env : Env) (i : nat) (chunks : list str)
  : list Proto * list event :=
  match chunks with
  | [] => ([], [])
  | chunk :: rest =>
      let '(ps, t) := extract_chunk env i chunk in
      let '(qs, u) := extract_chunks env (S i) rest in
      (ps ++ qs, t ++ u)
  end.

(** Truth value of [api_key]. *)
Definition key_given (env : Env) : bool :=
  match nim_api_key env with
  | Some (_ :: _) => true
  | _ => false
  end.

(** Uses an LLM to extract a decision tree from raw text. *)
Definition process_text_into_protocols (env : Env) (raw_text : str)
  : outcome Document * list event :=
  if key_given env then
    let '(all_protocols, t) :=
      extract_chunks env 0 (split_chunks CHUNK_SIZE overlap raw_text) in
    match all_protocols with
    | [] =>
        (Return (Placeholder DataPipeline.get_placeholder_data),
         t ++ [ Logged WARNING
                  (lit "No protocols extracted from any chunk. Using placeholder.") ])
    | _ :: _ =>
        match deduplicate all_protocols with
        | Some unique => (Return (Extracted unique), t)
        | None => (Raise (Exception (lit "TypeError")), t)
        end
    end
  else
    (Return (Placeholder DataPipeline.get_placeholder_data),
     [ Logged WARNING
         (lit "NIM_API_KEY not found. Using generic placeholder data.") ]).

(** Step 1 of [main]: download and extract, one URL after the other. *)
Fixpoint gather (env : Env) (urls : list (str * str)) (all_text : str)
  : str * list event :=
  match urls with
  | [] => (all_text, [])
  | (name, url) :: rest =>
      let '(pdf_stream, t) := download_pdf env url in
      match pdf_stream with
      | Some stream =>
          let '(text, u) := extract_text_from_pdf env (Some stream) in
          let '(final, v) := gather env rest (all_text ++ text) in
          (final, t ++ u ++ v)
      | None =>
          let '(final, v) := gather env rest all_text in
          (final,
           t ++ [ Logged WARNING
                    (lit "Skipping download for " ++ name
                       ++ lit ", proceeding with synthetic generation.") ]
             ++ v)
      end
  end.

Definition main (env : Env) : outcome unit * list event :=
  let '(all_text, t) := gather env PROTOCOL_URLS [] in
  let '(r, u) := process_text_into_protocols env all_text in
  match r with
  | Return savant_protocols =>
      match dump env savant_protocols with
      | Ok _ => (Return tt, t ++ u ++ [ JsonDump savant_protocols ])
      | Fails e =>
          (Raise (Exception e), t ++ u ++ [ JsonDump savant_protocols ])
      end
  | Raise e => (Raise e, t ++ u)
  end.

(** The completions asked for, in order. *)
Fixpoint completions (tr : list event) : list str :=
  match tr with
  | [] => []
  | ChatCompletion chunk :: rest => chunk :: completions rest
  | _ :: rest => completions rest
  end.

(** The URLs requested, in order. *)
Fixpoint requested (tr : list event) : list str :=
  match tr with
  | [] => []
  | HttpGet url :: rest => url :: requested rest
  | _ :: rest => requested rest
  end.

(** The documents written. *)
Fixpoint dumped (tr : list event) : list Document :=
  match tr with
  | [] => []
  | JsonDump doc :: rest => doc :: dumped rest
  | _ :: rest => dumped rest
  end.

End Pipeline.

Arguments NoId {Key}.
Arguments HasId {Key} k.
Arguments BadItem {Key}.
Arguments dict_set {Key Proto} key_eqb d k p.
Arguments collect {Key Proto} key_eqb ident d ps.
Arguments deduplicate {Key Proto} key_eqb ident ps.
Arguments Placeholder {Proto} ps.
Arguments Extracted {Proto} ps.
Arguments HttpGet {Proto} url.
Arguments ReadPdf {Proto} stream.
Arguments ChatCompletion {Proto} chunk.
Arguments Logged {Proto} lv msg.
Arguments JsonDump {Proto} doc.
Arguments nim_api_key {Proto} _.
Arguments fetch {Proto} _ _.
Arguments read_pages {Proto} _ _.
Arguments complete {Proto} _ _.
Arguments loads_protocols {Proto} _ _.
Arguments dump {Proto} _ _.
Arguments download_pdf {Proto} env url.
Arguments extract_text_from_pdf {Proto} env pdf_stream.
Arguments extraction_failed {Proto} i e.
Arguments extract_chunk {Proto} env i chunk.
Arguments extract_chunks {Proto} env i chunks.
Arguments key_given {Proto} env.
Arguments process_text_into_protocols {Key Proto} key_eqb ident env raw_text.
Arguments gather {Proto} env urls all_text.
Arguments main {Key Proto} key_eqb ident env.
Arguments completions {Proto} tr.
Arguments requested {Proto} tr.
Arguments dumped {Proto} tr.

End ProtocolPipeline.

Module PP := ProtocolPipeline.

(* ===================================================================== *)
(** ** More notions used in the statements *)
(* ===================================================================== *)

Module Observations.
Import Py Eff.

Definition is_disconnect (e : effect) : bool :=
  match e with RoomDisconnect => true | _ => false end.

Definition is_sleep (e : effect) : bool :=
  match e with Sleep => true | _ => false end.

Definition is_publish (e : effect) : bool :=
  match e with PublishData _ => true | _ => false end.

Definition is_synth (e : effect) : bool :=
  match e with TtsSynthesize _ => true | _ => false end.

Definition is_vision (e : effect) : bool :=
  match e with VisionRequest _ => true | _ => false end.

(** Speech synthesis and log lines: nothing else. *)
Definition speechy (e : effect) : bool :=
  match e with
  | TtsSynthesize _ | Log _ _ => true
  | _ => false
  end.

(** Token data that has both fields [connect_and_stream] reads. *)
Definition usable (j : json) : bool :=
  match j with
  | JObject d =>
      match lookup d (lit "livekit_url"), lookup d (lit "token") with
      | Some _, Some _ => true
      | _, _ => false
      end
  | JOther _ _ => false
  end.

(** The [try] statement of [connect_and_stream] around its body:
    [except asyncio.CancelledError: pass], [except Exception as e:]
    with its log line, and [finally: await self.close()]. *)
Definition guarded {Callback : Type} (w : World.t)
    (body : M (VB.t Callback) unit) : M (VB.t Callback) unit :=
  try_finally
    (try_except (try_cancelled body)
       (fun e => emit (Log ERROR (lit "Connection Error: " ++ e))))
    (VB.close w).

(** The room is there and has its local participant. *)
Definition ready {Callback : Type} (b : VB.t Callback) : bool :=
  match VB.room b with
  | Some {| VB.local_participant := Some _ |} => true
  | _ => false
  end.

(** A transcription packet that is not read as JSON, or whose JSON
    gives no text to hand on: the parse fails, the result is not an
    object, or its [text] is a truthy value that is not a string. *)
Definition falls_back (w : World.t) (raw : str) : bool :=
  negb (startswith raw (lit "{") && contains (lit "text") raw)
  || match World.json_loads w raw with
     | Fails _ => true
     | Ok (JOther _ _) => true
     | Ok (JObject d) =>
         match lookup d (lit "text") with
         | Some (VOther true _ _) => true
         | _ => false
         end
     end.

(** The user turn [process_input] records. *)
Definition recorded (ut : option str) (img : option bytes) : list CM.Turn :=
  if truthy (CM.given ut)
  then [ {| CM.role := CM.user; CM.content := CM.given ut |} ]
  else if truthy (CM.given img)
       then [ {| CM.role := CM.user; CM.content := CM.image_turn |} ]
       else [].

(** The assistant turn of a turn that came to its end. *)
Definition answered (r : outcome str) : list CM.Turn :=
  match r with
  | Return text => [ {| CM.role := CM.assistant; CM.content := text |} ]
  | Raise _ => []
  end.

(** Two managers that differ in history and patient log only, the log
    of the second holding at most one record more. *)
Definition same_but_log (s s' : CM.t) : Prop :=
  CM.vision s' = CM.vision s
  /\ CM.voice_bridge s' = CM.voice_bridge s
  /\ CM.audio s' = CM.audio s
  /\ CM.active_protocol s' = CM.active_protocol s
  /\ CM.current_step_id s' = CM.current_step_id s
  /\ CM.conversation_active s' = CM.conversation_active s
  /\ match CM.db s, CM.db s' with
     | Some a, Some b =>
         exists more,
           DatabaseManager.patient_db b = DatabaseManager.patient_db a ++ more
           /\ List.length more <= 1
     | None, None => True
     | _, _ => False
     end.

Definition greeting : str :=
  lit "Savant System Online. Monitoring vitals. Describe the emergency.".

(** No backtick in the text. *)
Definition tick_free (s : str) : bool :=
  forallb (fun c => negb (N.eqb 96 c)) s.

Section Filing.

Context {Key Proto : Type}.
Variable key_eqb : Key -> Key -> bool.
Variable ident : Proto -> ProtocolPipeline.id_of Key.

(** [d.get(k)] on the insertion-ordered dict. *)
Fixpoint filed (d : list (Key * Proto)) (k : Key) : option Proto :=
  match d with
  | [] => None
  | (k', p) :: rest => if key_eqb k' k then Some p else filed rest k
  end.

(** The last item of [ps] whose id is [k]. *)
Fixpoint last_with (k : Key) (ps : list Proto) : option Proto :=
  match ps with
  | [] => None
  | p :: rest =>
      match last_with k rest with
      | Some q => Some q
      | None =>
          match ident p with
          | ProtocolPipeline.HasId k' => if key_eqb k' k then Some p else None
          | _ => None
          end
      end
  end.

(** What [collect] keeps true: keys are distinct, and every value is
    filed under its own id. *)
Definition well_filed (d : list (Key * Proto)) : Prop :=
  NoDup (List.map fst d)
  /\ forall k p, In (k, p) d -> ident p = ProtocolPipeline.HasId k.

End Filing.

(** What a chunk adds to [all_protocols]. *)
Definition yield {Proto : Type} (env : ProtocolPipeline.Env Proto)
    (chunk : str) : list Proto :=
  match ProtocolPipeline.complete env chunk with
  | Ok content =>
      match ProtocolPipeline.loads_protocols env
              (ProtocolPipeline.unfence content) with
      | Ok (Some ps) => ps
      | _ => []
      end
  | Fails _ => []
  end.

(** The text [main] gets from a URL: what was extracted from the
    download, nothing when the download failed. *)
Definition text_of {Proto : Type} (env : ProtocolPipeline.Env Proto)
    (url : str) : str :=
  match ProtocolPipeline.fetch env url with
  | Ok content =>
      fst (ProtocolPipeline.extract_text_from_pdf env (Some content))
  | Fails _ => []
  end.

End Observations.

(* ===================================================================== *)
(** ** More worlds and objects used as examples *)
(* ===================================================================== *)

Module Examples.
Import Py Eff Fixtures.

(** The token service answers, the room service does not. *)
Definition unreachable : World.t :=
  {| World.token_service := Ok (JObject credentials);
     World.room_connect := fun _ _ => Fails (lit "timed out");
     World.keepalive_quiet := 0;
     World.keepalive_exit := World.ConnectionLost;
     World.room_disconnect := Ok tt;
     World.publish_data := fun _ => Fails (lit "not connected");
     World.json_loads := fun _ => Fails (lit "Expecting value");
     World.chat_completion := fun _ => Fails (lit "Connection error.");
     World.tts_synthesize := fun _ => Ok World.NoFile;
     World.tinydb_insert := fun _ => Ok tt;
     World.now_isoformat := lit "2026-01-01T00:00:00" |}.

(** The token service answers without a [token] field. *)
Definition half_credentials : json :=
  JObject [ (lit "livekit_url", VStr (lit "wss://savant.livekit.cloud")) ].

Definition half_answering : World.t :=
  {| World.token_service := Ok half_credentials;
     World.room_connect := fun _ _ => Ok tt;
     World.keepalive_quiet := 0;
     World.keepalive_exit := World.ConnectionLost;
     World.room_disconnect := Ok tt;
     World.publish_data := fun _ => Ok tt;
     World.json_loads := fun _ => Fails (lit "Expecting value");
     World.chat_completion := fun _ => Fails (lit "Connection error.");
     World.tts_synthesize := fun _ => Ok World.NoFile;
     World.tinydb_insert := fun _ => Ok tt;
     World.now_isoformat := lit "2026-01-01T00:00:00" |}.

(** The payload of a JSON transcription packet. *)
Definition help_json : str :=
  lit "{" ++ quoted (lit "text") ++ lit ": " ++ quoted (lit "help me")
    ++ lit "}".

(** A world whose [json.loads] is given on that payload, and whose
    vision model answers with a JSON list. *)
Definition transcribing : World.t :=
  {| World.token_service := Fails (lit "connection refused");
     World.room_connect := fun _ _ => Fails (lit "connection refused");
     World.keepalive_quiet := 0;
     World.keepalive_exit := World.ConnectionLost;
     World.room_disconnect := Ok tt;
     World.publish_data := fun _ => Ok tt;
     World.json_loads :=
       fun text =>
         if str_eqb text help_json
         then Ok (JObject [ (lit "text", VStr (lit "help me")) ])
         else if str_eqb text (lit "[1, 2]")
              then Ok (JOther true (lit "list"))
              else Fails (lit "Expecting value");
     World.chat_completion := fun _ => Ok (lit "[1, 2]");
     World.tts_synthesize := fun _ => Ok World.NoFile;
     World.tinydb_insert := fun _ => Ok tt;
     World.now_isoformat := lit "2026-01-01T00:00:00" |}.

Definition help_packet : VB.DataPacket :=
  {| VB.data := help_json; VB.topic := Some VB.lk_transcription;
     VB.participant := None |}.

(** A payload that is not UTF-8. *)
Definition broken_packet : VB.DataPacket :=
  {| VB.data := [0xFF%N; 0xFE%N]; VB.topic := Some (lit "chat");
     VB.participant := None |}.

(** A manager without a vision processor. *)
Definition blind_manager : CM.t :=
  {| CM.db := CM.db fresh_manager;
     CM.vision := None;
     CM.voice_bridge := CM.voice_bridge fresh_manager;
     CM.audio := CM.audio fresh_manager;
     CM.active_protocol := None;
     CM.current_step_id := None;
     CM.conversation_active := false;
     CM.history := [] |}.

(** A second version of the hemorrhage protocol, under the same id. *)
Definition hemorrhage_revised : DataPipeline.Protocol :=
  {| DataPipeline.id := lit "hemorrhage";
     DataPipeline.name := lit "Hemorrhage Control (revised)";
     DataPipeline.keywords := [ lit "bleeding" ];
     DataPipeline.tree := [ (lit "step_1", DataPipeline.step_pressure) ] |}.

Definition cpr : DataPipeline.Protocol :=
  {| DataPipeline.id := lit "cpr";
     DataPipeline.name := lit "CPR";
     DataPipeline.keywords := [ lit "pulse" ];
     DataPipeline.tree := [] |}.

(** Protocols with their ["id"] field. *)
Definition protocol_id (p : DataPipeline.Protocol)
  : ProtocolPipeline.id_of str :=
  ProtocolPipeline.HasId (DataPipeline.id p).

(** A pipeline run with no network and no API key. *)
Definition stranded : ProtocolPipeline.Env DataPipeline.Protocol :=
  {| ProtocolPipeline.nim_api_key := None;
     ProtocolPipeline.fetch := fun _ => Fails (lit "connection refused");
     ProtocolPipeline.read_pages := fun _ => Fails (lit "EOF marker not found");
     ProtocolPipeline.complete := fun _ => Fails (lit "Connection error.");
     ProtocolPipeline.loads_protocols := fun _ => Fails (lit "Expecting value");
     ProtocolPipeline.dump := fun _ => Ok tt |}.

(** A pipeline run with an API key, one two-page PDF behind every URL,
    and a model that fails on every chunk. *)
Definition muted : ProtocolPipeline.Env DataPipeline.Protocol :=
  {| ProtocolPipeline.nim_api_key := Some (lit "nvapi-test");
     ProtocolPipeline.fetch := fun _ => Ok [37%N; 80%N; 68%N; 70%N];
     ProtocolPipeline.read_pages :=
       fun _ => Ok [ Ok (lit "Apply a tourniquet."); Ok (lit "Note the time.") ];
     ProtocolPipeline.complete := fun _ => Fails (lit "Connection error.");
     ProtocolPipeline.loads_protocols := fun _ => Fails (lit "Expecting value");
     ProtocolPipeline.dump := fun _ => Ok tt |}.

End Examples.

(* ===================================================================== *)
(** * Properties *)
(* ===================================================================== *)

Import Py Eff Fixtures Notions.

Arguments lit : simpl never.

(** Unfold the monad. *)
Ltac run_monad :=
  unfold lift_reply, json_get, json_getitem;
  unfold try_except, try_bare, try_cancelled, try_finally, bind, ret, raise,
    get, modify, emit, call.

(** Split on every collaborator answer and every test the code makes,
    innermost first. *)
Ltac split_cases :=
  cbv beta iota;
  repeat match goal with
         | |- context [ match ?x with _ => _ end ] =>
             lazymatch x with
             | context [ match _ with _ => _ end ] => fail
             | _ => destruct x
             end; cbv beta iota
         end.

(* --------------------------------------------------------------------- *)
(** ** Strings *)
(* --------------------------------------------------------------------- *)

Lemma lstrip_blank (s : str) : blank s = true -> lstrip s = [].
Proof.
  induction s as [ | c s IH ]; [ reflexivity | ].
  cbn. intros H. apply andb_prop in H as [Hc Hs].
  rewrite Hc. auto.
Qed.

Lemma strip_blank (s : str) : blank s = true -> strip s = [].
Proof.
  intros H. unfold strip. rewrite (lstrip_blank s H). reflexivity.
Qed.

Lemma lstrip_head (s : str) :
  lstrip s = [] \/ exists c r, lstrip s = c :: r /\ isspace c = false.
Proof.
  induction s as [ | c s IH ]; [ left; reflexivity | ].
  cbn. destruct (isspace c) eqn:Hc; [ exact IH | ].
  right. exists c, s. auto.
Qed.

Lemma lstrip_nil_blank (s : str) : lstrip s = [] -> blank s = true.
Proof.
  induction s as [ | c s IH ]; [ reflexivity | ].
  cbn. destruct (isspace c); [ exact IH | discriminate ].
Qed.

Lemma lstrip_rev_keeps (r : str) (c : N) :
  isspace c = false -> lstrip (rev (c :: r)) <> [].
Proof.
  revert c. induction r as [ | d r IH ] using rev_ind; intros c Hc.
  - cbn. rewrite Hc. discriminate.
  - rewrite app_comm_cons, rev_app_distr. cbn [rev app].
    cbn. destruct (isspace d) eqn:Hd; [ apply (IH c Hc) | discriminate ].
Qed.

(** [text.strip()] is truthy exactly when [text] is not blank. *)
Lemma strip_truthy (s : str) : truthy (strip s) = negb (blank s).
Proof.
  destruct (blank s) eqn:B.
  - rewrite (strip_blank s B). reflexivity.
  - unfold strip, rstrip.
    destruct (lstrip_head s) as [ E | (c & r & E & Hc) ].
    + rewrite (lstrip_nil_blank s E) in B. discriminate.
    + rewrite E. pose proof (lstrip_rev_keeps r c Hc) as K.
      destruct (lstrip (rev (c :: r))) as [ | x l ] eqn:L;
        [ congruence | ].
      cbn. destruct (rev l ++ [x]) eqn:R; [ | reflexivity ].
      destruct (rev l); discriminate.
Qed.

(** A blank text does not look like a JSON object. *)
Lemma blank_not_json (s : str) :
  blank s = true -> startswith s (lit "{") = false.
Proof.
  destruct s as [ | c s ]; [ reflexivity | ].
  cbn [blank forallb]. intros H. apply andb_prop in H as [Hc _].
  change (startswith (c :: s) (lit "{"))
    with (N.eqb 123 c && startswith s []).
  destruct (N.eqb_spec 123 c) as [ <- | ]; [ discriminate Hc | reflexivity ].
Qed.

(* --------------------------------------------------------------------- *)
(** ** Traces *)
(* --------------------------------------------------------------------- *)

Lemma inserted_app (t1 t2 : list effect) :
  Trace.inserted (t1 ++ t2) = Trace.inserted t1 ++ Trace.inserted t2.
Proof.
  induction t1 as [ | e t1 IH ]; [ reflexivity | ].
  destruct e; cbn; rewrite ?IH; reflexivity.
Qed.

Lemma count_app (p : effect -> bool) (t1 t2 : list effect) :
  Trace.count p (t1 ++ t2) = Trace.count p t1 + Trace.count p t2.
Proof.
  unfold Trace.count. rewrite filter_app, length_app. reflexivity.
Qed.

Lemma count_cons (p : effect -> bool) (e : effect) (t : list effect) :
  Trace.count p (e :: t) = (if p e then 1 else 0) + Trace.count p t.
Proof. unfold Trace.count. cbn. destruct (p e); reflexivity. Qed.

Lemma count_sleeps (p : effect -> bool) (n : nat) :
  p Sleep = false -> Trace.count p (repeat Sleep n) = 0.
Proof.
  intros H. unfold Trace.count.
  induction n as [ | n IH ]; [ reflexivity | ].
  cbn. rewrite H. exact IH.
Qed.

(* --------------------------------------------------------------------- *)
(** ** The conversation manager *)
(* --------------------------------------------------------------------- *)

(** Speech synthesis failures never leave [generate_pcm]. *)
Lemma generate_pcm_returns {S} (w : World.t) (a : BackendAudioBridge.t)
    (text : str) (s : S) :
  exists pcm tr,
    BackendAudioBridge.generate_pcm w a text s = (Return pcm, s, tr)
    /\ Trace.inserted tr = [].
Proof.
  unfold BackendAudioBridge.generate_pcm.
  destruct (truthy text); [ | eexists _, _; split; reflexivity ].
  destruct (BackendAudioBridge.engine a);
    [ | eexists _, _; split; reflexivity ].
  run_monad.
  destruct (World.tts_synthesize w text) as [ [ | frames ] | what ];
    eexists _, _; split; reflexivity.
Qed.

Lemma speak_and_return_total (w : World.t) (text : str) (s : CM.t) :
  exists tr,
    CM._speak_and_return w text s = (Return text, said CM.assistant text s, tr)
    /\ Trace.inserted tr = [].
Proof.
  unfold CM._speak_and_return, CM.append_history, said.
  destruct s as [d v b a ap cs ca h].
  unfold bind, ret, modify, get, CM.on_bridge, zoom. cbn.
  destruct (VB.source b); [ | eexists; split; reflexivity ].
  match goal with
  | |- context [ BackendAudioBridge.generate_pcm w a text ?st ] =>
      destruct (generate_pcm_returns w a text st) as (pcm & tr & E & Q)
  end.
  rewrite E.
  destruct pcm as [ [ | x frames ] | ]; eexists; (split; [ reflexivity | ]);
    cbn; rewrite ?app_nil_r; exact Q.
Qed.

(** Publishing is best-effort: a failure is logged, nothing is raised. *)
Lemma publish_context_total {C} (w : World.t) (text : str) (b : VB.t C) :
  exists tr, VB.publish_context w text b = (Return tt, b, tr)
    /\ Trace.inserted tr = [].
Proof.
  unfold VB.publish_context. run_monad.
  destruct (VB.room b) as [ [cs [ lp | ] ] | ];
    try (eexists; split; reflexivity).
  destruct (encode_error text) as [ what | ];
    [ eexists; split; reflexivity | ].
  destruct (World.publish_data w text) as [ [] | what ];
    eexists; split; reflexivity.
Qed.

(** The echo branch, in every state of the manager and of the world. *)
Lemma respond_echo (w : World.t) (final_input : str) (s : CM.t) :
  truthy final_input = true ->
  exists tr,
    CM.respond w final_input s
    = (Return (CM.echo final_input),
       said CM.assistant (CM.echo final_input) s, tr)
    /\ Trace.inserted tr = [].
Proof.
  intros T. unfold CM.respond. rewrite T. cbn [negb].
  destruct (speak_and_return_total w (CM.echo final_input) s) as (tr & E & Q).
  unfold bind at 1. unfold get at 1.
  destruct (VB.room (CM.voice_bridge s)) eqn:R.
  - unfold CM.on_bridge, zoom, bind.
    destruct (publish_context_total w final_input (CM.voice_bridge s))
      as (tr1 & E1 & Q1).
    rewrite E1.
    replace (CM.set_voice_bridge (CM.voice_bridge s) s) with s
      by (destruct s; reflexivity).
    rewrite E. eexists; split; [ reflexivity | ].
    cbn. rewrite inserted_app, Q1, Q. reflexivity.
  - unfold bind, emit. rewrite E. eexists; split; [ reflexivity | ].
    cbn. exact Q.
Qed.

Lemma record_user_turn_total (ut : option str) (img : option bytes)
    (s : CM.t) :
  CM.record_user_turn ut img s
  = (Return tt, after (CM.record_user_turn ut img s), []).
Proof.
  unfold CM.record_user_turn, CM.append_history.
  destruct (truthy (CM.given ut)); [ reflexivity | ].
  destruct (truthy (CM.given img)); reflexivity.
Qed.

Lemma record_user_turn_keeps (ut : option str) (img : option bytes)
    (s : CM.t) :
  let s0 := after (CM.record_user_turn ut img s) in
  CM.vision s0 = CM.vision s /\ CM.db s0 = CM.db s
  /\ CM.voice_bridge s0 = CM.voice_bridge s
  /\ CM.active_protocol s0 = CM.active_protocol s
  /\ CM.current_step_id s0 = CM.current_step_id s.
Proof.
  unfold CM.record_user_turn, CM.append_history.
  destruct (truthy (CM.given ut)); [ cbn; auto | ].
  destruct (truthy (CM.given img)); cbn; auto.
Qed.

(** [process_input] is its three steps in sequence. *)
Lemma process_input_bind (w : World.t) (ut : option str) (img : option bytes)
    (s : CM.t) :
  CM.process_input w ut img s
  = match CM.analyze_and_log w img (after (CM.record_user_turn ut img s)) with
    | (Return vc, s1, t1) =>
        let '(r, s2, t2) := CM.respond w (CM.combine ut vc) s1 in
        (r, s2, t1 ++ t2)
    | (Raise e, s1, t1) => (Raise e, s1, t1)
    end.
Proof.
  unfold CM.process_input. unfold bind at 1.
  rewrite record_user_turn_total. unfold bind at 1.
  destruct (CM.analyze_and_log w img _) as [ [ [vc | e] s1 ] t1 ];
    [ | reflexivity ].
  destruct (CM.respond w _ s1) as [ [r s2] t2 ]. reflexivity.
Qed.

(** A turn with text and no image. *)
Lemma process_input_text_only (w : World.t) (s : CM.t) (text : str) :
  truthy text = true ->
  exists tr,
    CM.process_input w (Some text) None s
    = (Return (CM.echo text),
       said CM.assistant (CM.echo text) (said CM.user text s), tr).
Proof.
  intros T. rewrite process_input_bind.
  unfold CM.record_user_turn. cbn [CM.given]. rewrite T.
  unfold CM.analyze_and_log, bind, get, ret, after, CM.append_history, modify.
  cbn [CM.given fst snd].
  assert (C : CM.combine (Some text) [] = text)
    by (unfold CM.combine; cbn; apply app_nil_r).
  rewrite C.
  destruct (respond_echo w text (said CM.user text s) T) as (tr & E & _).
  fold (said CM.user text s). rewrite E. eexists. reflexivity.
Qed.

(** [analyze_injury] never raises; it changes nothing and logs nothing
    to the patient log. *)
Lemma analyze_injury_total {S} (w : World.t) (v : VisionProcessor.t)
    (img : bytes) (s : S) :
  exists tr,
    VisionProcessor.analyze_injury w v img s = (Return (analysis w img), s, tr)
    /\ Trace.inserted tr = [].
Proof.
  unfold VisionProcessor.analyze_injury, analysis. run_monad.
  destruct (World.chat_completion w img) as [ content | what ];
    [ | eexists; split; reflexivity ].
  destruct (World.json_loads w (VisionProcessor.clean content));
    eexists; split; reflexivity.
Qed.

Lemma analyze_injury_failure {S} (w : World.t) (v : VisionProcessor.t)
    (img : bytes) (s : S) :
  vision_call_fails w img = true ->
  exists what,
    VisionProcessor.analyze_injury w v img s
    = (Return (JObject VisionProcessor.fallback), s,
       [ VisionRequest img;
         Log ERROR (lit "Vision analysis failed: " ++ what) ]).
Proof.
  unfold vision_call_fails, VisionProcessor.analyze_injury. run_monad.
  destruct (World.chat_completion w img) as [ content | what ].
  - destruct (World.json_loads w (VisionProcessor.clean content))
      as [ j | what ]; [ discriminate | ].
    intros _. exists what. reflexivity.
  - intros _. exists what. reflexivity.
Qed.

Lemma analysis_failure (w : World.t) (img : bytes) :
  vision_call_fails w img = true ->
  analysis w img = JObject VisionProcessor.fallback.
Proof.
  unfold vision_call_fails, analysis.
  destruct (World.chat_completion w img) as [ content | what ];
    [ | reflexivity ].
  destruct (World.json_loads w (VisionProcessor.clean content));
    [ discriminate | reflexivity ].
Qed.

Lemma analyze_and_log_finding (w : World.t) (s : CM.t) (b : N)
    (image : bytes) (v : VisionProcessor.t) (database : DatabaseManager.t)
    (d : dict) :
  CM.vision s = Some v ->
  CM.db s = Some database ->
  analysis w (b :: image) = JObject d ->
  let injury := dict_get d (lit "injury") (VStr (lit "Unknown")) in
  let severity := dict_get d (lit "severity") (VStr (lit "Unknown")) in
  let e := finding_entry w injury severity in
  exists tr,
    Trace.inserted tr = [] /\
    CM.analyze_and_log w (Some (b :: image)) s
    = match World.tinydb_insert w e with
      | Ok _ =>
          (Return (CM.visual_info injury severity),
           CM.set_db
             (Some {| DatabaseManager.patient_db :=
                        DatabaseManager.patient_db database ++ [e] |}) s,
           tr ++ [DbInsert e])
      | Fails what =>
          (Raise (Exception what), CM.set_db (Some database) s,
           tr ++ [DbInsert e])
      end.
Proof.
  intros V D A injury severity e.
  unfold CM.analyze_and_log. unfold bind at 1, get at 1.
  cbn [CM.given]. rewrite V.
  destruct (analyze_injury_total w v (b :: image) s) as (tr & E & Q).
  exists tr. split; [ exact Q | ].
  unfold bind at 1. rewrite E, A.
  unfold json_get, bind at 1, ret at 1.
  unfold bind at 1, ret at 1.
  rewrite D.
  unfold CM.on_db, DatabaseManager.log_patient_state, zoom, call, bind,
    modify, ret.
  fold injury severity. fold (finding_entry w injury severity). fold e.
  destruct (World.tinydb_insert w e) as [ [] | what ]; cbn;
    rewrite ?app_nil_r; reflexivity.
Qed.

Lemma analyze_and_log_unlogged (w : World.t) (s : CM.t) (b : N)
    (image : bytes) (v : VisionProcessor.t) (d : dict) :
  CM.vision s = Some v ->
  CM.db s = None ->
  analysis w (b :: image) = JObject d ->
  exists tr,
    CM.analyze_and_log w (Some (b :: image)) s
    = (Return (CM.visual_info
                 (dict_get d (lit "injury") (VStr (lit "Unknown")))
                 (dict_get d (lit "severity") (VStr (lit "Unknown")))),
       s, tr).
Proof.
  intros V D A.
  unfold CM.analyze_and_log. unfold bind at 1, get at 1.
  cbn [CM.given]. rewrite V.
  destruct (analyze_injury_total w v (b :: image) s) as (tr & E & Q).
  unfold bind at 1. rewrite E, A.
  unfold json_get, bind at 1, ret at 1.
  unfold bind at 1, ret at 1.
  rewrite D. unfold bind, ret. eexists. reflexivity.
Qed.

Lemma visual_info_truthy (injury severity : value) :
  truthy (CM.visual_info injury severity) = true.
Proof. reflexivity. Qed.

Lemma combine_visual (ut : option str) (injury severity : value) :
  CM.combine ut (CM.visual_info injury severity)
  = CM.given ut ++ lit " " ++ CM.visual_info injury severity.
Proof. unfold CM.combine. rewrite visual_info_truthy. reflexivity. Qed.

Lemma combine_truthy (ut : option str) (injury severity : value) :
  truthy (CM.combine ut (CM.visual_info injury severity)) = true.
Proof.
  rewrite combine_visual. destruct (CM.given ut); reflexivity.
Qed.

Lemma is_yes_truthy (reply : str) : is_yes reply = true -> truthy reply = true.
Proof. destruct reply; [ discriminate | reflexivity ]. Qed.

(** C1, as stated, fails: with the hemorrhage protocol active at
    [step_1], the reply "yes" is answered by the echo, not by the voice
    text of [step_tourniquet], and [current_step_id] does not move. *)
Lemma reply_yes_is_not_advanced :
  let run := CM.process_input offline (Some (lit "yes")) None
               hemorrhage_at_step_1 in
  DataPipeline.find_step (DataPipeline.tree DataPipeline.hemorrhage)
    (lit "step_tourniquet") = Some DataPipeline.step_tourniquet
  /\ CM.current_step_id hemorrhage_at_step_1 = Some (lit "step_1")
  /\ ~ (result run = Return (DataPipeline.voice DataPipeline.step_tourniquet)
        /\ CM.current_step_id (after run) = Some (lit "step_tourniquet")).
Proof.
  cbv zeta. split; [ reflexivity | split; [ reflexivity | ] ].
  intros [H _]. vm_compute in H. discriminate H.
Qed.

(** C1, amended: with the hemorrhage protocol active at [step_1], the
    reply "yes" (in any letter case) is answered by the echo
    "I heard you say: <reply>"; [current_step_id] and [active_protocol]
    are left as they were, and the history grows by the user turn and
    the assistant turn. *)
Theorem process_input_yes_is_echoed (w : World.t) (s : CM.t) (reply : str) :
  is_yes reply = true ->
  CM.active_protocol s = Some DataPipeline.hemorrhage ->
  CM.current_step_id s = Some (lit "step_1") ->
  let run := CM.process_input w (Some reply) None s in
  result run = Return (lit "I heard you say: " ++ reply)
  /\ CM.current_step_id (after run) = Some (lit "step_1")
  /\ CM.active_protocol (after run) = Some DataPipeline.hemorrhage
  /\ CM.history (after run)
     = CM.history s
       ++ [ {| CM.role := CM.user; CM.content := reply |};
            {| CM.role := CM.assistant;
               CM.content := lit "I heard you say: " ++ reply |} ].
Proof.
  intros Y P C run. subst run.
  destruct (process_input_text_only w s reply (is_yes_truthy reply Y))
    as (tr & E).
  rewrite E. cbn [result after fst snd]. unfold said. cbn.
  rewrite <- app_assoc. auto.
Qed.

Lemma process_input_yes_is_echoed_witness :
  is_yes (lit "YES") = true
  /\ result (CM.process_input offline (Some (lit "YES")) None
               hemorrhage_at_step_1)
     = Return (lit "I heard you say: YES").
Proof.
  split; [ reflexivity | ].
  apply (process_input_yes_is_echoed offline hemorrhage_at_step_1
           (lit "YES")); reflexivity.
Defined.

(** C2: whenever a turn reaches its combined input and that input is
    not empty, [process_input] returns the echo of the combined input,
    whatever the TTS engine, the audio bridge and the voice-bridge
    connection do; the last turn of the history is that response, and
    the echo branch itself returns it from every state. *)
Theorem process_input_echo_fallback (w : World.t) (s : CM.t)
    (ut : option str) (img : option bytes) (vc : str) :
  result (CM.analyze_and_log w img (after (CM.record_user_turn ut img s)))
    = Return vc ->
  truthy (CM.combine ut vc) = true ->
  result (CM.process_input w ut img s) = Return (CM.echo (CM.combine ut vc))
  /\ CM.echo (CM.combine ut vc) = lit "I heard you say: " ++ CM.combine ut vc
  /\ (exists h,
        CM.history (after (CM.process_input w ut img s))
        = h ++ [ {| CM.role := CM.assistant;
                    CM.content := CM.echo (CM.combine ut vc) |} ])
  /\ (forall s1 : CM.t,
        result (CM.respond w (CM.combine ut vc) s1)
        = Return (CM.echo (CM.combine ut vc))).
Proof.
  intros A T. rewrite process_input_bind.
  destruct (CM.analyze_and_log w img _) as [ [ r s1 ] t1 ].
  cbn in A. subst r.
  destruct (respond_echo w _ s1 T) as (tr & E & _).
  rewrite E. cbn. split; [ reflexivity | split; [ reflexivity | split ] ].
  - eexists. reflexivity.
  - intros s2. destruct (respond_echo w _ s2 T) as (tr2 & E2 & _).
    rewrite E2. reflexivity.
Qed.

Lemma process_input_echo_fallback_witness :
  CM.process_input offline (Some (lit "he is bleeding")) None live_manager
  = (Return (lit "I heard you say: he is bleeding"),
     said CM.assistant (lit "I heard you say: he is bleeding")
       (said CM.user (lit "he is bleeding") live_manager),
     [ PublishData (lit "he is bleeding");
       Log ERROR (lit "Failed to publish data: not connected");
       TtsSynthesize (lit "I heard you say: he is bleeding");
       Log ERROR (lit "TTS Conversion Error: no audio device") ])
  /\ result (CM.process_input offline (Some (lit "he is bleeding")) None
               live_manager)
     = Return (lit "I heard you say: he is bleeding").
Proof.
  split; [ reflexivity | ].
  apply (process_input_echo_fallback offline live_manager
           (Some (lit "he is bleeding")) None []); reflexivity.
Defined.

(** C3, as stated, fails: when the vision call fails, the dict that
    [analyze_injury] returns is not the one the claim names. *)
Lemma analyze_injury_fallback_differs :
  vision_call_fails offline jpeg = true
  /\ result (VisionProcessor.analyze_injury offline processor jpeg tt)
     <> Return (JObject
                  [ (lit "injury", VStr (lit "Unknown"));
                    (lit "severity", VStr (lit "Unknown"));
                    (lit "visual_overlay", VStr (lit "Analysis Failed")) ]).
Proof.
  split; [ reflexivity | ].
  vm_compute. intros H. discriminate H.
Qed.

(** C3, amended: for every non-empty image, when the vision call fails
    (the request raises or the reply is not JSON), [analyze_injury]
    returns, without raising and after logging the error, the fallback
    dict {injury_type: "Unknown", severity: "Unknown",
    visual_overlay_text: "Analysis Failed - Check Connection"}: its
    severity is "Unknown", it has no [injury] key, so the injury
    [process_input] reads from it is the default "Unknown", and its
    overlay text is "Analysis Failed - Check Connection"; the turn
    goes on to its response as long as the log store takes the
    record. *)
Theorem analyze_injury_failure_fallback (w : World.t) (s : CM.t)
    (ut : option str) (b : N) (image : bytes) (v : VisionProcessor.t) :
  vision_call_fails w (b :: image) = true ->
  CM.vision s = Some v ->
  World.tinydb_insert w
    {| timestamp := World.now_isoformat w;
       heart_rate := VStr (lit "--");
       injury_detected := VStr (lit "Unknown");
       actions_taken := VStr (lit "Visual Analysis: Unknown") |} = Ok tt ->
  let d :=
    [ (lit "injury_type", VStr (lit "Unknown"));
      (lit "severity", VStr (lit "Unknown"));
      (lit "visual_overlay_text",
        VStr (lit "Analysis Failed - Check Connection")) ] in
  (exists what,
      VisionProcessor.analyze_injury w v (b :: image) s
      = (Return (JObject d), s,
         [ VisionRequest (b :: image);
           Log ERROR (lit "Vision analysis failed: " ++ what) ]))
  /\ lookup d (lit "severity") = Some (VStr (lit "Unknown"))
  /\ lookup d (lit "injury") = None
  /\ dict_get d (lit "injury") (VStr (lit "Unknown")) = VStr (lit "Unknown")
  /\ dict_get d (lit "severity") (VStr (lit "Unknown"))
     = VStr (lit "Unknown")
  /\ lookup d (lit "visual_overlay_text")
     = Some (VStr (lit "Analysis Failed - Check Connection"))
  /\ result (CM.process_input w ut (Some (b :: image)) s)
     = Return (lit "I heard you say: " ++ CM.given ut
                 ++ lit " [Visual Info: Found Unknown, Severity: Unknown]").
Proof.
  intros F V I d. split.
  - destruct (analyze_injury_failure w v (b :: image) s F) as (what & E).
    exists what. rewrite E. reflexivity.
  - do 5 (split; [ reflexivity | ]).
    pose proof (analysis_failure w (b :: image) F) as A.
    destruct (record_user_turn_keeps ut (Some (b :: image)) s)
      as (V0 & D0 & _).
    rewrite <- V0 in V.
    rewrite process_input_bind.
    set (s0 := after (CM.record_user_turn ut (Some (b :: image)) s)) in *.
    assert (T : truthy (CM.combine ut
                  (CM.visual_info (VStr (lit "Unknown"))
                     (VStr (lit "Unknown")))) = true)
      by apply combine_truthy.
    destruct (CM.db s0) as [ database | ] eqn:D.
    + destruct (analyze_and_log_finding w s0 b image v database _ V D A)
        as (tr & _ & E).
      change (dict_get VisionProcessor.fallback (lit "injury")
                (VStr (lit "Unknown"))) with (VStr (lit "Unknown")) in E.
      change (dict_get VisionProcessor.fallback (lit "severity")
                (VStr (lit "Unknown"))) with (VStr (lit "Unknown")) in E.
      unfold finding_entry in E. cbn [format] in E.
      change (lit "Visual Analysis: " ++ lit "Unknown")
        with (lit "Visual Analysis: Unknown") in E.
      rewrite E, I.
      match goal with
      | |- context [ CM.respond w ?fi ?st ] =>
          destruct (respond_echo w fi st T) as (tr2 & E2 & _)
      end.
      rewrite E2. cbn [result fst]. rewrite combine_visual.
      reflexivity.
    + destruct (analyze_and_log_unlogged w s0 b image v _ V D A) as (tr & E).
      change (dict_get VisionProcessor.fallback (lit "injury")
                (VStr (lit "Unknown"))) with (VStr (lit "Unknown")) in E.
      change (dict_get VisionProcessor.fallback (lit "severity")
                (VStr (lit "Unknown"))) with (VStr (lit "Unknown")) in E.
      rewrite E.
      destruct (respond_echo w _ s0 T) as (tr2 & E2 & _).
      rewrite E2. cbn [result fst]. rewrite combine_visual.
      reflexivity.
Qed.

Lemma analyze_injury_failure_fallback_witness :
  vision_call_fails offline jpeg = true
  /\ result (VisionProcessor.analyze_injury offline processor jpeg
               fresh_manager)
     = Return (JObject
                 [ (lit "injury_type", VStr (lit "Unknown"));
                   (lit "severity", VStr (lit "Unknown"));
                   (lit "visual_overlay_text",
                     VStr (lit "Analysis Failed - Check Connection")) ])
  /\ result (CM.process_input offline (Some (lit "he fell")) (Some jpeg)
               fresh_manager)
     = Return (lit "I heard you say: he fell [Visual Info: Found Unknown, Severity: Unknown]").
Proof.
  split; [ reflexivity | ].
  destruct (analyze_injury_failure_fallback offline fresh_manager
              (Some (lit "he fell")) 0xFF%N [0xD8%N] processor
              eq_refl eq_refl eq_refl) as ((what & E) & _ & _ & _ & _ & _ & R).
  split; [ | exact R ].
  change jpeg with [0xFF%N; 0xD8%N]. rewrite E. reflexivity.
Defined.

(** C10: in every turn with an image that is analysed to a finding,
    exactly one record goes to the log store, carrying the finding's
    injury and, in its action text, the finding's severity; and once
    the store has taken it, the response echoes the combined input,
    which is the utterance text followed by a space and the bracketed
    visual context naming that injury and severity. *)
Theorem visual_finding_logged_and_combined (w : World.t) (s : CM.t)
    (ut : option str) (b : N) (image : bytes) (v : VisionProcessor.t)
    (database : DatabaseManager.t) (d : dict) :
  CM.vision s = Some v ->
  CM.db s = Some database ->
  result (VisionProcessor.analyze_injury w v (b :: image) s)
    = Return (JObject d) ->
  let injury := dict_get d (lit "injury") (VStr (lit "Unknown")) in
  let severity := dict_get d (lit "severity") (VStr (lit "Unknown")) in
  let record :=
    {| timestamp := World.now_isoformat w;
       heart_rate := VStr (lit "--");
       injury_detected := injury;
       actions_taken := VStr (lit "Visual Analysis: " ++ format severity) |} in
  let run := CM.process_input w ut (Some (b :: image)) s in
  Trace.inserted (trace run) = [ record ]
  /\ (World.tinydb_insert w record = Ok tt ->
      result run
      = Return (CM.echo (CM.given ut ++ lit " "
                           ++ lit "[Visual Info: Found " ++ format injury
                           ++ lit ", Severity: " ++ format severity
                           ++ lit "]"))
      /\ option_map DatabaseManager.patient_db (CM.db (after run))
         = Some (DatabaseManager.patient_db database ++ [ record ])).
Proof.
  intros V D A injury severity record run.
  destruct (analyze_injury_total w v (b :: image) s) as (tr0 & E0 & _).
  rewrite E0 in A. cbn in A. injection A as A.
  destruct (record_user_turn_keeps ut (Some (b :: image)) s)
    as (V0 & D0 & _).
  rewrite <- V0 in V. rewrite <- D0 in D.
  destruct (analyze_and_log_finding w _ b image v database d V D A)
    as (tr & Q & E).
  fold injury severity in E. unfold finding_entry in E.
  fold record in E.
  subst run. rewrite process_input_bind. rewrite E.
  destruct (World.tinydb_insert w record) as [ [] | what ].
  - match goal with
    | |- context [ CM.respond w ?fi ?st ] =>
        destruct (respond_echo w fi st (combine_truthy ut injury severity))
          as (tr2 & E2 & Q2)
    end.
    rewrite E2. cbn [trace result after fst snd].
    split.
    + rewrite !inserted_app, Q, Q2. reflexivity.
    + intros _. split.
      * rewrite combine_visual. reflexivity.
      * reflexivity.
  - cbn [trace result after fst snd]. split.
    + rewrite inserted_app, Q. reflexivity.
    + intros H. discriminate H.
Qed.

Lemma visual_finding_logged_and_combined_witness :
  Trace.inserted
    (trace (CM.process_input seeing (Some (lit "look at this")) (Some jpeg)
              fresh_manager))
  = [ {| timestamp := lit "2026-01-01T00:00:00";
         heart_rate := VStr (lit "--");
         injury_detected := VStr (lit "Laceration");
         actions_taken := VStr (lit "Visual Analysis: CRITICAL") |} ]
  /\ result (CM.process_input seeing (Some (lit "look at this")) (Some jpeg)
               fresh_manager)
     = Return (lit "I heard you say: look at this [Visual Info: Found Laceration, Severity: CRITICAL]").
Proof.
  destruct (visual_finding_logged_and_combined seeing fresh_manager
              (Some (lit "look at this")) 0xFF%N [0xD8%N] processor
              {| DatabaseManager.patient_db := [] |} laceration
              eq_refl eq_refl eq_refl) as [ L R ].
  split; [ exact L | ].
  destruct (R eq_refl) as [ E _ ]. exact E.
Defined.

(* --------------------------------------------------------------------- *)
(** ** The voice bridge: inbound events *)
(* --------------------------------------------------------------------- *)

(** The list comprehension of the handler keeps the text fields, in
    order. *)
Lemma segment_texts_of_fields (segs : list VB.Segment) (texts : list str) :
  text_fields segs = List.map VStr texts ->
  VB.segment_texts segs = Some texts.
Proof.
  revert texts. induction segs as [ | seg segs IH ]; intros texts.
  - destruct texts; [ reflexivity | discriminate ].
  - cbn [text_fields flat_map VB.segment_texts].
    destruct (VB.text seg) as [ [ tx | tv shown ty ] | ].
    + destruct texts as [ | t texts ]; [ discriminate | ].
      cbn [app List.map]. intros E. injection E as -> E.
      rewrite (IH texts E). reflexivity.
    + destruct texts; discriminate.
    + cbn [app]. apply IH.
Qed.

(** [" ".join] puts the texts in order, one space between neighbours. *)
Lemma join_spaced (texts : list str) : join (lit " ") texts = spaced texts.
Proof.
  destruct texts as [ | first more ]; [ reflexivity | ].
  revert first. induction more as [ | t more IH ]; intros first.
  - cbn. rewrite app_nil_r. reflexivity.
  - change (join (lit " ") (first :: t :: more))
      with (first ++ lit " " ++ join (lit " ") (t :: more)).
    rewrite IH. reflexivity.
Qed.

Section Handlers.

Context {Callback S : Type}.
Variable w : World.t.
Variable self : VB.t Callback.
Variable s : S.

Lemma process_blank (text : str) (src : option str) :
blank text = true ->
VB._process_text_message self (VStr text) src s = (Return tt, s, []).
Proof.
intros B. unfold VB._process_text_message.
rewrite strip_truthy, B. rewrite andb_false_r. reflexivity.
Qed.

(** Whatever arrives, the handlers return: decode failures end as a
  warning. *)
Lemma on_data_received_total (pkt : VB.DataPacket) :
exists tr, VB._on_data_received w self pkt s = (Return tt, s, tr).
Proof.
unfold VB._on_data_received, VB.decode, VB._process_text_message.
run_monad. split_cases; eexists; reflexivity.
Qed.

Lemma on_transcription_received_total (tr : VB.Transcription)
  (p : option VB.Participant) :
exists t, VB._on_transcription_received self tr p s = (Return tt, s, t).
Proof.
unfold VB._on_transcription_received.
run_monad. split_cases; eexists; reflexivity.
Qed.

(** The legacy path does drop what the agent itself said. *)
Lemma transcription_from_agent_dropped (tr : VB.Transcription)
  (p : VB.Participant) :
contains VB.agent_marker (VB.identity p) = true ->
VB._on_transcription_received self tr (Some p) s = (Return tt, s, []).
Proof.
intros A. unfold VB._on_transcription_received. rewrite A. reflexivity.
Qed.

(** C5: an inbound event whose decoded text is empty or whitespace
  only produces no task for the callback, no log line and no
  exception.  The decoded text is the payload of a data packet, the
  [text] field of a JSON transcription packet, the joined segments
  of a legacy transcription, or the printed form of a transcription
  that is not a list. *)
Theorem blank_text_is_skipped (text : str) :
blank text = true ->
(forall pkt,
    decode_utf8 (VB.data pkt) = Some text ->
    VB._on_data_received w self pkt s = (Return tt, s, []))
/\ (forall pkt raw d,
      VB.topic pkt = Some VB.lk_transcription ->
      decode_utf8 (VB.data pkt) = Some raw ->
      startswith raw (lit "{") && contains (lit "text") raw = true ->
      World.json_loads w raw = Ok (JObject d) ->
      lookup d (lit "text") = Some (VStr text) ->
      VB._on_data_received w self pkt s = (Return tt, s, []))
/\ (forall segs p texts,
      VB.segment_texts segs = Some texts ->
      join (lit " ") texts = text ->
      VB._on_transcription_received self (VB.Segments segs) p s
      = (Return tt, s, []))
/\ (forall p,
      VB._on_transcription_received self (VB.NotAList text) p s
      = (Return tt, s, [])).
Proof.
intros B. repeat split.
- intros pkt D. unfold VB._on_data_received, VB.decode.
  rewrite D.
  destruct (VB.topic_is (VB.topic pkt) VB.lk_transcription);
    unfold try_except, try_bare, bind, ret;
    rewrite ?(blank_not_json text B); cbn [andb];
    rewrite !process_blank by exact B; reflexivity.
- intros pkt raw d T D J L G. unfold VB._on_data_received, VB.decode.
  rewrite T, D.
  replace (VB.topic_is (Some VB.lk_transcription) VB.lk_transcription)
    with true by reflexivity.
  unfold try_except, try_bare, bind, ret.
  rewrite J, L.
  unfold lift_reply, json_get, dict_get, ret.
  rewrite G. rewrite !process_blank by exact B. reflexivity.
- intros segs p texts T J. unfold VB._on_transcription_received.
  rewrite T, J. unfold try_except, bind, ret.
  rewrite strip_truthy, B.
  destruct p as [ p | ]; [ destruct (contains _ _) | ]; reflexivity.
- intros p. unfold VB._on_transcription_received.
  unfold try_except, bind, ret.
  rewrite strip_truthy, B.
  destruct p as [ p | ]; [ destruct (contains _ _) | ]; reflexivity.
Qed.

(** C6: a legacy transcription that arrives as a list of segments is
  handed on as one string: the text fields of the segments, in the
  order of the segments, with exactly one space between neighbours.
  That string is what the handler tests for blankness and what the
  callback task is created with. *)
Theorem segments_joined_with_spaces (segs : list VB.Segment)
  (texts : list str) (p : option VB.Participant) (cb : Callback) :
text_fields segs = List.map VStr texts ->
match p with
| Some who => contains VB.agent_marker (VB.identity who)
| None => false
end = false ->
VB.on_message_callback self = Some cb ->
VB._on_transcription_received self (VB.Segments segs) p s
= (Return tt, s,
   if blank (spaced texts) then [] else [ CreateTask (spaced texts) ]).
Proof.
intros T A C. unfold VB._on_transcription_received.
rewrite A, (segment_texts_of_fields segs texts T), C, join_spaced.
unfold try_except, bind, ret, emit.
rewrite strip_truthy. destruct (blank (spaced texts)); reflexivity.
Qed.

End Handlers.

(** Segments that all carry a [str] give their texts, in order. *)
Lemma segment_texts_of_strs (texts : list str) :
  VB.segment_texts
    (List.map (fun tx => {| VB.text := Some (VStr tx) |}) texts)
  = Some texts.
Proof.
  induction texts as [ | tx texts IH ]; [ reflexivity | ].
  cbn. rewrite IH. reflexivity.
Qed.

Lemma blank_text_is_skipped_witness :
  blank (lit "  ") = true
  /\ VB._on_data_received offline wired_bridge blank_packet tt
     = (Return tt, tt, []).
Proof.
  split; [ reflexivity | ].
  destruct (blank_text_is_skipped offline wired_bridge tt (lit "  ")
              eq_refl) as [ H _ ].
  apply H. reflexivity.
Defined.

Lemma segments_joined_with_spaces_witness :
  VB._on_transcription_received wired_bridge (VB.Segments help_segments)
    (Some {| VB.identity := lit "user-42" |}) tt
  = (Return tt, tt, [ CreateTask (lit "send help") ]).
Proof.
  apply (segments_joined_with_spaces wired_bridge tt help_segments
           [ lit "send"; lit "help" ]
           (Some {| VB.identity := lit "user-42" |}) tt);
    reflexivity.
Defined.

(** C4 does not hold on the data path: a transcription packet whose
    participant is the agent ("agent-savant") still creates the
    callback task, while the same participant is dropped on the legacy
    path. *)
Theorem agent_data_packet_reaches_callback :
  contains VB.agent_marker (lit "agent-savant") = true
  /\ VB._on_data_received offline wired_bridge agent_packet tt
     = (Return tt, tt, [ CreateTask (lit "Apply pressure") ])
  /\ VB._on_transcription_received wired_bridge
       (VB.Segments [ {| VB.text := Some (VStr (lit "Apply pressure")) |} ])
       (VB.participant agent_packet) tt
     = (Return tt, tt, []).
Proof. repeat split; reflexivity. Qed.

(* --------------------------------------------------------------------- *)
(** ** The voice bridge: running the callback *)
(* --------------------------------------------------------------------- *)

Section Isolation.

Context {Callback S : Type}.
Variable invoke : Callback -> str -> M S unit.
Variable bridge : S -> VB.t Callback.
Variable w : World.t.

(** What the callback raises derives from [Exception]. *)
Hypothesis invoke_exceptions :
forall cb text s, result (invoke cb text s) <> Raise CancelledError.

Lemma safe_callback_run_returns (text : str) (s : S) :
result (VB._safe_callback_run invoke bridge text s) = Return tt.
Proof.
unfold VB._safe_callback_run, try_except, bind, get, raise, emit, result.
destruct (VB.on_message_callback (bridge s)) as [ cb | ];
  [ | reflexivity ].
pose proof (invoke_exceptions cb text s) as H. unfold result in H.
destruct (invoke cb text s) as [ [ [ [] | [ what | ] ] s1 ] t1 ]; cbn in *;
  congruence.
Qed.

Lemma safe_callback_run_logs (text : str) (s : S) (cb : Callback)
  (what : str) :
VB.on_message_callback (bridge s) = Some cb ->
result (invoke cb text s) = Raise (Exception what) ->
trace (VB._safe_callback_run invoke bridge text s)
= trace (invoke cb text s)
  ++ [ Log ERROR (lit "Callback Execution Failed: " ++ what) ].
Proof.
intros C R.
unfold VB._safe_callback_run, try_except, bind, get, raise, emit, trace.
rewrite C. unfold result in R.
destruct (invoke cb text s) as [ [ r s1 ] t1 ]. cbn in *. subst r.
reflexivity.
Qed.

Lemma run_tasks_returns (texts : list str) (s : S) :
result (VB.run_tasks invoke bridge texts s) = Return tt.
Proof.
revert s. induction texts as [ | text rest IH ]; intros s;
  [ reflexivity | ].
cbn [VB.run_tasks]. unfold bind.
pose proof (safe_callback_run_returns text s) as H.
destruct (VB._safe_callback_run invoke bridge text s)
  as [ [ r s1 ] t1 ].
cbn in H. subst r. specialize (IH s1).
destruct (VB.run_tasks invoke bridge rest s1) as [ [ r2 s2 ] t2 ].
exact IH.
Qed.

Lemma dispatch_total (ev : VB.event) (s : S) :
exists tr, VB.dispatch bridge w ev s = (Return tt, s, tr).
Proof.
unfold VB.dispatch, bind, get. destruct ev as [ pkt | tr p ].
- destruct (on_data_received_total w (bridge s) s pkt) as (t & E).
  rewrite E. eexists; reflexivity.
- destruct (on_transcription_received_total (bridge s) s tr p)
    as (t & E).
  rewrite E. eexists; reflexivity.
Qed.

Lemma deliver_returns (ev : VB.event) (s : S) :
result (VB.deliver invoke bridge w ev s) = Return tt.
Proof.
unfold VB.deliver, bind, listen.
destruct (dispatch_total ev s) as (tr & E). rewrite E.
pose proof (run_tasks_returns (VB.created_tasks (snd (tt, tr))) s) as H.
destruct (VB.run_tasks invoke bridge _ s) as [ [ r s1 ] t1 ].
exact H.
Qed.

Lemma consume_returns (events : list VB.event) (s : S) :
result (VB.consume invoke bridge w events s) = Return tt.
Proof.
revert s. induction events as [ | ev rest IH ]; intros s;
  [ reflexivity | ].
cbn [VB.consume]. unfold bind.
pose proof (deliver_returns ev s) as H.
destruct (VB.deliver invoke bridge w ev s) as [ [ r0 s0 ] t0 ].
cbn in H. subst r0. specialize (IH s0).
destruct (VB.consume invoke bridge w rest s0) as [ [ r1 s1 ] t1 ].
exact IH.
Qed.

(** Consuming [before ++ later] is consuming [before], then [later]
  from where [before] left off. *)
Lemma consume_app (before later : list VB.event) (s : S) :
VB.consume invoke bridge w (before ++ later) s
= let '(_, s1, t1) := VB.consume invoke bridge w before s in
  let '(r, s2, t2) := VB.consume invoke bridge w later s1 in
  (r, s2, t1 ++ t2).
Proof.
revert s. induction before as [ | ev rest IH ]; intros s.
- cbn. destruct (VB.consume invoke bridge w later s) as [ [ r s2 ] t2 ].
  reflexivity.
- cbn [app VB.consume]. unfold bind.
  pose proof (deliver_returns ev s) as H.
  destruct (VB.deliver invoke bridge w ev s) as [ [ r0 s0 ] t0 ].
  cbn in H. subst r0. rewrite IH.
  destruct (VB.consume invoke bridge w rest s0) as [ [ r1 s1 ] t1 ].
  destruct (VB.consume invoke bridge w later s1) as [ [ r2 s2 ] t2 ].
  destruct r1; rewrite app_assoc; reflexivity.
Qed.

End Isolation.

(** C7: an exception raised inside the message callback is caught by
    [_safe_callback_run] and logged at error level; it never ends the
    consumption of inbound events, and the events after it are
    processed from the state the earlier ones left. *)
Theorem callback_failure_is_isolated {Callback S : Type}
    (invoke : Callback -> str -> M S unit)
    (bridge : S -> VB.t Callback) (w : World.t) :
  (forall cb text s, result (invoke cb text s) <> Raise CancelledError) ->
  (forall text s,
      result (VB._safe_callback_run invoke bridge text s) = Return tt)
  /\ (forall text s cb what,
        VB.on_message_callback (bridge s) = Some cb ->
        result (invoke cb text s) = Raise (Exception what) ->
        trace (VB._safe_callback_run invoke bridge text s)
        = trace (invoke cb text s)
          ++ [ Log ERROR (lit "Callback Execution Failed: " ++ what) ])
  /\ (forall events s,
        result (VB.consume invoke bridge w events s) = Return tt)
  /\ (forall before later s,
        VB.consume invoke bridge w (before ++ later) s
        = let '(_, s1, t1) := VB.consume invoke bridge w before s in
          let '(r, s2, t2) := VB.consume invoke bridge w later s1 in
          (r, s2, t1 ++ t2)).
Proof.
  intros H. split; [ | split; [ | split ] ].
  - apply safe_callback_run_returns, H.
  - intros text s cb what. apply safe_callback_run_logs.
  - apply consume_returns, H.
  - apply consume_app, H.
Qed.

Lemma callback_failure_is_isolated_witness :
  VB.consume failing_callback (fun b => b) offline
    [ VB.DataReceived hello_packet;
      VB.TranscriptionReceived (VB.Segments help_segments) None ]
    wired_bridge
  = (Return tt, wired_bridge,
     [ CreateTask (lit "hello");
       Log ERROR (lit "Callback Execution Failed: handler crashed");
       CreateTask (lit "send help");
       Log ERROR (lit "Callback Execution Failed: handler crashed") ])
  /\ result (VB.consume failing_callback (fun b => b) offline
               [ VB.DataReceived hello_packet;
                 VB.TranscriptionReceived (VB.Segments help_segments) None ]
               wired_bridge)
     = Return tt.
Proof.
  split; [ reflexivity | ].
  apply (callback_failure_is_isolated failing_callback (fun b => b) offline).
  intros cb text s. cbn. discriminate.
Defined.

(** The callback the manager registers raises nothing on a text
    message: it answers, or asks for input. *)
Lemma manager_callback_returns (w : World.t) (text : str) (s : CM.t) :
  result (CM.invoke w CM.bound_process_input text s) = Return tt.
Proof.
  unfold CM.invoke. unfold bind at 1.
  destruct (truthy text) eqn:T.
  - destruct (process_input_text_only w s text T) as (tr & E).
    rewrite E. reflexivity.
  - destruct text; [ | discriminate T ].
    rewrite process_input_bind.
    change (after (CM.record_user_turn (Some []) None s)) with s.
    change (CM.analyze_and_log w None s) with (Return ([] : str), s, @nil effect).
    cbv beta iota.
    change (CM.respond w (CM.combine (Some []) []) s)
      with (CM._speak_and_return w (lit "Awaiting input.") s).
    destruct (speak_and_return_total w (lit "Awaiting input.") s)
      as (tr & E & _).
    rewrite E. reflexivity.
Qed.

(* --------------------------------------------------------------------- *)
(** ** The voice bridge: starting and losing the session *)
(* --------------------------------------------------------------------- *)

(** C8: when the API key is missing, [connect_and_stream] reports it
    (the error line "VOCAL_BRIDGE_KEY is missing."), makes no token
    request and no connect call, and, started with no room held,
    returns normally with nothing held. *)
Theorem missing_key_never_connects {Callback : Type} (w : World.t)
    (self : VB.t Callback) :
  VB.key_present self = None ->
  let run := VB.connect_and_stream w self in
  Trace.logged ERROR (trace run) = [ lit "VOCAL_BRIDGE_KEY is missing." ]
  /\ Trace.count Trace.is_connect (trace run) = 0
  /\ Trace.count Trace.is_post (trace run) = 0
  /\ (VB.room self = None ->
      result run = Return tt /\ after run = VB.release self).
Proof.
  intros K run. subst run.
  unfold VB.connect_and_stream. run_monad.
  unfold VB.get_token. rewrite K. run_monad.
  unfold VB.close. run_monad.
  destruct (VB._mic_task self), (VB._audio_stream_task self),
    (VB.room self), (World.room_disconnect w) as [ [] | what ];
    cbn; repeat split; intros; congruence.
Qed.

Lemma missing_key_never_connects_witness :
  VB.key_present (VB.init (Callback := unit) None) = None
  /\ VB.connect_and_stream dropping (VB.init (Callback := unit) None)
     = (Return tt, VB.init None,
        [ Log ERROR (lit "VOCAL_BRIDGE_KEY is missing.") ])
  /\ Trace.count Trace.is_connect
       (trace (VB.connect_and_stream dropping
                 (VB.init (Callback := unit) None)))
     = 0.
Proof.
  split; [ reflexivity | split; [ reflexivity | ] ].
  apply (missing_key_never_connects dropping
           (VB.init (Callback := unit) None)).
  reflexivity.
Defined.

Section KeepAlive.

Context {Callback : Type}.
Variable w : World.t.

(** The keep-alive loop of a session that is lost after [quiet]
  seconds: [quiet + 1] sleeps, then the loop is left. *)
Lemma keep_alive_lost (quiet : nat) (self : VB.t Callback) :
VB.keep_going self = true ->
World.keepalive_exit w = World.ConnectionLost ->
VB.keep_alive w quiet self
= (Return tt, VB.set_room (Some VB.dropped_room) self,
   repeat Sleep (S quiet)).
Proof.
intros G X. induction quiet as [ | n IH ].
- cbn [VB.keep_alive]. run_monad. rewrite G, X. reflexivity.
- cbn [VB.keep_alive]. run_monad. rewrite G.
  unfold bind, emit in IH. cbn [VB.keep_alive] in IH.
  run_monad. rewrite IH. reflexivity.
Qed.

End KeepAlive.





(* ===================================================================== *)
(** * Further properties *)
(* ===================================================================== *)

Import Observations Examples.

(** Count what a concrete trace holds. *)
Ltac count_trace :=
  cbn [trace snd app];
  repeat rewrite ?count_cons, ?count_app, ?count_sleeps by reflexivity;
  cbn [Trace.is_connect Trace.is_post is_disconnect is_sleep is_publish
       Trace.count List.filter List.length Nat.add];
  try reflexivity; try lia.

(* --------------------------------------------------------------------- *)
(** ** The pipeline: chunks *)
(* --------------------------------------------------------------------- *)

Lemma slice_window (text : str) (i size : nat) :
  PP.slice text i (i + size) = firstn size (skipn i text).
Proof.
  unfold PP.slice. replace (i + size - i) with size by lia. reflexivity.
Qed.

Lemma ceiling_covers (len step : nat) :
  0 < step -> len <= (len + step - 1) / step * step.
Proof.
  intros P.
  pose proof (Nat.div_mod_eq (len + step - 1) step) as E.
  pose proof (Nat.mod_upper_bound (len + step - 1) step) as U.
  nia.
Qed.

Lemma ceiling_tight (len step k : nat) :
  0 < step -> k < (len + step - 1) / step -> k * step < len.
Proof.
  intros P K.
  pose proof (Nat.div_mod_eq (len + step - 1) step) as E.
  nia.
Qed.

Lemma windows_cover (step m : nat) (text : str) :
  List.length text <= m * step ->
  List.concat
    (List.map (fun k => firstn step (skipn (k * step) text)) (seq 0 m))
  = text.
Proof.
  revert text. induction m as [ | m IH ]; intros text L.
  - destruct text; [ reflexivity | cbn in L; lia ].
  - cbn [seq List.map List.concat]. rewrite <- seq_shift, map_map.
    cbn [Nat.mul skipn].
    rewrite (map_ext _
      (fun k => firstn step (skipn (k * step) (skipn step text)))).
    + rewrite IH; [ apply firstn_skipn | ].
      rewrite length_skipn. lia.
    + intros k. rewrite skipn_skipn. f_equal. f_equal. lia.
Qed.

(** X1: the chunks cover the text: the first [size - over] characters
    of every chunk, put end to end, are the text again. *)
Theorem chunks_cover (size over : nat) (text : str) :
  over < size ->
  List.concat (List.map (firstn (size - over)) (PP.split_chunks size over text))
  = text.
Proof.
  intros H. unfold PP.split_chunks, PP.range_step.
  rewrite !map_map.
  rewrite (map_ext _
    (fun k => firstn (size - over) (skipn (k * (size - over)) text))).
  - apply windows_cover, ceiling_covers. lia.
  - intros k. rewrite slice_window, firstn_firstn.
    f_equal. lia.
Qed.

Lemma source_chunking : PP.overlap < PP.CHUNK_SIZE.
Proof. apply Nat.ltb_lt. vm_compute. reflexivity. Qed.

Lemma chunks_cover_witness :
  PP.overlap < PP.CHUNK_SIZE
  /\ List.concat
       (List.map (firstn (PP.CHUNK_SIZE - PP.overlap))
          (PP.split_chunks PP.CHUNK_SIZE PP.overlap
             (lit "Apply direct pressure.")))
     = lit "Apply direct pressure.".
Proof.
  split; [ exact source_chunking | ].
  apply (chunks_cover PP.CHUNK_SIZE PP.overlap), source_chunking.
Defined.

(** X2: there are ceil(len / (size - over)) chunks, none of them empty
    and none longer than [size]; an empty text gives no chunk. *)
Theorem chunks_bounded (size over : nat) (text : str) :
  over < size ->
  List.length (PP.split_chunks size over text)
    = (List.length text + (size - over) - 1) / (size - over)
  /\ Forall (fun chunk => 1 <= List.length chunk <= size)
       (PP.split_chunks size over text)
  /\ (text = [] -> PP.split_chunks size over text = []).
Proof.
  intros H. unfold PP.split_chunks, PP.range_step.
  split; [ | split ].
  - rewrite !length_map, length_seq. reflexivity.
  - rewrite map_map. apply Forall_map, Forall_forall. intros k K.
    apply in_seq in K. rewrite slice_window, length_firstn, length_skipn.
    assert (k * (size - over) < List.length text)
      by (apply ceiling_tight; lia).
    lia.
  - intros ->. cbn [List.length]. rewrite Nat.add_0_l.
    rewrite Nat.div_small by lia. reflexivity.
Qed.

Lemma chunks_bounded_witness :
  PP.overlap < PP.CHUNK_SIZE
  /\ PP.split_chunks PP.CHUNK_SIZE PP.overlap [] = [].
Proof.
  split; [ exact source_chunking | ].
  apply (chunks_bounded PP.CHUNK_SIZE PP.overlap [] source_chunking).
  reflexivity.
Defined.

(** X3: neighbouring chunks overlap: what follows the first
    [size - over] characters of a chunk is the first [over] characters
    of the next one. *)
Theorem chunks_overlap (size over : nat) (text : str) (k : nat) :
  over < size ->
  S k < List.length (PP.split_chunks size over text) ->
  skipn (size - over) (nth k (PP.split_chunks size over text) [])
  = firstn over (nth (S k) (PP.split_chunks size over text) []).
Proof.
  intros H K. unfold PP.split_chunks, PP.range_step in *.
  rewrite map_map in *. rewrite length_map, length_seq in K.
  set (f := fun x =>
              PP.slice text (x * (size - over)) (x * (size - over) + size)).
  assert (D : forall j,
             j < (List.length text + (size - over) - 1) / (size - over) ->
             nth j (List.map f
                      (seq 0 ((List.length text + (size - over) - 1)
                              / (size - over)))) [] = f j).
  { intros j J.
    rewrite (nth_indep _ [] (f 0))
      by (rewrite length_map, length_seq; exact J).
    rewrite map_nth, seq_nth by exact J. reflexivity. }
  rewrite !D by lia. unfold f.
  rewrite !slice_window, skipn_firstn_comm, skipn_skipn, firstn_firstn.
  replace (size - (size - over)) with over by lia.
  replace (Nat.min over size) with over by lia.
  reflexivity.
Qed.

Lemma chunks_overlap_witness :
  PP.split_chunks 4 1 (lit "abcdefghij")
    = [ lit "abcd"; lit "defg"; lit "ghij"; lit "j" ]
  /\ skipn (4 - 1) (nth 0 (PP.split_chunks 4 1 (lit "abcdefghij")) [])
     = firstn 1 (nth 1 (PP.split_chunks 4 1 (lit "abcdefghij")) []).
Proof.
  split; [ reflexivity | ].
  apply (chunks_overlap 4 1 (lit "abcdefghij") 0); [ lia | ].
  apply Nat.ltb_lt. reflexivity.
Defined.

(* --------------------------------------------------------------------- *)
(** ** The pipeline: deduplication by id *)
(* --------------------------------------------------------------------- *)

Section Dedup.

Context {Key Proto : Type}.
Variable key_eqb : Key -> Key -> bool.
Variable ident : Proto -> PP.id_of Key.

(** The dict compares keys by equality. *)
Hypothesis key_eqb_eq : forall a b, key_eqb a b = true <-> a = b.

Local Notation filed := (Observations.filed key_eqb).
Local Notation last_with := (Observations.last_with key_eqb ident).
Local Notation well_filed := (Observations.well_filed ident).

Lemma key_eqb_refl (k : Key) : key_eqb k k = true.
Proof. apply key_eqb_eq. reflexivity. Qed.

Lemma key_eqb_neq (a b : Key) : a <> b -> key_eqb a b = false.
Proof.
  intros N. destruct (key_eqb a b) eqn:E; [ | reflexivity ].
  apply key_eqb_eq in E. contradiction.
Qed.

Lemma filed_set_same (d : list (Key * Proto)) (k : Key) (p : Proto) :
  filed (PP.dict_set key_eqb d k p) k = Some p.
Proof.
  induction d as [ | [k' p'] d IH ]; cbn.
  - rewrite key_eqb_refl. reflexivity.
  - destruct (key_eqb k' k) eqn:E; cbn; rewrite E; auto.
Qed.

Lemma filed_set_other (d : list (Key * Proto)) (k k0 : Key) (p : Proto) :
  k <> k0 ->
  filed (PP.dict_set key_eqb d k p) k0 = filed d k0.
Proof.
  intros N. induction d as [ | [k' p'] d IH ]; cbn.
  - rewrite (key_eqb_neq k k0 N). reflexivity.
  - destruct (key_eqb k' k) eqn:E; cbn.
    + apply key_eqb_eq in E. subst k'.
      rewrite (key_eqb_neq k k0 N). reflexivity.
    + rewrite IH. reflexivity.
Qed.

Lemma keys_set (d : list (Key * Proto)) (k : Key) (p : Proto) :
  NoDup (List.map fst d) ->
  NoDup (List.map fst (PP.dict_set key_eqb d k p))
  /\ (forall k0, In k0 (List.map fst (PP.dict_set key_eqb d k p))
                 <-> k0 = k \/ In k0 (List.map fst d)).
Proof.
  induction d as [ | [k' p'] d IH ]; cbn; intros ND.
  - split; [ repeat constructor; intros [] | ].
    intros k0. intuition congruence.
  - inversion ND as [ | ? ? NI ND' ]; subst.
    destruct (key_eqb k' k) eqn:E; cbn.
    + apply key_eqb_eq in E. subst k'. split; [ exact ND | ].
      intros k0. intuition congruence.
    + destruct (IH ND') as [ ND2 M ]. split.
      * constructor; [ | exact ND2 ]. intros I. apply M in I.
        destruct I as [ -> | I ]; [ | contradiction ].
        rewrite key_eqb_refl in E. discriminate.
      * intros k0. rewrite M. intuition congruence.
Qed.

Lemma well_filed_set (d : list (Key * Proto)) (k : Key) (p : Proto) :
  ident p = PP.HasId k -> well_filed d ->
  well_filed (PP.dict_set key_eqb d k p).
Proof.
  intros I [ ND W ]. split; [ apply keys_set, ND | ].
  clear ND. induction d as [ | [k' p'] d IH ]; cbn.
  - intros k0 p0 [ E | [] ]. congruence.
  - destruct (key_eqb k' k) eqn:E.
    + apply key_eqb_eq in E. subst k'.
      intros k0 p0 [ E0 | I0 ]; [ congruence | ].
      apply W. right. exact I0.
    + intros k0 p0 [ E0 | I0 ].
      * apply W. left. exact E0.
      * apply IH; [ | exact I0 ]. intros k1 p1 I1. apply W. right. exact I1.
Qed.

(** The loop keeps the dict well filed, and leaves under each key the
    last item that came with it. *)
Lemma collect_spec (ps : list Proto) :
  forall d d',
    PP.collect key_eqb ident d ps = Some d' ->
    well_filed d ->
    well_filed d'
    /\ (forall k, filed d' k
                  = match last_with k ps with
                    | Some p => Some p
                    | None => filed d k
                    end).
Proof.
  induction ps as [ | p ps IH ]; cbn; intros d d' C W.
  - injection C as <-. split; [ exact W | reflexivity ].
  - destruct (ident p) as [ | k0 | ] eqn:I; [ | | discriminate ].
    + destruct (IH d d' C W) as [ W' F ]. split; [ exact W' | ].
      intros k. rewrite F. destruct (last_with k ps); reflexivity.
    + destruct (IH _ d' C (well_filed_set d k0 p I W)) as [ W' F ].
      split; [ exact W' | ].
      intros k. rewrite F. destruct (last_with k ps); [ reflexivity | ].
      destruct (key_eqb k0 k) eqn:E.
      * apply key_eqb_eq in E. subst k0. apply filed_set_same.
      * apply filed_set_other. intros ->. rewrite key_eqb_refl in E.
        discriminate.
Qed.

Lemma filed_in (d : list (Key * Proto)) (k : Key) (p : Proto) :
  NoDup (List.map fst d) -> (In (k, p) d <-> filed d k = Some p).
Proof.
  induction d as [ | [k' p'] d IH ]; cbn; intros ND.
  - split; [ intros [] | discriminate ].
  - inversion ND as [ | ? ? NI ND' ]; subst.
    destruct (key_eqb k' k) eqn:E.
    + apply key_eqb_eq in E. subst k'. split.
      * intros [ E | I ]; [ congruence | ].
        exfalso. apply NI. apply (in_map fst) in I. exact I.
      * intros E. left. congruence.
    + rewrite <- (IH ND'). split.
      * intros [ E0 | I ]; [ | exact I ].
        injection E0 as -> ->. rewrite key_eqb_refl in E. discriminate.
      * intros I. right. exact I.
Qed.

Lemma last_with_in (k : Key) (ps : list Proto) (p : Proto) :
  last_with k ps = Some p -> In p ps /\ ident p = PP.HasId k.
Proof.
  induction ps as [ | q ps IH ]; cbn; [ discriminate | ].
  destruct (last_with k ps) as [ r | ].
  - intros E. injection E as ->. destruct (IH eq_refl). auto.
  - destruct (ident q) as [ | k' | ] eqn:I; try discriminate.
    destruct (key_eqb k' k) eqn:E; [ | discriminate ].
    apply key_eqb_eq in E. subst k'. intros E. injection E as ->. auto.
Qed.

Lemma last_with_some (k : Key) (ps : list Proto) (p : Proto) :
  In p ps -> ident p = PP.HasId k -> exists q, last_with k ps = Some q.
Proof.
  induction ps as [ | r ps IH ]; cbn; [ intros [] | ].
  intros [ -> | I ] H.
  - destruct (last_with k ps); [ eauto | ].
    rewrite H, key_eqb_refl. eauto.
  - destruct (IH I H) as (q & ->). eauto.
Qed.

(** The loop raises exactly when an item makes it. *)
Lemma collect_none (ps : list Proto) :
  forall d, PP.collect key_eqb ident d ps = None
            <-> exists p, In p ps /\ ident p = PP.BadItem.
Proof.
  induction ps as [ | p ps IH ]; cbn; intros d.
  - split; [ discriminate | intros (p & [] & _) ].
  - destruct (ident p) as [ | k | ] eqn:I.
    + rewrite IH. split; intros (q & H & B); exists q.
      * auto.
      * destruct H as [ -> | H ]; [ congruence | auto ].
    + rewrite IH. split; intros (q & H & B); exists q.
      * auto.
      * destruct H as [ -> | H ]; [ congruence | auto ].
    + split; [ intros _; exists p; auto | reflexivity ].
Qed.

(** X4: deduplication by id.  In the list it returns no two protocols
    have the same id, a protocol is in it exactly when it is the last
    one of the input with its id, and every id of the input is still
    there. *)
Theorem deduplicate_keeps_last (ps unique : list Proto) :
  PP.deduplicate key_eqb ident ps = Some unique ->
  NoDup (List.map ident unique)
  /\ (forall p, In p unique <-> exists k, last_with k ps = Some p)
  /\ (forall p k, In p ps -> ident p = PP.HasId k ->
                  exists q, In q unique /\ ident q = PP.HasId k).
Proof.
  unfold PP.deduplicate.
  destruct (PP.collect key_eqb ident [] ps) as [ d | ] eqn:C;
    [ | discriminate ].
  cbn. intros E. injection E as <-.
  assert (W0 : well_filed []).
  { split; [ constructor | intros k p [] ]. }
  destruct (collect_spec ps [] d C W0) as [ [ ND W ] F ].
  assert (M : forall p, In p (List.map snd d)
                        <-> exists k, last_with k ps = Some p).
  { intros p. split.
    - intros I. apply in_map_iff in I. destruct I as ([k q] & E & I).
      cbn in E. subst q. exists k.
      apply (filed_in d k p ND) in I. rewrite F in I.
      destruct (last_with k ps); [ exact I | discriminate ].
    - intros (k & L). apply in_map_iff. exists (k, p).
      split; [ reflexivity | ].
      apply (filed_in d k p ND). rewrite F, L. reflexivity. }
  split; [ | split ].
  - clear F M C. induction d as [ | [k p] d IH ]; cbn; [ constructor | ].
    inversion ND as [ | ? ? NI ND' ]; subst.
    constructor.
    + intros I. apply in_map_iff in I. destruct I as (q & E & I).
      apply in_map_iff in I. destruct I as ([k' q'] & E' & I). cbn in E'.
      subst q'. rewrite (W k p (or_introl eq_refl)) in E.
      rewrite (W k' q (or_intror I)) in E. injection E as ->.
      apply NI. apply (in_map fst) in I. exact I.
    + apply IH; [ exact ND' | ]. intros k0 p0 I0. apply W. right. exact I0.
  - exact M.
  - intros p k I H. destruct (last_with_some k ps p I H) as (q & L).
    exists q. split; [ apply M; eauto | ].
    apply (last_with_in k ps q L).
Qed.

End Dedup.

Lemma str_eqb_eq (a b : str) : str_eqb a b = true <-> a = b.
Proof.
  unfold str_eqb. destruct (list_eq_dec N.eq_dec a b); split;
    intros; congruence.
Qed.

Lemma deduplicate_keeps_last_witness :
  PP.deduplicate str_eqb protocol_id
    [ DataPipeline.hemorrhage; cpr; hemorrhage_revised ]
  = Some [ hemorrhage_revised; cpr ]
  /\ NoDup (List.map protocol_id [ hemorrhage_revised; cpr ]).
Proof.
  split; [ reflexivity | ].
  apply (deduplicate_keeps_last str_eqb protocol_id str_eqb_eq
           [ DataPipeline.hemorrhage; cpr; hemorrhage_revised ]
           [ hemorrhage_revised; cpr ]).
  reflexivity.
Defined.

(* --------------------------------------------------------------------- *)
(** ** The pipeline: requests, fallback and output *)
(* --------------------------------------------------------------------- *)

Section PipelineFacts.

Context {Key Proto : Type}.
Variable key_eqb : Key -> Key -> bool.
Variable ident : Proto -> PP.id_of Key.
Variable env : PP.Env Proto.

Lemma completions_app (t u : list (PP.event Proto)) :
  PP.completions (t ++ u) = PP.completions t ++ PP.completions u.
Proof.
  induction t as [ | e t IH ]; [ reflexivity | ].
  destruct e; cbn; rewrite ?IH; reflexivity.
Qed.

Lemma requested_app (t u : list (PP.event Proto)) :
  PP.requested (t ++ u) = PP.requested t ++ PP.requested u.
Proof.
  induction t as [ | e t IH ]; [ reflexivity | ].
  destruct e; cbn; rewrite ?IH; reflexivity.
Qed.

Lemma dumped_app (t u : list (PP.event Proto)) :
  PP.dumped (t ++ u) = PP.dumped t ++ PP.dumped u.
Proof.
  induction t as [ | e t IH ]; [ reflexivity | ].
  destruct e; cbn; rewrite ?IH; reflexivity.
Qed.

(** One chunk: one completion, nothing else leaves the process. *)
Lemma extract_chunk_trace (i : nat) (chunk : str) :
  PP.completions (snd (PP.extract_chunk env i chunk)) = [ chunk ]
  /\ PP.requested (snd (PP.extract_chunk env i chunk)) = []
  /\ PP.dumped (snd (PP.extract_chunk env i chunk)) = [].
Proof.
  unfold PP.extract_chunk.
  destruct (PP.complete env chunk) as [ content | e ];
    [ destruct (PP.loads_protocols env (PP.unfence content))
        as [ [ ps | ] | e ] | ];
    repeat split; reflexivity.
Qed.

Lemma extract_chunks_trace (chunks : list str) (i : nat) :
  PP.completions (snd (PP.extract_chunks env i chunks)) = chunks
  /\ PP.requested (snd (PP.extract_chunks env i chunks)) = []
  /\ PP.dumped (snd (PP.extract_chunks env i chunks)) = [].
Proof.
  revert i. induction chunks as [ | chunk rest IH ]; intros i;
    [ repeat split; reflexivity | ].
  cbn [PP.extract_chunks].
  destruct (extract_chunk_trace i chunk) as (C & R & D).
  destruct (PP.extract_chunk env i chunk) as [ ps t ].
  destruct (IH (S i)) as (C' & R' & D').
  destruct (PP.extract_chunks env (S i) rest) as [ qs u ].
  cbn [snd] in *.
  rewrite completions_app, requested_app, dumped_app, C, C', R, R', D, D'.
  repeat split; reflexivity.
Qed.

Lemma extract_chunks_yield (chunks : list str) (i : nat) :
  fst (PP.extract_chunks env i chunks) = List.concat (List.map (yield env) chunks).
Proof.
  revert i. induction chunks as [ | chunk rest IH ]; intros i;
    [ reflexivity | ].
  cbn [PP.extract_chunks List.map List.concat].
  specialize (IH (S i)).
  assert (Y : fst (PP.extract_chunk env i chunk) = yield env chunk).
  { unfold PP.extract_chunk, yield.
    destruct (PP.complete env chunk) as [ content | e ];
      [ destruct (PP.loads_protocols env (PP.unfence content))
          as [ [ ps | ] | e ] | ]; reflexivity. }
  destruct (PP.extract_chunk env i chunk) as [ ps t ].
  destruct (PP.extract_chunks env (S i) rest) as [ qs u ].
  cbn [fst] in *. congruence.
Qed.

Lemma process_trace (raw_text : str) :
  PP.requested (snd (PP.process_text_into_protocols key_eqb ident env raw_text))
    = []
  /\ PP.dumped (snd (PP.process_text_into_protocols key_eqb ident env raw_text))
    = [].
Proof.
  unfold PP.process_text_into_protocols.
  destruct (PP.key_given env); [ | split; reflexivity ].
  destruct (extract_chunks_trace
              (PP.split_chunks PP.CHUNK_SIZE PP.overlap raw_text) 0)
    as (_ & R & D).
  destruct (PP.extract_chunks env 0 _) as [ [ | p all ] t ]; cbn [snd] in *.
  - rewrite requested_app, dumped_app, R, D. split; reflexivity.
  - destruct (PP.deduplicate key_eqb ident (p :: all)); split; assumption.
Qed.

(** X5: with an API key, [process_text_into_protocols] sends one
    completion request for every chunk of the text, in order, whatever
    the model answers: a chunk that fails does not stop the loop. *)
Theorem every_chunk_is_asked (raw_text : str) :
  PP.key_given env = true ->
  PP.completions
    (snd (PP.process_text_into_protocols key_eqb ident env raw_text))
  = PP.split_chunks PP.CHUNK_SIZE PP.overlap raw_text.
Proof.
  intros K. unfold PP.process_text_into_protocols. rewrite K.
  destruct (extract_chunks_trace
              (PP.split_chunks PP.CHUNK_SIZE PP.overlap raw_text) 0)
    as (C & _ & _).
  destruct (PP.extract_chunks env 0 _) as [ [ | p all ] t ]; cbn [snd] in *.
  - rewrite completions_app, C. cbn. apply app_nil_r.
  - destruct (PP.deduplicate key_eqb ident (p :: all)); exact C.
Qed.

(** X6: without an API key, or when no chunk yields a protocol (the
    request fails, the answer is not JSON, or it has no ["protocols"]
    list), [process_text_into_protocols] returns the placeholder
    document. *)
Theorem nothing_extracted_gives_placeholder (raw_text : str) :
  (PP.key_given env = false
   \/ Forall (fun chunk => yield env chunk = [])
        (PP.split_chunks PP.CHUNK_SIZE PP.overlap raw_text)) ->
  fst (PP.process_text_into_protocols key_eqb ident env raw_text)
  = Return (PP.Placeholder DataPipeline.get_placeholder_data).
Proof.
  unfold PP.process_text_into_protocols.
  destruct (PP.key_given env); intros [ K | F ]; try discriminate;
    try reflexivity.
  pose proof (extract_chunks_yield
                (PP.split_chunks PP.CHUNK_SIZE PP.overlap raw_text) 0) as Y.
  destruct (PP.extract_chunks env 0 _) as [ all t ]. cbn [fst] in Y.
  assert (E : all = []).
  { rewrite Y. clear Y.
    induction F as [ | chunk rest H F IH ]; [ reflexivity | ].
    cbn. rewrite H, IH. reflexivity. }
  rewrite E. reflexivity.
Qed.

Lemma gather_spec (urls : list (str * str)) (all_text : str) :
  fst (PP.gather env urls all_text)
    = all_text ++ List.concat (List.map (fun nu => text_of env (snd nu)) urls)
  /\ PP.requested (snd (PP.gather env urls all_text)) = List.map snd urls
  /\ PP.completions (snd (PP.gather env urls all_text)) = []
  /\ PP.dumped (snd (PP.gather env urls all_text)) = [].
Proof.
  revert all_text. induction urls as [ | [name url] rest IH ]; intros all_text.
  - cbn. rewrite app_nil_r. repeat split; reflexivity.
  - cbn [PP.gather List.map List.concat snd]. unfold PP.download_pdf, text_of.
    destruct (PP.fetch env url) as [ content | e ].
    + assert (X : PP.requested (snd (PP.extract_text_from_pdf env (Some content))) = []
                  /\ PP.completions (snd (PP.extract_text_from_pdf env (Some content))) = []
                  /\ PP.dumped (snd (PP.extract_text_from_pdf env (Some content))) = []).
      { unfold PP.extract_text_from_pdf.
        destruct (PP.read_pages env content) as [ pages | e ];
          [ destruct (PP.read_all pages []) | ]; repeat split; reflexivity. }
      destruct X as (XR & XC & XD).
      destruct (PP.extract_text_from_pdf env (Some content)) as [ text u ].
      destruct (IH (all_text ++ text)) as (T & R & C & D).
      destruct (PP.gather env rest (all_text ++ text)) as [ final v ].
      cbn [fst snd] in *.
      rewrite !requested_app, !completions_app, !dumped_app, XR, XC, XD,
        R, C, D, T.
      rewrite <- app_assoc. repeat split; reflexivity.
    + destruct (IH all_text) as (T & R & C & D).
      destruct (PP.gather env rest all_text) as [ final v ].
      cbn [fst snd] in *.
      rewrite !requested_app, !completions_app, !dumped_app, R, C, D, T.
      repeat split; reflexivity.
Qed.



Lemma read_all_ok (texts : list str) (acc : str) :
  PP.read_all (List.map Ok texts) acc
  = Ok (acc ++ List.concat (List.map (fun t => t ++ [10%N]) texts)).
Proof.
  revert acc. induction texts as [ | t texts IH ]; intros acc; cbn.
  - rewrite app_nil_r. reflexivity.
  - rewrite IH. rewrite <- !app_assoc. reflexivity.
Qed.

Lemma read_all_fails (pages : list (reply str)) (acc : str) :
  (exists e, In (Fails e) pages) -> exists e, PP.read_all pages acc = Fails e.
Proof.
  revert acc. induction pages as [ | [ t | e ] pages IH ]; intros acc (e0 & I).
  - destruct I.
  - cbn. apply IH. destruct I as [ E | I ]; [ discriminate | eauto ].
  - cbn. eauto.
Qed.

(** X9: [extract_text_from_pdf] gives every page's text followed by a
    newline when all pages can be read, and the empty string, with an
    error logged, as soon as one page fails: text already read is
    dropped. *)
Theorem extract_text_all_or_nothing (stream : bytes)
    (pages : list (reply str)) :
  PP.read_pages env stream = Ok pages ->
  (forall texts,
      pages = List.map Ok texts ->
      PP.extract_text_from_pdf env (Some stream)
      = (List.concat (List.map (fun t => t ++ [10%N]) texts),
         [ PP.ReadPdf stream ]))
  /\ ((exists e, In (Fails e) pages) ->
      exists e,
        PP.extract_text_from_pdf env (Some stream)
        = ([], [ PP.ReadPdf stream;
                 PP.Logged ERROR (lit "Failed to extract text: " ++ e) ])).
Proof.
  intros R. unfold PP.extract_text_from_pdf. rewrite R. split.
  - intros texts ->. rewrite read_all_ok. reflexivity.
  - intros F. destruct (read_all_fails pages [] F) as (e & ->).
    exists e. reflexivity.
Qed.

End PipelineFacts.

Lemma every_chunk_is_asked_witness :
  PP.completions
    (snd (PP.process_text_into_protocols str_eqb protocol_id muted
            (lit "Apply a tourniquet.")))
  = PP.split_chunks PP.CHUNK_SIZE PP.overlap (lit "Apply a tourniquet.").
Proof.
  apply (every_chunk_is_asked str_eqb protocol_id muted). reflexivity.
Defined.

Lemma nothing_extracted_gives_placeholder_witness :
  fst (PP.process_text_into_protocols str_eqb protocol_id stranded
         (lit "Apply a tourniquet."))
  = Return (PP.Placeholder DataPipeline.get_placeholder_data).
Proof.
  apply (nothing_extracted_gives_placeholder str_eqb protocol_id stranded).
  left. reflexivity.
Defined.



Lemma extract_text_all_or_nothing_witness :
  PP.extract_text_from_pdf muted (Some [37%N; 80%N; 68%N; 70%N])
  = (lit "Apply a tourniquet." ++ [10%N] ++ lit "Note the time." ++ [10%N],
     [ PP.ReadPdf [37%N; 80%N; 68%N; 70%N] ]).
Proof.
  destruct (extract_text_all_or_nothing muted [37%N; 80%N; 68%N; 70%N]
              [ Ok (lit "Apply a tourniquet."); Ok (lit "Note the time.") ]
              eq_refl) as [ A _ ].
  apply (A [ lit "Apply a tourniquet."; lit "Note the time." ]). reflexivity.
Defined.

(* --------------------------------------------------------------------- *)
(** ** The pipeline: markdown fences around the model's answer *)
(* --------------------------------------------------------------------- *)

Lemma startswith_app (p rest : str) : startswith (p ++ rest) p = true.
Proof.
  induction p as [ | c p IH ]; [ destruct rest; reflexivity | ].
  cbn [app startswith]. rewrite N.eqb_refl, IH. reflexivity.
Qed.

Lemma contains_unfold (p s : str) :
  contains p s
  = startswith s p || match s with [] => false | _ :: s' => contains p s' end.
Proof. destruct s; reflexivity. Qed.

Lemma contains_app (p pre rest : str) :
  contains p (pre ++ p ++ rest) = true.
Proof.
  induction pre as [ | c pre IH ].
  - cbn [app]. rewrite contains_unfold, startswith_app. reflexivity.
  - cbn [app contains]. rewrite IH. apply orb_true_r.
Qed.

Lemma head_not_tick (c : N) (s p : str) :
  negb (N.eqb 96 c) = true -> startswith (c :: s) (96%N :: p) = false.
Proof.
  intros H. apply negb_true_iff in H. cbn [startswith]. rewrite H.
  reflexivity.
Qed.

Lemma tick_free_no_start (s p : str) :
  tick_free s = true -> startswith s (96%N :: p) = false.
Proof.
  destruct s as [ | c s ]; [ reflexivity | ].
  cbn [tick_free forallb]. intros H. apply andb_prop in H as [ H _ ].
  apply head_not_tick, H.
Qed.

Section Split.

(** A separator that begins with a backtick. *)
Variable sep' : str.

Lemma split_walk (pre s cur : str) :
  tick_free pre = true ->
  PP.split_from 0 (96%N :: sep') (pre ++ s) cur
  = PP.split_from 0 (96%N :: sep') s (cur ++ pre).
Proof.
  revert cur. induction pre as [ | c pre IH ]; intros cur T.
  - rewrite app_nil_r. reflexivity.
  - cbn [tick_free forallb] in T. apply andb_prop in T as [ Tc T ].
    cbn [app PP.split_from].
    rewrite (head_not_tick c (pre ++ s) sep' Tc).
    rewrite (IH (cur ++ [c]) T), <- app_assoc. reflexivity.
Qed.

Lemma split_skip (pre s cur : str) :
  PP.split_from (List.length pre) (96%N :: sep') (pre ++ s) cur
  = PP.split_from 0 (96%N :: sep') s cur.
Proof.
  induction pre as [ | c pre IH ]; [ reflexivity | exact IH ].
Qed.

Lemma split_hit (s cur : str) :
  PP.split_from 0 (96%N :: sep') ((96%N :: sep') ++ s) cur
  = cur :: PP.split_from 0 (96%N :: sep') s [].
Proof.
  cbn [app PP.split_from].
  change (96%N :: sep' ++ s) with ((96%N :: sep') ++ s).
  rewrite startswith_app.
  replace (List.length (96%N :: sep') - 1) with (List.length sep')
    by (cbn [List.length]; lia).
  rewrite split_skip. reflexivity.
Qed.

Lemma split_plain (s cur : str) :
  tick_free s = true ->
  PP.split_from 0 (96%N :: sep') s cur = [ cur ++ s ].
Proof.
  intros T. rewrite <- (app_nil_r s) at 1. rewrite (split_walk s [] cur T).
  reflexivity.
Qed.

Lemma first_piece (s cur : str) (k : nat) :
  exists more, nth 0 (PP.split_from k (96%N :: sep') s cur) [] = cur ++ more.
Proof.
  revert cur k. induction s as [ | c s IH ]; intros cur k.
  - exists []. cbn. rewrite app_nil_r. reflexivity.
  - cbn [PP.split_from]. destruct k as [ | k ]; [ | apply IH ].
    destruct (startswith (c :: s) (96%N :: sep')).
    + exists []. cbn. rewrite app_nil_r. reflexivity.
    + destruct (IH (cur ++ [c]) 0) as (more & E). rewrite E.
      exists (c :: more). rewrite <- app_assoc. reflexivity.
Qed.

End Split.

Lemma fence_json_shape : PP.fence_json = 96%N :: (96%N :: 96%N :: lit "json").
Proof. reflexivity. Qed.

Lemma fence_shape : PP.fence = 96%N :: [96%N; 96%N].
Proof. reflexivity. Qed.

(** The piece that follows the opening fence: the body, alone or
    followed by the closing fence. *)
Lemma body_piece (body suffix : str) :
  tick_free body = true -> tick_free suffix = true ->
  exists more,
    nth 0 (PP.split_from 0 PP.fence_json (body ++ PP.fence ++ suffix) []) []
    = body ++ more
    /\ (more = [] \/ exists rest, more = PP.fence ++ rest).
Proof.
  intros B S. rewrite fence_json_shape, split_walk by exact B.
  cbn [app]. rewrite fence_shape. cbn [app PP.split_from].
  destruct (startswith (96%N :: 96%N :: 96%N :: suffix)
              (96%N :: 96%N :: 96%N :: lit "json")) eqn:J.
  - exists []. split; [ cbn; rewrite app_nil_r; reflexivity | left; reflexivity ].
  - cbn [startswith]. rewrite !N.eqb_refl. cbn [andb].
    rewrite !(tick_free_no_start suffix _ S).
    destruct (first_piece (96%N :: 96%N :: lit "json") suffix
                (((body ++ [96%N]) ++ [96%N]) ++ [96%N]) 0) as (more & E).
    rewrite E. exists ([96%N; 96%N; 96%N] ++ more). split.
    + rewrite <- !app_assoc. reflexivity.
    + right. exists more. reflexivity.
Qed.

(** X10: a model answer that wraps its JSON in a json code fence is
    reduced to the stripped text between the opening fence and the
    closing one, whatever prose surrounds the block (no backtick in
    prose or body). *)
Theorem unfence_fenced_json (prefix body suffix : str) :
  tick_free prefix = true ->
  tick_free body = true ->
  tick_free suffix = true ->
  PP.unfence (prefix ++ PP.fence_json ++ body ++ PP.fence ++ suffix)
  = strip body.
Proof.
  intros P B S. unfold PP.unfence. rewrite contains_app.
  unfold PP.split at 2, PP.item at 2.
  rewrite fence_json_shape at 1 2.
  rewrite split_walk by exact P. rewrite split_hit.
  cbn [nth]. rewrite <- fence_json_shape.
  destruct (body_piece body suffix B S) as (more & E & M).
  rewrite E. unfold PP.split, PP.item. rewrite fence_shape.
  destruct M as [ -> | (rest & ->) ].
  - rewrite app_nil_r, split_plain by exact B. reflexivity.
  - rewrite split_walk by exact B. rewrite fence_shape, split_hit.
    reflexivity.
Qed.

(** An answer without a backtick is handed to the parser as it is, not
    stripped. *)
Lemma unfence_plain (content : str) :
  tick_free content = true -> PP.unfence content = content.
Proof.
  intros T. unfold PP.unfence.
  assert (N : forall p, contains (96%N :: p) content = false).
  { intros p. induction content as [ | c s IH ]; [ reflexivity | ].
    cbn [contains]. rewrite (tick_free_no_start (c :: s) p T).
    cbn [tick_free forallb] in T. apply andb_prop in T as [ _ T ].
    rewrite (IH T). reflexivity. }
  rewrite fence_json_shape, fence_shape, !N. reflexivity.
Qed.

Lemma unfence_fenced_json_witness :
  PP.unfence (lit "Here you go: " ++ PP.fence_json ++ lit " {} " ++ PP.fence
                ++ lit " Anything else?")
  = lit "{}".
Proof.
  apply (unfence_fenced_json (lit "Here you go: ") (lit " {} ")
           (lit " Anything else?")); reflexivity.
Defined.

(* --------------------------------------------------------------------- *)
(** ** The bridge: one session, from token to close *)
(* --------------------------------------------------------------------- *)

Lemma logged_app (lv : level) (t1 t2 : list effect) :
  Trace.logged lv (t1 ++ t2) = Trace.logged lv t1 ++ Trace.logged lv t2.
Proof.
  induction t1 as [ | e t1 IH ]; [ reflexivity | ].
  destruct e as [ [ | ] msg | | | | | | | | | | ]; destruct lv; cbn;
    rewrite ?IH; reflexivity.
Qed.

Section Closing.

Context {Callback : Type}.
Variable w : World.t.

(** X11: [connect_and_stream] is its body inside one [try] statement,
    and however that body ends (by returning, by an exception or by
    cancellation; at the token request, at [room.connect] or in the
    keep-alive loop), the call returns normally once the room lets
    itself be disconnected: an exception is logged as a connection
    error, a cancellation is not, [close] has run on the state the
    body left (room, source and track are released), and the room the
    body left is disconnected once. *)
Theorem connect_and_stream_always_closes :
  (exists body : M (VB.t Callback) unit,
      VB.connect_and_stream w = guarded w body)
  /\ forall (body : M (VB.t Callback) unit) (self : VB.t Callback),
       World.room_disconnect w = Ok tt ->
       let inner := body self in
       let run := guarded w body self in
       result run = Return tt
       /\ after run = VB.release (after inner)
       /\ Trace.logged ERROR (trace run)
          = Trace.logged ERROR (trace inner)
              ++ match result inner with
                 | Raise (Exception e) => [ lit "Connection Error: " ++ e ]
                 | _ => []
                 end
       /\ Trace.count is_disconnect (trace run)
          = Trace.count is_disconnect (trace inner)
            + match VB.room (after inner) with
              | Some _ => 1
              | None => 0
              end.
Proof.
  split.
  - unfold VB.connect_and_stream, guarded. eexists. reflexivity.
  - intros body self D inner run. subst inner run.
    unfold guarded, try_finally, try_except, try_cancelled, VB.close.
    destruct (body self) as [ [ r s1 ] t1 ].
    run_monad. rewrite D.
    destruct r as [ [] | [ e | ] ];
      destruct (VB._mic_task s1), (VB._audio_stream_task s1),
        (VB.room s1) eqn:R;
      cbn [result after trace fst snd];
      (split; [ reflexivity | ]); (split; [ reflexivity | ]);
      rewrite ?logged_app, ?count_app, ?R; cbn; rewrite ?app_nil_r;
      split; first [ reflexivity | lia ].
Qed.

End Closing.

Section Session.

Context {Callback : Type}.
Variable w : World.t.
Variable self : VB.t Callback.

(** X12: when the token service answers with both fields and
    [room.connect] fails, the failure is logged as a connection
    error, the keep-alive loop is never entered, the room that had
    been created is disconnected and released, and the call returns
    normally. *)
Theorem connect_failure_is_logged_and_closed (key : str) (d : dict)
    (url token : value) (e : str) :
  VB.key_present self = Some key ->
  World.token_service w = Ok (JObject d) ->
  lookup d (lit "livekit_url") = Some url ->
  lookup d (lit "token") = Some token ->
  World.room_connect w url token = Fails e ->
  World.room_disconnect w = Ok tt ->
  let run := VB.connect_and_stream w self in
  result run = Return tt
  /\ Trace.logged ERROR (trace run) = [ lit "Connection Error: " ++ e ]
  /\ Trace.count is_sleep (trace run) = 0
  /\ Trace.count is_disconnect (trace run) = 1
  /\ VB.room (after run) = None
  /\ VB.active (after run) = VB.active self.
Proof.
  intros K T U Tk C D run. subst run.
  assert (NE : json_truthy (JObject d) = true).
  { destruct d; [ discriminate U | reflexivity ]. }
  unfold VB.connect_and_stream. run_monad.
  unfold VB.get_token. rewrite K. run_monad. rewrite T.
  cbv beta iota. rewrite NE. cbn [negb]. cbv beta iota.
  rewrite U, Tk. cbv beta iota. rewrite C. cbv beta iota.
  unfold VB.close. run_monad.
  cbn [VB.set_room VB.room VB._mic_task VB._audio_stream_task].
  rewrite D.
  destruct (VB._mic_task self), (VB._audio_stream_task self);
    cbn [result after trace fst snd app];
    repeat (split; [ first [ reflexivity | count_trace ] | ]);
    reflexivity.
Qed.

(** X13: token data without [livekit_url] or without [token] (or that
    is no object at all) never leads to a connect call or to the
    keep-alive loop, and the call still returns normally. *)
Theorem unusable_credentials_never_connect (j : json) :
  World.token_service w = Ok j ->
  usable j = false ->
  Trace.count Trace.is_connect (trace (VB.connect_and_stream w self)) = 0
  /\ Trace.count is_sleep (trace (VB.connect_and_stream w self)) = 0
  /\ (World.room_disconnect w = Ok tt ->
      result (VB.connect_and_stream w self) = Return tt).
Proof.
  intros T U.
  assert (F : forall (r : outcome unit) (s : VB.t Callback) (t : list effect),
             r = Return tt \/ r = Raise CancelledError
             \/ (exists e, r = Raise (Exception e)) ->
             Trace.count Trace.is_connect t = 0 ->
             Trace.count is_sleep t = 0 ->
             let run :=
               try_finally
                 (try_except (try_cancelled (fun _ => (r, s, t)))
                    (fun e => emit (Log ERROR (lit "Connection Error: " ++ e))))
                 (VB.close w) self in
             Trace.count Trace.is_connect (trace run) = 0
             /\ Trace.count is_sleep (trace run) = 0
             /\ (World.room_disconnect w = Ok tt -> result run = Return tt)).
  { intros r s t R C1 C2. unfold VB.close. run_monad.
    destruct R as [ -> | [ -> | (e & ->) ] ]; cbv beta iota;
      destruct (VB._mic_task s), (VB._audio_stream_task s), (VB.room s),
        (World.room_disconnect w) as [ [] | what ];
      cbn [result trace fst snd];
      rewrite ?count_app, ?C1, ?C2;
      repeat (split; [ first [ reflexivity | count_trace ] | ]);
      first [ reflexivity | intros H; first [ reflexivity | discriminate H ] ]. }
  unfold VB.connect_and_stream.
  match goal with
  | |- context [ try_cancelled ?body ] =>
      assert (B : exists r s t,
                 body self = (r, s, t)
                 /\ (r = Return tt \/ r = Raise CancelledError
                     \/ exists e, r = Raise (Exception e))
                 /\ Trace.count Trace.is_connect t = 0
                 /\ Trace.count is_sleep t = 0)
  end.
  { run_monad. unfold VB.get_token.
    destruct (VB.key_present self) as [ key | ];
      [ | do 3 eexists; split; [ reflexivity | ];
          split; [ left; reflexivity | split; reflexivity ] ].
    run_monad. rewrite T. cbv beta iota. unfold usable in U.
    destruct j as [ d | [ | ] ]; cbn [json_truthy negb]; cbv beta iota.
    - destruct d as [ | kv d ];
        [ do 3 eexists; split; [ reflexivity | ];
          split; [ left; reflexivity | split; reflexivity ] | ].
      cbv beta iota.
      destruct (lookup (kv :: d) (lit "livekit_url")) as [ url | ];
        [ destruct (lookup (kv :: d) (lit "token")) as [ token | ];
          [ discriminate U | ] | ];
        do 3 eexists; (split; [ reflexivity | ]);
        (split; [ right; right; eexists; reflexivity | split; reflexivity ]).
    - do 3 eexists; split; [ reflexivity | ].
      split; [ right; right; eexists; reflexivity | split; reflexivity ].
    - do 3 eexists; split; [ reflexivity | ].
      split; [ left; reflexivity | split; reflexivity ]. }
  destruct B as (r & s & t & E & R & C1 & C2).
  specialize (F r s t R C1 C2). cbv zeta in F.
  unfold try_finally, try_except, try_cancelled in *.
  rewrite E. exact F.
Qed.

(** X14: [publish_context] never raises and never changes the client.
    Without a room that has its local participant it only logs a
    warning; a text that cannot be encoded (a lone surrogate) is
    logged with the encoder's message and nothing is published;
    otherwise the text is published once, and a failure of that call
    is logged. *)
Theorem publish_context_is_best_effort (text : str) :
  exists tr,
    VB.publish_context w text self = (Return tt, self, tr)
    /\ Trace.count is_publish tr
       = (if ready self
          then match encode_error text with Some _ => 0 | None => 1 end
          else 0)
    /\ (ready self = false ->
        tr = [ Log WARNING (lit "Room not connected. Cannot publish context.") ])
    /\ (forall what, ready self = true -> encode_error text = Some what ->
        tr = [ Log ERROR (lit "Failed to publish data: " ++ what) ])
    /\ (forall e, ready self = true -> encode_error text = None ->
        World.publish_data w text = Fails e ->
        tr = [ PublishData text;
               Log ERROR (lit "Failed to publish data: " ++ e) ])
    /\ (ready self = true -> encode_error text = None ->
        World.publish_data w text = Ok tt ->
        tr = [ PublishData text ]).
Proof.
  unfold VB.publish_context, ready. run_monad.
  destruct (VB.room self) as [ [cs [ lp | ] ] | ];
    try (eexists; split; [ reflexivity | ];
         repeat split; try reflexivity; intros; discriminate).
  destruct (encode_error text) as [ what | ].
  - eexists; split; [ reflexivity | ].
    repeat split; try reflexivity; intros;
      try match goal with H : Some _ = Some _ |- _ => injection H as <- end;
      first [ reflexivity | discriminate ].
  - destruct (World.publish_data w text) as [ [] | what ];
      eexists; (split; [ reflexivity | ]);
      repeat split; try reflexivity; intros;
      try match goal with H : Fails _ = Fails _ |- _ => injection H as <- end;
      first [ reflexivity | congruence ].
Qed.

(** X15: [close] releases the room, the source and the track (the
    task handles stay), and disconnects the room exactly when there
    was one; a second [close] changes nothing and disconnects
    nothing. *)
Theorem close_twice :
  World.room_disconnect w = Ok tt ->
  let once := VB.close w self in
  let twice := VB.close w (after once) in
  result once = Return tt
  /\ after once = VB.release self
  /\ result twice = Return tt
  /\ after twice = after once
  /\ Trace.count is_disconnect (trace twice) = 0
  /\ Trace.count is_disconnect (trace once)
     = match VB.room self with Some _ => 1 | None => 0 end.
Proof.
  intros D once twice. subst twice once.
  unfold VB.close. run_monad. rewrite D.
  destruct self as [ url key [ r | ] src trk cb [ a | ] [ m | ] act ];
    cbn; repeat split; reflexivity.
Qed.

End Session.

Lemma connect_and_stream_always_closes_witness :
  let run := VB.connect_and_stream dropping keyed_bridge in
  result run = Return tt
  /\ VB.room (after run) = None
  /\ VB.source (after run) = None
  /\ VB.track (after run) = None.
Proof.
  destruct (connect_and_stream_always_closes (Callback := unit) dropping)
    as [ (body & E) H ].
  rewrite E.
  destruct (H body keyed_bridge eq_refl) as (R & A & _).
  cbv zeta. rewrite R, A. repeat split.
Defined.

Lemma connect_failure_is_logged_and_closed_witness :
  let run := VB.connect_and_stream unreachable keyed_bridge in
  result run = Return tt
  /\ Trace.logged ERROR (trace run)
     = [ lit "Connection Error: " ++ lit "timed out" ]
  /\ Trace.count is_sleep (trace run) = 0
  /\ Trace.count is_disconnect (trace run) = 1
  /\ VB.room (after run) = None
  /\ VB.active (after run) = VB.active keyed_bridge.
Proof.
  apply (connect_failure_is_logged_and_closed unreachable keyed_bridge
           (lit "vb_test_key") credentials
           (VStr (lit "wss://savant.livekit.cloud"))
           (VStr (lit "eyJhbGciOi")) (lit "timed out"));
    reflexivity.
Defined.

Lemma unusable_credentials_never_connect_witness :
  Trace.count Trace.is_connect
    (trace (VB.connect_and_stream half_answering keyed_bridge)) = 0
  /\ result (VB.connect_and_stream half_answering keyed_bridge) = Return tt.
Proof.
  destruct (unusable_credentials_never_connect half_answering keyed_bridge
              half_credentials eq_refl eq_refl) as (C & _ & R).
  split; [ exact C | exact (R eq_refl) ].
Defined.

Lemma publish_context_is_best_effort_witness :
  VB.publish_context offline (lit "Bleeding from the left arm") keyed_bridge
  = (Return tt, keyed_bridge,
     [ Log WARNING (lit "Room not connected. Cannot publish context.") ])
  /\ VB.publish_context dropping [ 0xDC80%N ] (CM.voice_bridge live_manager)
     = (Return tt, CM.voice_bridge live_manager,
        [ Log ERROR
            (lit "Failed to publish data: 'utf-8' codec can't encode character '\udc80' in position 0: surrogates not allowed") ]).
Proof.
  split.
  - destruct (publish_context_is_best_effort offline keyed_bridge
                (lit "Bleeding from the left arm")) as (tr & E & _ & W & _).
    rewrite E, (W eq_refl). reflexivity.
  - destruct (publish_context_is_best_effort dropping
                (CM.voice_bridge live_manager) [ 0xDC80%N ])
      as (tr & E & _ & _ & S & _).
    rewrite E, (S _ eq_refl eq_refl). reflexivity.
Defined.

Lemma close_twice_witness :
  let once := VB.close dropping (CM.voice_bridge live_manager) in
  let twice := VB.close dropping (after once) in
  result once = Return tt
  /\ after once = VB.release (CM.voice_bridge live_manager)
  /\ result twice = Return tt
  /\ after twice = after once
  /\ Trace.count is_disconnect (trace twice) = 0
  /\ Trace.count is_disconnect (trace once) = 1.
Proof.
  apply (close_twice dropping (CM.voice_bridge live_manager)). reflexivity.
Defined.

(* --------------------------------------------------------------------- *)
(** ** The codec's error reports *)
(* --------------------------------------------------------------------- *)

Lemma option_map_none {A B} (f : A -> B) (o : option A) :
  option_map f o = None <-> o = None.
Proof. destruct o; cbn; split; congruence. Qed.

Ltac n_facts :=
  unfold between, is_cont in *;
  repeat match goal with
         | H : (_ && _)%bool = true |- _ => apply andb_prop in H; destruct H
         | H : (_ && _)%bool = false |- _ =>
             apply andb_false_iff in H; destruct H
         | H : N.ltb _ _ = true |- _ => apply N.ltb_lt in H
         | H : N.ltb _ _ = false |- _ => apply N.ltb_ge in H
         | H : N.leb _ _ = true |- _ => apply N.leb_le in H
         | H : N.leb _ _ = false |- _ => apply N.leb_gt in H
         end.

(** The two readings of the decoder agree: it fails exactly when it
    has an error to report. *)
Lemma utf8_error_spec (n : nat) :
  forall bs pos,
    List.length bs <= n ->
    (decode_utf8 bs = None <-> utf8_error pos bs <> None).
Proof.
  induction n as [ | n IH ]; intros bs pos L.
  - destruct bs; [ cbn; split; [ discriminate | congruence ] | cbn in L; lia ].
  - destruct bs as [ | b0 r0 ];
      [ cbn; split; [ discriminate | congruence ] | ].
    cbn [List.length] in L.
    cbn [decode_utf8 utf8_error].
    destruct (N.ltb b0 128) eqn:A1.
    { rewrite option_map_none. apply IH. lia. }
    destruct (between 194 b0 223) eqn:A2.
    { assert (X1 : N.ltb b0 194 = false) by (n_facts; apply N.ltb_ge; lia).
      assert (X2 : N.ltb b0 224 = true) by (n_facts; apply N.ltb_lt; lia).
      rewrite X1, X2.
      destruct r0 as [ | b1 r1 ]; [ split; [ discriminate | reflexivity ] | ].
      destruct (is_cont b1).
      - rewrite option_map_none. apply IH. cbn in L. lia.
      - split; [ discriminate | reflexivity ]. }
    destruct (between 224 b0 239) eqn:A3.
    { assert (X1 : N.ltb b0 194 = false) by (n_facts; apply N.ltb_ge; lia).
      assert (X2 : N.ltb b0 224 = false) by (n_facts; apply N.ltb_ge; lia).
      assert (X3 : N.ltb b0 240 = true) by (n_facts; apply N.ltb_lt; lia).
      rewrite X1, X2, X3.
      destruct r0 as [ | b1 [ | b2 r2 ] ];
        try (destruct (second_ok b0 b1)); cbn [negb andb];
        try (split; [ discriminate | reflexivity ]);
        try (split; [ reflexivity | discriminate ]).
      destruct (is_cont b2).
      - rewrite option_map_none. apply IH. cbn in L. lia.
      - split; [ discriminate | reflexivity ]. }
    destruct (between 240 b0 244) eqn:A4.
    { assert (X1 : N.ltb b0 194 = false) by (n_facts; apply N.ltb_ge; lia).
      assert (X2 : N.ltb b0 224 = false) by (n_facts; apply N.ltb_ge; lia).
      assert (X3 : N.ltb b0 240 = false) by (n_facts; apply N.ltb_ge; lia).
      assert (X4 : N.ltb b0 245 = true) by (n_facts; apply N.ltb_lt; lia).
      rewrite X1, X2, X3, X4.
      destruct r0 as [ | b1 [ | b2 [ | b3 r3 ] ] ];
        try (destruct (second_ok b0 b1)); cbn [negb andb];
        try (destruct (is_cont b2)); cbn [negb andb];
        try (split; [ discriminate | reflexivity ]);
        try (split; [ reflexivity | discriminate ]).
      destruct (is_cont b3).
      - rewrite option_map_none. apply IH. cbn in L. lia.
      - split; [ discriminate | reflexivity ]. }
    destruct (N.ltb b0 194) eqn:B1; [ split; [ discriminate | reflexivity ] | ].
    destruct (N.ltb b0 224) eqn:B2; [ exfalso; n_facts; lia | ].
    destruct (N.ltb b0 240) eqn:B3; [ exfalso; n_facts; lia | ].
    destruct (N.ltb b0 245) eqn:B4; [ exfalso; n_facts; lia | ].
    split; [ discriminate | reflexivity ].
Qed.

Lemma decode_error_defined (bs : bytes) :
  decode_utf8 bs = None ->
  exists e, utf8_error 0 bs = Some e /\ decode_error bs = decode_message e.
Proof.
  intros D. apply (utf8_error_spec (List.length bs) bs 0 (Nat.le_refl _)) in D.
  unfold decode_error. destruct (utf8_error 0 bs) as [ e | ];
    [ eauto | contradiction ].
Qed.

(** A text can be encoded exactly when it has no surrogate. *)
Lemma encode_error_from_none (s : str) (pos : nat) :
  encode_error_from pos s = None
  <-> forallb (fun c => negb (is_surrogate c)) s = true.
Proof.
  revert pos. induction s as [ | c s IH ]; intros pos; cbn.
  - split; reflexivity.
  - destruct (is_surrogate c); cbn; [ split; discriminate | apply IH ].
Qed.

(** What the interpreter prints for payloads of every kind of decoding
    error: a byte that cannot start a character, a broken or
    over-long sequence, an encoded surrogate, a value beyond U+10FFFF,
    and data that ends inside a character. *)
Lemma decode_error_reports :
  Forall (fun '(payload, report) => decode_error payload = report)
    [
      ([0x61; 0x80]%N,
       lit "'utf-8' codec can't decode byte 0x80 in position 1: invalid start byte");
      ([0xC1; 0x80]%N,
       lit "'utf-8' codec can't decode byte 0xc1 in position 0: invalid start byte");
      ([0xC3]%N,
       lit "'utf-8' codec can't decode byte 0xc3 in position 0: unexpected end of data");
      ([0xC3; 0x41]%N,
       lit "'utf-8' codec can't decode byte 0xc3 in position 0: invalid continuation byte");
      ([0x61; 0x62; 0xE2]%N,
       lit "'utf-8' codec can't decode byte 0xe2 in position 2: unexpected end of data");
      ([0xE0; 0x80; 0x80]%N,
       lit "'utf-8' codec can't decode byte 0xe0 in position 0: invalid continuation byte");
      ([0xED; 0xA0; 0x80]%N,
       lit "'utf-8' codec can't decode byte 0xed in position 0: invalid continuation byte");
      ([0xE2; 0x82]%N,
       lit "'utf-8' codec can't decode bytes in position 0-1: unexpected end of data");
      ([0xE2; 0x82; 0x41]%N,
       lit "'utf-8' codec can't decode bytes in position 0-1: invalid continuation byte");
      ([0xF0]%N,
       lit "'utf-8' codec can't decode byte 0xf0 in position 0: unexpected end of data");
      ([0xF0; 0x80; 0x80; 0x80]%N,
       lit "'utf-8' codec can't decode byte 0xf0 in position 0: invalid continuation byte");
      ([0xF4; 0x90; 0x80; 0x80]%N,
       lit "'utf-8' codec can't decode byte 0xf4 in position 0: invalid continuation byte");
      ([0xF1; 0x80]%N,
       lit "'utf-8' codec can't decode bytes in position 0-1: unexpected end of data");
      ([0xF1; 0x80; 0x41]%N,
       lit "'utf-8' codec can't decode bytes in position 0-1: invalid continuation byte");
      ([0xF1; 0x80; 0x80]%N,
       lit "'utf-8' codec can't decode bytes in position 0-2: unexpected end of data");
      ([0xF1; 0x80; 0x80; 0x41]%N,
       lit "'utf-8' codec can't decode bytes in position 0-2: invalid continuation byte");
      ([0xF5; 0x80]%N,
       lit "'utf-8' codec can't decode byte 0xf5 in position 0: invalid start byte");
      ([0x41; 0x41; 0x41; 0x41; 0x41; 0x41; 0x41; 0x41; 0x41; 0x41; 0xE2; 0x82; 0xAC; 0xFF]%N,
       lit "'utf-8' codec can't decode byte 0xff in position 13: invalid start byte") ].
Proof. repeat (constructor; [ reflexivity | ]). constructor. Qed.

(** And for texts with surrogates, alone or in a run. *)
Lemma encode_error_reports :
  Forall (fun '(text, report) => encode_error text = Some report)
    [
      ([0xDC80]%N,
       lit "'utf-8' codec can't encode character '\udc80' in position 0: surrogates not allowed");
      ([0x61; 0xD800; 0x62]%N,
       lit "'utf-8' codec can't encode character '\ud800' in position 1: surrogates not allowed");
      ([0x61; 0xD800; 0xDFFF; 0xDBFF; 0x62]%N,
       lit "'utf-8' codec can't encode characters in position 1-3: surrogates not allowed");
      ([0x1F4F8; 0x20; 0xDFFF]%N,
       lit "'utf-8' codec can't encode character '\udfff' in position 2: surrogates not allowed") ].
Proof. repeat (constructor; [ reflexivity | ]). constructor. Qed.

(* --------------------------------------------------------------------- *)
(** ** The bridge: what an inbound event hands to the callback *)
(* --------------------------------------------------------------------- *)

(** A text that is not a string stops the join, whatever follows it. *)
Lemma segment_texts_stops (before behind : list VB.Segment)
    (texts : list str) (tv : bool) (shown type_name : str) :
  text_fields before = List.map VStr texts ->
  VB.segment_texts
    (before ++ {| VB.text := Some (VOther tv shown type_name) |} :: behind)
  = None.
Proof.
  revert texts. induction before as [ | seg before IH ]; intros texts.
  - intros _. reflexivity.
  - cbn [text_fields flat_map app VB.segment_texts].
    destruct (VB.text seg) as [ [ tx | tv' shown' ty' ] | ].
    + destruct texts as [ | t texts ]; [ discriminate | ].
      cbn [app List.map]. intros E. injection E as _ E.
      fold (text_fields before) in E. rewrite (IH texts E). reflexivity.
    + destruct texts; discriminate.
    + cbn [app]. apply IH.
Qed.

Lemma join_error_stops (before behind : list VB.Segment)
    (texts : list str) (tv : bool) (shown type_name : str) (i : nat) :
  text_fields before = List.map VStr texts ->
  VB.join_error i
    (before ++ {| VB.text := Some (VOther tv shown type_name) |} :: behind)
  = lit "sequence item " ++ decimal_of (i + List.length texts)
      ++ lit ": expected str instance, " ++ type_name ++ lit " found".
Proof.
  revert texts i. induction before as [ | seg before IH ]; intros texts i.
  - destruct texts; [ | discriminate ]. intros _. cbn. rewrite Nat.add_0_r.
    reflexivity.
  - cbn [text_fields flat_map app VB.join_error].
    destruct (VB.text seg) as [ [ tx | tv' shown' ty' ] | ].
    + destruct texts as [ | t texts ]; [ discriminate | ].
      cbn [app List.map]. intros E. injection E as _ E.
      fold (text_fields before) in E. rewrite (IH texts (S i) E).
      cbn [List.length]. rewrite Nat.add_succ_r. reflexivity.
    + destruct texts; discriminate.
    + cbn [app]. apply IH.
Qed.

Section Inbound.

Context {Callback S : Type}.
Variable w : World.t.
Variable self : VB.t Callback.
Variable s : S.

Lemma process_text (text : str) (src : option str) (cb : Callback) :
  VB.on_message_callback self = Some cb ->
  blank text = false ->
  VB._process_text_message self (VStr text) src s
  = (Return tt, s, [ CreateTask text ]).
Proof.
  intros C B. unfold VB._process_text_message.
  rewrite strip_truthy, B, C. destruct text; [ discriminate B | reflexivity ].
Qed.

(** X16: a transcription packet whose payload is a JSON object with a
    non-blank string under ["text"] hands exactly that string to the
    callback task, not the raw payload. *)
Theorem json_text_field_is_delivered (pkt : VB.DataPacket) (raw text : str)
    (d : dict) (cb : Callback) :
  VB.on_message_callback self = Some cb ->
  VB.topic pkt = Some VB.lk_transcription ->
  decode_utf8 (VB.data pkt) = Some raw ->
  startswith raw (lit "{") && contains (lit "text") raw = true ->
  World.json_loads w raw = Ok (JObject d) ->
  lookup d (lit "text") = Some (VStr text) ->
  blank text = false ->
  VB._on_data_received w self pkt s = (Return tt, s, [ CreateTask text ]).
Proof.
  intros C T D J L G B. unfold VB._on_data_received, VB.decode.
  rewrite T, D.
  replace (VB.topic_is (Some VB.lk_transcription) VB.lk_transcription)
    with true by reflexivity.
  unfold try_except, try_bare, bind, ret.
  rewrite J, L. unfold lift_reply, json_get, dict_get, ret.
  rewrite G. rewrite (process_text text _ cb C B). reflexivity.
Qed.

(** X17: a packet on any other topic, and a transcription packet that
    is not read as JSON text (no leading brace, no "text" in it, a
    parse failure, a result that is no object, or a truthy non-string
    under ["text"]), hands its whole decoded payload to the callback
    task. *)
Theorem raw_text_is_delivered (pkt : VB.DataPacket) (raw : str)
    (cb : Callback) :
  VB.on_message_callback self = Some cb ->
  decode_utf8 (VB.data pkt) = Some raw ->
  blank raw = false ->
  VB.topic_is (VB.topic pkt) VB.lk_transcription = false
  \/ falls_back w raw = true ->
  VB._on_data_received w self pkt s = (Return tt, s, [ CreateTask raw ]).
Proof.
  intros C D B F. unfold VB._on_data_received, VB.decode. rewrite D.
  pose proof (process_text raw (VB.topic pkt) cb C B) as P.
  pose proof (process_text raw (Some (lit "transcription_packet")) cb C B)
    as P'.
  destruct (VB.topic_is (VB.topic pkt) VB.lk_transcription) eqn:T.
  - destruct F as [ F | F ]; [ discriminate F | ]. unfold falls_back in F.
    unfold try_except, try_bare, bind, ret.
    destruct (startswith raw (lit "{") && contains (lit "text") raw).
    + cbn [negb orb] in F. unfold lift_reply, json_get, dict_get, ret, raise.
      destruct (World.json_loads w raw) as [ [ d | tv ] | e ].
      * destruct (lookup d (lit "text")) as [ [ t | [ | ] shown ] | ];
          try discriminate F.
        cbn [VB._process_text_message] in *. unfold raise. rewrite P.
        reflexivity.
      * rewrite P. reflexivity.
      * rewrite P. reflexivity.
    + rewrite P'. reflexivity.
  - unfold try_except, bind, ret. rewrite P. reflexivity.
Qed.

(** X18: a payload that is not valid UTF-8 is dropped with one warning
    that carries the decoder's own report (the offending byte or byte
    range, its position and the reason): the handler returns normally
    and creates no task, on every topic. *)
Theorem undecodable_packet_is_dropped (pkt : VB.DataPacket) :
  decode_utf8 (VB.data pkt) = None ->
  exists e,
    utf8_error 0 (VB.data pkt) = Some e
    /\ VB._on_data_received w self pkt s
       = (Return tt, s,
          [ Log WARNING (lit "Failed to decode msg: " ++ decode_message e) ]).
Proof.
  intros D. destruct (decode_error_defined _ D) as (e & U & M).
  exists e. split; [ exact U | ].
  unfold VB._on_data_received, VB.decode. rewrite D, M.
  destruct (VB.topic_is (VB.topic pkt) VB.lk_transcription); reflexivity.
Qed.

(** X19: one inbound event creates at most one callback task, and none
    at all while no callback is registered. *)
Theorem at_most_one_task_per_event (pkt : VB.DataPacket)
    (tr : VB.Transcription) (p : option VB.Participant) :
  List.length (VB.created_tasks (trace (VB._on_data_received w self pkt s)))
    <= 1
  /\ List.length
       (VB.created_tasks (trace (VB._on_transcription_received self tr p s)))
     <= 1
  /\ (VB.on_message_callback self = None ->
      VB.created_tasks (trace (VB._on_data_received w self pkt s)) = []
      /\ VB.created_tasks
           (trace (VB._on_transcription_received self tr p s)) = []).
Proof.
  split; [ | split ].
  - unfold VB._on_data_received, VB.decode, VB._process_text_message.
    run_monad. split_cases; cbn; lia.
  - unfold VB._on_transcription_received.
    run_monad. split_cases; cbn; lia.
  - intros C. split.
    + unfold VB._on_data_received, VB.decode, VB._process_text_message.
      rewrite C. run_monad. split_cases; reflexivity.
    + unfold VB._on_transcription_received.
      rewrite C. run_monad. split_cases; reflexivity.
Qed.

(** X20: a transcription whose participant identity has "agent-"
    anywhere in it, not only at its start, is dropped without a task
    and without a log line. *)
Theorem agent_marker_anywhere_is_dropped (tr : VB.Transcription)
    (before behind : str) :
  VB._on_transcription_received self tr
    (Some {| VB.identity := before ++ lit "agent-" ++ behind |}) s
  = (Return tt, s, []).
Proof.
  unfold VB._on_transcription_received. cbn [VB.identity].
  unfold VB.agent_marker. rewrite contains_app. reflexivity.
Qed.

(** X21: for a transcription that does not come from the agent: a
    segment list in which a text is not a string is dropped with one
    warning, the [TypeError] of the join, which names the position of
    the first such text among the texts and its type, and no task is
    created; a transcription that is no list is handed on as its
    [str()]. *)
Theorem odd_transcriptions (p : option VB.Participant) (cb : Callback) :
  match p with
  | Some who => contains VB.agent_marker (VB.identity who)
  | None => false
  end = false ->
  VB.on_message_callback self = Some cb ->
  (forall before behind texts tv shown type_name,
      text_fields before = List.map VStr texts ->
      VB._on_transcription_received self
        (VB.Segments
           (before
              ++ {| VB.text := Some (VOther tv shown type_name) |} :: behind))
        p s
      = (Return tt, s,
         [ Log WARNING
             (lit "Failed to process transcription: sequence item "
                ++ decimal_of (List.length texts)
                ++ lit ": expected str instance, " ++ type_name
                ++ lit " found") ]))
  /\ (forall shown,
        blank shown = false ->
        VB._on_transcription_received self (VB.NotAList shown) p s
        = (Return tt, s, [ CreateTask shown ])).
Proof.
  intros A C. split.
  - intros before behind texts tv shown type_name T.
    unfold VB._on_transcription_received. rewrite A.
    rewrite (segment_texts_stops before behind texts tv shown type_name T).
    rewrite (join_error_stops before behind texts tv shown type_name 0 T).
    reflexivity.
  - intros shown B. unfold VB._on_transcription_received.
    rewrite A, C. unfold try_except, bind, ret, emit.
    rewrite strip_truthy, B. reflexivity.
Qed.

End Inbound.

Lemma json_text_field_is_delivered_witness :
  VB._on_data_received transcribing wired_bridge help_packet tt
  = (Return tt, tt, [ CreateTask (lit "help me") ]).
Proof.
  apply (json_text_field_is_delivered transcribing wired_bridge tt
           help_packet help_json (lit "help me")
           [ (lit "text", VStr (lit "help me")) ] tt);
    reflexivity.
Defined.

Lemma raw_text_is_delivered_witness :
  VB._on_data_received offline wired_bridge hello_packet tt
  = (Return tt, tt, [ CreateTask (lit "hello") ]).
Proof.
  apply (raw_text_is_delivered offline wired_bridge tt hello_packet
           (lit "hello") tt);
    first [ reflexivity | left; reflexivity ].
Defined.

Lemma undecodable_packet_is_dropped_witness :
  VB._on_data_received offline wired_bridge broken_packet tt
  = (Return tt, tt,
     [ Log WARNING
         (lit "Failed to decode msg: 'utf-8' codec can't decode byte 0xff in position 0: invalid start byte") ]).
Proof.
  destruct (undecodable_packet_is_dropped offline wired_bridge tt
              broken_packet eq_refl) as (e & U & E).
  rewrite E. injection U as <-. reflexivity.
Defined.

Lemma at_most_one_task_per_event_witness :
  VB.created_tasks
    (trace (VB._on_data_received offline keyed_bridge hello_packet tt)) = []
  /\ VB.created_tasks
       (trace (VB._on_transcription_received keyed_bridge
                 (VB.Segments help_segments) None tt)) = [].
Proof.
  destruct (at_most_one_task_per_event offline keyed_bridge tt hello_packet
              (VB.Segments help_segments) None) as (_ & _ & N).
  apply N. reflexivity.
Defined.

Lemma odd_transcriptions_witness :
  VB._on_transcription_received wired_bridge
    (VB.Segments
       [ {| VB.text := Some (VStr (lit "send")) |};
         {| VB.text := None |};
         {| VB.text := Some (VOther false (lit "None") (lit "NoneType")) |};
         {| VB.text := Some (VStr (lit "help")) |} ])
    None tt
  = (Return tt, tt,
     [ Log WARNING
         (lit "Failed to process transcription: sequence item 1: expected str instance, NoneType found") ])
  /\ VB._on_transcription_received wired_bridge (VB.NotAList (lit "help"))
       None tt
     = (Return tt, tt, [ CreateTask (lit "help") ]).
Proof.
  destruct (odd_transcriptions wired_bridge tt None tt eq_refl eq_refl)
    as [ J L ].
  split.
  - apply (J [ {| VB.text := Some (VStr (lit "send")) |};
               {| VB.text := None |} ]
             [ {| VB.text := Some (VStr (lit "help")) |} ]
             [ lit "send" ] false (lit "None") (lit "NoneType")).
    reflexivity.
  - apply L. reflexivity.
Defined.

(* --------------------------------------------------------------------- *)
(** ** The manager: turns, history and the patient log *)
(* --------------------------------------------------------------------- *)

Lemma speak_and_return_speech (w : World.t) (text : str) (s : CM.t) :
  exists tr,
    CM._speak_and_return w text s = (Return text, said CM.assistant text s, tr)
    /\ forallb speechy tr = true
    /\ Trace.count is_synth tr <= 1
    /\ (VB.source (CM.voice_bridge s) = None
        \/ BackendAudioBridge.engine (CM.audio s) = None
        \/ text = [] -> tr = []).
Proof.
  unfold CM._speak_and_return, CM.append_history, said.
  destruct s as [d v b a ap cs ca h].
  unfold bind, ret, modify, get, CM.on_bridge, zoom. cbn.
  destruct (VB.source b) as [ src | ];
    [ | eexists; repeat split; try reflexivity; cbn; lia ].
  unfold BackendAudioBridge.generate_pcm.
  destruct text as [ | c text ];
    [ eexists; repeat split; try reflexivity; cbn; lia | ].
  cbn [truthy].
  destruct (BackendAudioBridge.engine a) as [ eng | ];
    [ | eexists; repeat split; try reflexivity; cbn; lia ].
  run_monad.
  destruct (World.tts_synthesize w (c :: text)) as [ [ | [ | x frames ] ] | e ];
    eexists; (split; [ reflexivity | ]); (split; [ reflexivity | ]);
    (split; [ cbn; lia | ]);
    intros [ H | [ H | H ] ]; discriminate H.
Qed.

(** X22: a turn without text, and without an image that can be
    analysed, answers "Awaiting input.": the answer is recorded as
    the assistant's turn (after the image marker when an image was
    given), and nothing but speech and log lines leaves the
    process. *)
Theorem empty_turn_awaits_input (w : World.t) (s : CM.t)
    (ut : option str) (img : option bytes) :
  CM.given ut = [] ->
  CM.given img = [] \/ CM.vision s = None ->
  let run := CM.process_input w ut img s in
  result run = Return (lit "Awaiting input.")
  /\ CM.history (after run)
     = CM.history s
       ++ (if truthy (CM.given img)
           then [ {| CM.role := CM.user; CM.content := CM.image_turn |} ]
           else [])
       ++ [ {| CM.role := CM.assistant;
               CM.content := lit "Awaiting input." |} ]
  /\ forallb speechy (trace run) = true.
Proof.
  intros U V run. subst run. rewrite process_input_bind.
  unfold CM.record_user_turn, CM.append_history. rewrite U. cbn [truthy].
  assert (A : forall s0,
             CM.vision s0 = CM.vision s ->
             CM.analyze_and_log w img s0 = (Return [], s0, [])).
  { intros s0 E. unfold CM.analyze_and_log, bind, get, ret.
    destruct V as [ V | V ].
    - rewrite V. reflexivity.
    - rewrite E, V. destruct (CM.given img); reflexivity. }
  destruct (truthy (CM.given img)); unfold modify, after; cbn [fst snd];
    rewrite A by reflexivity; cbv beta iota;
    unfold CM.combine; rewrite U; cbn [truthy app CM.respond negb];
    match goal with
    | |- context [ CM._speak_and_return w ?t ?st ] =>
        destruct (speak_and_return_speech w t st) as (tr & E & Sp & _)
    end;
    rewrite E; cbn [result after trace fst snd app];
    (split; [ reflexivity | split; [ | exact Sp ] ]);
    unfold said; cbn; rewrite <- ?app_assoc; reflexivity.
Qed.

Lemma empty_turn_awaits_input_witness :
  let run := CM.process_input offline None None fresh_manager in
  result run = Return (lit "Awaiting input.")
  /\ CM.history (after run)
     = [ {| CM.role := CM.assistant; CM.content := lit "Awaiting input." |} ]
  /\ forallb speechy (trace run) = true.
Proof.
  apply (empty_turn_awaits_input offline fresh_manager None None);
    first [ reflexivity | left; reflexivity ].
Defined.

Lemma same_but_log_refl (s : CM.t) : same_but_log s s.
Proof.
  unfold same_but_log. repeat split.
  destruct (CM.db s); [ exists []; rewrite app_nil_r; auto | exact I ].
Qed.

Lemma analyze_and_log_keeps (w : World.t) (img : option bytes) (s : CM.t) :
  let s1 := after (CM.analyze_and_log w img s) in
  CM.history s1 = CM.history s /\ same_but_log s s1.
Proof.
  unfold CM.analyze_and_log, bind, get, ret, json_get, raise.
  destruct (CM.given img) as [ | b image ];
    [ split; [ reflexivity | apply same_but_log_refl ] | ].
  destruct (CM.vision s) as [ v | ] eqn:V;
    [ | split; [ reflexivity | apply same_but_log_refl ] ].
  destruct (analyze_injury_total w v (b :: image) s) as (tr & E & _).
  rewrite E.
  destruct (analysis w (b :: image)) as [ d | tv ];
    [ | split; [ reflexivity | apply same_but_log_refl ] ].
  destruct (CM.db s) as [ database | ] eqn:D;
    [ | cbn; split; [ reflexivity | apply same_but_log_refl ] ].
  unfold CM.on_db, DatabaseManager.log_patient_state, zoom, call, bind,
    modify, ret.
  destruct (World.tinydb_insert w _) as [ [] | e ]; cbn [after fst snd];
    (split; [ reflexivity | ]); unfold same_but_log; cbn; rewrite D;
    repeat split.
  - eexists. split; [ reflexivity | cbn; lia ].
  - exists []. rewrite app_nil_r. auto.
Qed.

Lemma record_user_turn_state (ut : option str) (img : option bytes)
    (s : CM.t) :
  after (CM.record_user_turn ut img s)
  = CM.set_history (CM.history s ++ recorded ut img) s.
Proof.
  unfold CM.record_user_turn, CM.append_history, recorded.
  destruct (truthy (CM.given ut)); [ reflexivity | ].
  destruct (truthy (CM.given img)); [ reflexivity | ].
  cbn. rewrite app_nil_r. destruct s; reflexivity.
Qed.

(** Every turn ends in a response, once its input is combined. *)
Lemma respond_returns (w : World.t) (final_input : str) (s : CM.t) :
  exists text tr,
    CM.respond w final_input s = (Return text, said CM.assistant text s, tr).
Proof.
  destruct (truthy final_input) eqn:T.
  - destruct (respond_echo w _ s T) as (tr & E & _). eauto.
  - unfold CM.respond. rewrite T. cbn [negb].
    destruct (speak_and_return_total w (lit "Awaiting input.") s)
      as (tr & E & _). eauto.
Qed.

(** X23: [process_input] only ever appends to the history: the user
    turn it recorded, then the assistant turn when it returned.  The
    protocol, the step, the bridge, the vision processor and the
    audio bridge are left as they were, and the patient log grows by
    at most one record. *)
Theorem process_input_appends_and_preserves (w : World.t) (s : CM.t)
    (ut : option str) (img : option bytes) :
  let run := CM.process_input w ut img s in
  CM.history (after run)
    = CM.history s ++ recorded ut img ++ answered (result run)
  /\ same_but_log s (after run).
Proof.
  intros run. subst run. rewrite process_input_bind.
  rewrite record_user_turn_state.
  set (s0 := CM.set_history (CM.history s ++ recorded ut img) s).
  destruct (analyze_and_log_keeps w img s0) as [ AH AS ].
  destruct (CM.analyze_and_log w img s0) as [ [ [ vc | e ] s1 ] t1 ];
    cbn [after fst snd] in *.
  - destruct (respond_returns w (CM.combine ut vc) s1) as (text & tr & E).
    rewrite E. cbn [result after fst snd]. split.
    + unfold said. cbn. rewrite AH. unfold s0. cbn.
      rewrite <- app_assoc. reflexivity.
    + exact AS.
  - cbn [result fst answered]. rewrite app_nil_r. split.
    + rewrite AH. reflexivity.
    + exact AS.
Qed.

(** X24: [start_conversation] returns the greeting, marks the
    conversation active without a protocol or a step, and appends the
    greeting to the history it found: the history is not cleared. *)
Theorem start_conversation_resets (w : World.t) (s : CM.t) :
  let run := CM.start_conversation w s in
  result run = Return greeting
  /\ CM.conversation_active (after run) = true
  /\ CM.active_protocol (after run) = None
  /\ CM.current_step_id (after run) = None
  /\ CM.history (after run)
     = CM.history s
       ++ [ {| CM.role := CM.assistant; CM.content := greeting |} ]
  /\ CM.db (after run) = CM.db s
  /\ forallb speechy (trace run) = true.
Proof.
  intros run. subst run. unfold CM.start_conversation, bind, modify.
  destruct (speak_and_return_speech w greeting (CM.set_conversation s))
    as (tr & E & Sp & _).
  fold greeting. rewrite E. cbn. repeat split. exact Sp.
Qed.

(** X25: [log_patient_state] makes one insert, of a record stamped
    with the current time; when the store accepts it, [get_logs]
    returns the earlier records followed by the new one; when the
    store fails, the exception reaches the caller and the log is
    unchanged. *)
Theorem patient_log_round_trip (w : World.t) (database : DatabaseManager.t)
    (heart_rate injury_detected actions_taken : value) :
  let record :=
    {| timestamp := World.now_isoformat w;
       heart_rate := heart_rate;
       injury_detected := injury_detected;
       actions_taken := actions_taken |} in
  let run :=
    DatabaseManager.log_patient_state w heart_rate injury_detected
      actions_taken database in
  trace run = [ DbInsert record ]
  /\ (World.tinydb_insert w record = Ok tt ->
      result run = Return tt
      /\ result (DatabaseManager.get_logs (after run))
         = Return (DatabaseManager.patient_db database ++ [ record ]))
  /\ (forall e,
        World.tinydb_insert w record = Fails e ->
        result run = Raise (Exception e)
        /\ after run = database).
Proof.
  intros record run. subst run.
  unfold DatabaseManager.log_patient_state, DatabaseManager.get_logs.
  run_monad. fold record.
  destruct (World.tinydb_insert w record) as [ [] | e ]; cbn;
    repeat split; try reflexivity; intros; congruence.
Qed.

(** X26: without a vision processor an image is ignored: the text is
    echoed alone, no vision request is made and nothing is logged to
    the patient store. *)
Theorem vision_disabled_ignores_image (w : World.t) (s : CM.t) (text : str)
    (img : option bytes) :
  CM.vision s = None ->
  truthy text = true ->
  let run := CM.process_input w (Some text) img s in
  result run = Return (lit "I heard you say: " ++ text)
  /\ Trace.count is_vision (trace run) = 0
  /\ Trace.inserted (trace run) = [].
Proof.
  intros V T run. subst run. rewrite process_input_bind.
  rewrite record_user_turn_state.
  set (s0 := CM.set_history _ s).
  assert (A : CM.analyze_and_log w img s0 = (Return [], s0, [])).
  { unfold CM.analyze_and_log, bind, get, ret.
    change (CM.vision s0) with (CM.vision s). rewrite V.
    destruct (CM.given img); reflexivity. }
  rewrite A. cbv beta iota.
  assert (C : CM.combine (Some text) [] = text)
    by (unfold CM.combine; cbn; apply app_nil_r).
  rewrite C.
  destruct (respond_echo w text s0 T) as (tr & E & Q).
  rewrite E. cbn [result trace fst snd app].
  split; [ reflexivity | ]. split; [ | exact Q ].
  (* the echo branch makes no vision request *)
  clear - E T. unfold CM.respond in E. rewrite T in E. cbn [negb] in E.
  revert E. unfold bind at 1, get at 1.
  destruct (speak_and_return_speech w (CM.echo text) s0) as (t2 & E2 & Sp & _).
  destruct (VB.room (CM.voice_bridge s0)).
  - unfold CM.on_bridge, zoom, bind.
    destruct (publish_context_total w text (CM.voice_bridge s0))
      as (t1 & E1 & _).
    pose proof E1 as E1'. unfold VB.publish_context in E1'.
    rewrite E1.
    replace (CM.set_voice_bridge (CM.voice_bridge s0) s0) with s0
      by (destruct s; reflexivity).
    rewrite E2. intros E. injection E as <-.
    rewrite count_app.
    assert (Trace.count is_vision t1 = 0).
    { revert E1'. run_monad.
      destruct (VB.room (CM.voice_bridge s0)) as [ [ cs [ lp | ] ] | ];
        try (intros X; injection X as <-; reflexivity).
      destruct (encode_error text) as [ what | ];
        [ intros X; injection X as <-; reflexivity | ].
      destruct (World.publish_data w text) as [ [] | e ];
        intros X; injection X as <-; reflexivity. }
    assert (Trace.count is_vision t2 = 0).
    { clear - Sp. induction t2 as [ | e t IH ]; [ reflexivity | ].
      cbn in Sp. apply andb_prop in Sp as [ Se Sp ].
      rewrite count_cons, (IH Sp). destruct e; try discriminate Se;
        reflexivity. }
    lia.
  - unfold bind, emit. rewrite E2. intros E. injection E as <-.
    rewrite count_cons. cbn [is_vision].
    clear - Sp. induction t2 as [ | e t IH ]; [ reflexivity | ].
    cbn in Sp. apply andb_prop in Sp as [ Se Sp ].
    rewrite count_cons. cbn in IH. rewrite (IH Sp).
    destruct e; try discriminate Se; reflexivity.
Qed.

(** X27: when the vision model's reply parses to JSON that is no
    object (a list, a number, a string), [analyze_injury] returns it
    and [process_input] raises the [AttributeError] of
    [analysis.get], which names the type: the user turn is in the
    history, no assistant turn follows, nothing is logged. *)
Theorem odd_analysis_ends_the_turn (w : World.t) (s : CM.t)
    (ut : option str) (b : N) (image : bytes) (v : VisionProcessor.t)
    (tv : bool) (type_name : str) :
  CM.vision s = Some v ->
  result (VisionProcessor.analyze_injury w v (b :: image) s)
    = Return (JOther tv type_name) ->
  let run := CM.process_input w ut (Some (b :: image)) s in
  result run
    = Raise (Exception
               (lit "'" ++ type_name ++ lit "' object has no attribute 'get'"))
  /\ CM.history (after run) = CM.history s ++ recorded ut (Some (b :: image))
  /\ Trace.inserted (trace run) = [].
Proof.
  intros V A run. subst run. rewrite process_input_bind.
  rewrite record_user_turn_state.
  set (s0 := CM.set_history _ s).
  destruct (analyze_injury_total w v (b :: image) s) as (t0 & E0 & _).
  rewrite E0 in A. cbn in A. injection A as A.
  unfold CM.analyze_and_log, bind, get.
  change (CM.vision s0) with (CM.vision s). rewrite V. cbn [CM.given].
  destruct (analyze_injury_total w v (b :: image) s0) as (t1 & E1 & Q1).
  rewrite E1, A. cbn. rewrite app_nil_r. repeat split. exact Q1.
Qed.

(** X28: bridge and manager together.  A non-blank text packet on a
    topic other than the transcription topic, delivered to a bridge
    whose callback is the manager's [process_input], returns normally
    and grows the history by the user's text and its echo. *)
Theorem packet_to_response (w : World.t) (s : CM.t) (pkt : VB.DataPacket)
    (text : str) :
  VB.on_message_callback (CM.voice_bridge s) = Some CM.bound_process_input ->
  VB.topic_is (VB.topic pkt) VB.lk_transcription = false ->
  decode_utf8 (VB.data pkt) = Some text ->
  blank text = false ->
  let run :=
    VB.deliver (CM.invoke w) CM.voice_bridge w (VB.DataReceived pkt) s in
  result run = Return tt
  /\ CM.history (after run)
     = CM.history s
       ++ [ {| CM.role := CM.user; CM.content := text |};
            {| CM.role := CM.assistant;
               CM.content := lit "I heard you say: " ++ text |} ]
  /\ Trace.logged ERROR (trace run) = Trace.logged ERROR
       (trace (CM.process_input w (Some text) None s)).
Proof.
  intros C T D B run. subst run.
  assert (Tt : truthy text = true)
    by (destruct text; [ discriminate B | reflexivity ]).
  destruct (process_input_text_only w s text Tt) as (tr & E).
  assert (X : VB.deliver (CM.invoke w) CM.voice_bridge w
                (VB.DataReceived pkt) s
              = (Return tt,
                 said CM.assistant (CM.echo text) (said CM.user text s),
                 CreateTask text :: tr)).
  { unfold VB.deliver, VB.dispatch, listen, bind, get.
    unfold VB._on_data_received, VB.decode. rewrite D, T.
    unfold try_except, bind, ret.
    rewrite (process_text (CM.voice_bridge s) s text (VB.topic pkt)
               CM.bound_process_input C B).
    cbn [snd VB.created_tasks VB.run_tasks app].
    unfold VB._safe_callback_run, try_except, bind, get, ret. rewrite C.
    unfold CM.invoke, bind, ret. rewrite E. cbn [app].
    rewrite !app_nil_r. reflexivity. }
  rewrite X, E. cbn [result after trace fst snd]. split; [ reflexivity | ].
  split; [ | reflexivity ].
  unfold said. cbn. rewrite <- app_assoc. reflexivity.
Qed.

Lemma patient_log_round_trip_witness :
  let record :=
    {| timestamp := World.now_isoformat offline;
       heart_rate := VStr (lit "N/A");
       injury_detected := VStr (lit "Laceration");
       actions_taken := VStr (lit "Visual Analysis: CRITICAL") |} in
  let run :=
    DatabaseManager.log_patient_state offline (VStr (lit "N/A"))
      (VStr (lit "Laceration")) (VStr (lit "Visual Analysis: CRITICAL"))
      {| DatabaseManager.patient_db := [] |} in
  result run = Return tt
  /\ result (DatabaseManager.get_logs (after run)) = Return [ record ].
Proof.
  destruct (patient_log_round_trip offline
              {| DatabaseManager.patient_db := [] |} (VStr (lit "N/A"))
              (VStr (lit "Laceration"))
              (VStr (lit "Visual Analysis: CRITICAL"))) as (_ & A & _).
  apply A. reflexivity.
Defined.

Lemma vision_disabled_ignores_image_witness :
  let run := CM.process_input seeing (Some (lit "help")) (Some jpeg)
               blind_manager in
  result run = Return (lit "I heard you say: " ++ lit "help")
  /\ Trace.count is_vision (trace run) = 0
  /\ Trace.inserted (trace run) = [].
Proof.
  apply (vision_disabled_ignores_image seeing blind_manager (lit "help")
           (Some jpeg));
    reflexivity.
Defined.

Lemma odd_analysis_ends_the_turn_witness :
  let run := CM.process_input transcribing (Some (lit "help")) (Some jpeg)
               fresh_manager in
  result run
    = Raise (Exception (lit "'list' object has no attribute 'get'"))
  /\ CM.history (after run)
     = CM.history fresh_manager ++ recorded (Some (lit "help")) (Some jpeg)
  /\ Trace.inserted (trace run) = [].
Proof.
  apply (odd_analysis_ends_the_turn transcribing fresh_manager
           (Some (lit "help")) 0xFF%N [0xD8%N] processor true (lit "list"));
    reflexivity.
Defined.

Lemma packet_to_response_witness :
  let run :=
    VB.deliver (CM.invoke offline) CM.voice_bridge offline
      (VB.DataReceived hello_packet) live_manager in
  result run = Return tt
  /\ CM.history (after run)
     = [ {| CM.role := CM.user; CM.content := lit "hello" |};
         {| CM.role := CM.assistant;
            CM.content := lit "I heard you say: " ++ lit "hello" |} ]
  /\ Trace.logged ERROR (trace run) = Trace.logged ERROR
       (trace (CM.process_input offline (Some (lit "hello")) None
                 live_manager)).
Proof.
  apply (packet_to_response offline live_manager hello_packet (lit "hello"));
    reflexivity.
Defined.
